(** * Recurring content generation of dream-analysis: a shallow embedding

    Sources: [src/src/services/blogGenerator.ts], [src/src/services/blogScheduler.ts]
    and the dream analysis service ([src/unnamed/part_005]).

    Strings are modelled as Rocq strings of 8-bit characters, read as the
    UTF-16 code units U+0000..U+00FF (Latin-1); JavaScript's [toLowerCase]
    and the regular-expression class [\s] are written out on that range.
    JSON numbers are rationals: every number the code compares comes from a
    quotient of two small integers or from a parsed JSON literal, so the
    double comparisons the code performs agree with the rational ones. *)

From Stdlib Require Import String Ascii List Bool Arith Lia QArith Qround ZArith.
From Stdlib Require Import Sorting.Permutation Sorting.Sorted.
Import ListNotations.
Open Scope string_scope.
Open Scope list_scope.

(* ------------------------------------------------------------------------- *)
(** ** Characters and strings *)

Module Str.
Local Open Scope nat_scope.

(** [String.prototype.toLowerCase] on U+0000..U+00FF. *)
Definition lower_char (c : ascii) : ascii :=
  let n := nat_of_ascii c in
  if ((65 <=? n) && (n <=? 90)) || ((192 <=? n) && (n <=? 222) && negb (n =? 215))
  then ascii_of_nat (n + 32) else c.

Definition toLowerCase (s : list ascii) : list ascii := map lower_char s.

(** The regular-expression class [\s] on U+0000..U+00FF:
    TAB, LF, VT, FF, CR, SPACE and NO-BREAK SPACE. *)
Definition is_ws (c : ascii) : bool :=
  let n := nat_of_ascii c in
  ((9 <=? n) && (n <=? 13)) || (n =? 32) || (n =? 160).

Definition is_lower_alnum (c : ascii) : bool :=
  let n := nat_of_ascii c in
  ((97 <=? n) && (n <=? 122)) || ((48 <=? n) && (n <=? 57)).

Definition hyphen : ascii := "-"%char.

(** [s.split(/\s+/)]: the pieces between maximal runs of white space
    (a leading or trailing run yields an empty piece). *)
Fixpoint split_ws_aux (acc : list ascii) (in_ws : bool) (s : list ascii)
  : list (list ascii) :=
  match s with
  | [] => [rev acc]
  | c :: rest =>
      if is_ws c then
        if in_ws then split_ws_aux acc true rest
        else rev acc :: split_ws_aux [] true rest
      else split_ws_aux (c :: acc) false rest
  end.

Definition split_ws (s : list ascii) : list (list ascii) := split_ws_aux [] false s.

Fixpoint is_prefix (p s : list ascii) : bool :=
  match p, s with
  | [], _ => true
  | _ :: _, [] => false
  | a :: p', b :: s' => Ascii.eqb a b && is_prefix p' s'
  end.

(** [s.includes(sub)]. *)
Fixpoint includes (s sub : list ascii) : bool :=
  is_prefix sub s ||
  match s with
  | [] => false
  | _ :: s' => includes s' sub
  end.

End Str.

(* ------------------------------------------------------------------------- *)
(** ** [generateSlug] (blogGenerator.ts)

<<
function generateSlug(title: string): string {
  return title
    .toLowerCase()
    .replace(/[^a-z0-9\s-]/g, '')
    .replace(/\s+/g, '-')
    .replace(/-+/g, '-')
    .substring(0, 60);
}
>> *)

Module Slug.
Import Str.

(** [.replace(/[^a-z0-9\s-]/g, '')] *)
Definition strip_disallowed (s : list ascii) : list ascii :=
  filter (fun c => is_lower_alnum c || is_ws c || Ascii.eqb c hyphen) s.

(** [.replace(/\s+/g, '-')]: each maximal run of white space becomes one hyphen. *)
Fixpoint ws_to_hyphen_aux (in_ws : bool) (s : list ascii) : list ascii :=
  match s with
  | [] => []
  | c :: rest =>
      if is_ws c then
        if in_ws then ws_to_hyphen_aux true rest
        else hyphen :: ws_to_hyphen_aux true rest
      else c :: ws_to_hyphen_aux false rest
  end.

Definition ws_to_hyphen (s : list ascii) : list ascii := ws_to_hyphen_aux false s.

(** [.replace(/-+/g, '-')]: each maximal run of hyphens becomes one hyphen. *)
Fixpoint collapse_hyphens_aux (in_run : bool) (s : list ascii) : list ascii :=
  match s with
  | [] => []
  | c :: rest =>
      if Ascii.eqb c hyphen then
        if in_run then collapse_hyphens_aux true rest
        else c :: collapse_hyphens_aux true rest
      else c :: collapse_hyphens_aux false rest
  end.

Definition collapse_hyphens (s : list ascii) : list ascii := collapse_hyphens_aux false s.

Definition slug_chars (title : list ascii) : list ascii :=
  firstn 60 (collapse_hyphens (ws_to_hyphen (strip_disallowed (toLowerCase title)))).

Definition generateSlug (title : string) : string :=
  string_of_list_ascii (slug_chars (list_ascii_of_string title)).

End Slug.

(* ------------------------------------------------------------------------- *)
(** ** Freshness selection (blogGenerator.ts) *)

Module Fresh.
Import Str.

Definition lower (s : string) : string :=
  string_of_list_ascii (toLowerCase (list_ascii_of_string s)).

(** The comparison [a < b] on numbers. *)
Definition Qlt_bool (a b : Q) : bool := negb (Qle_bool b a).

Definition qmax (a b : Q) : Q := if Qlt_bool a b then b else a.
Definition qmin (a b : Q) : Q := if Qlt_bool b a then b else a.

(** [itemWords.filter(w => recentWords.some(rw => rw.includes(w) || w.includes(rw))).length
     / Math.max(itemWords.length, 1)] *)
Definition word_overlap (itemWords recentWords : list (list ascii)) : Q :=
  let overlap :=
    length (filter (fun w => existsb (fun rw => includes rw w || includes w rw) recentWords)
                   itemWords) in
  Z.of_nat overlap # Pos.of_nat (Nat.max (length itemWords) 1).

(** The similarity computed inside [selectFreshItem]: the item is lower-cased,
    [recentLower] has been lower-cased by the caller. *)
Definition item_similarity (item : string) (recentLower : list string) : Q :=
  fold_left
    (fun max recent =>
       qmax max (word_overlap (split_ws (list_ascii_of_string (lower item)))
                              (split_ws (list_ascii_of_string recent))))
    recentLower 0.

(** [topicSimilarity(topic, usedTopics)]: the used topics are not lower-cased here. *)
Definition topicSimilarity (topic : string) (usedTopics : list string) : Q :=
  let topicWords := split_ws (list_ascii_of_string (lower topic)) in
  fold_left
    (fun maxSimilarity used =>
       qmax maxSimilarity (word_overlap topicWords (split_ws (list_ascii_of_string used))))
    usedTopics 0.

(** [Math.floor(Math.random() * n)] for a draw [r] of [Math.random()]. *)
Definition rand_index (r : Q) (n : nat) : nat :=
  Z.to_nat (Qfloor (r * inject_Z (Z.of_nat n))).

(** [arr[Math.floor(Math.random() * arr.length)]]; [None] is [undefined]. *)
Definition getRandomItem {A} (arr : list A) (r : Q) : option A :=
  nth_error arr (rand_index r (length arr)).

(** [scored.sort((a, b) => a.similarity - b.similarity)]: a stable sort by
    ascending similarity (ECMAScript requires [Array.prototype.sort] to be stable). *)
Fixpoint insert_by_sim {A} (x : A * Q) (l : list (A * Q)) : list (A * Q) :=
  match l with
  | [] => [x]
  | y :: l' => if Qle_bool (snd x) (snd y) then x :: y :: l' else y :: insert_by_sim x l'
  end.

Fixpoint sort_by_sim {A} (l : list (A * Q)) : list (A * Q) :=
  match l with
  | [] => []
  | x :: l' => insert_by_sim x (sort_by_sim l')
  end.

Definition fresh_threshold : Q := 3 # 10.

Definition scoreItems (items recentlyUsed : list string) : list (string * Q) :=
  let recentLower := map lower recentlyUsed in
  map (fun item => (item, item_similarity item recentLower)) items.

(** [selectFreshItem(items, recentlyUsed, fallbackRandom)] with [r] the value
    of its one [Math.random()] call.  [None] stands for the [TypeError] of
    [undefined.item] (an empty pool) or, on the [getRandomItem] path, for
    [undefined]. *)
Definition selectFreshItem (items recentlyUsed : list string) (fallbackRandom : bool) (r : Q)
  : option string :=
  let scored := scoreItems items recentlyUsed in
  let fresh := filter (fun s => Qlt_bool (snd s) fresh_threshold) scored in
  match fresh with
  | _ :: _ => option_map fst (nth_error fresh (rand_index r (length fresh)))
  | [] =>
      if fallbackRandom then
        let topFresh := firstn (Nat.min 5 (length scored)) (sort_by_sim scored) in
        option_map fst (nth_error topFresh (rand_index r (length topFresh)))
      else getRandomItem items r
  end.

(** The selection step of [getRandomEducationalTopic], given [allTopics]
    and the awaited [usedTopics]; [r] is its [Math.random()] draw. *)
Definition topic_threshold : Q := 1 # 2.

Definition scoreTopics (allTopics usedTopics : list string) : list (string * Q) :=
  map (fun topic => (topic, topicSimilarity topic usedTopics)) allTopics.

Definition pickEducationalTopic (allTopics usedTopics : list string) (r : Q) : option string :=
  let scoredTopics := scoreTopics allTopics usedTopics in
  let freshTopics := filter (fun t => Qlt_bool (snd t) topic_threshold) scoredTopics in
  match freshTopics with
  | _ :: _ => option_map fst (nth_error freshTopics (rand_index r (length freshTopics)))
  | [] => option_map fst (hd_error (sort_by_sim scoredTopics))
  end.

End Fresh.

(* ------------------------------------------------------------------------- *)
(** ** Candidate pools (blogGenerator.ts, constants) *)

Module Pools.

Definition DREAM_SETTINGS : list string := [
  "a forest at twilight where the trees whisper secrets";
  "an underwater city with bioluminescent architecture";
  "a vast desert with ancient ruins half-buried in sand";
  "a cave system with glowing crystals and underground rivers";
  "a beach where the sand is made of stars and the waves glow";
  "a mountain peak above the clouds at sunrise";
  "a jungle temple overgrown with flowering vines";
  "an ice palace with rooms of frozen memories";
  "a garden where each flower holds a different emotion";
  "a storm-lit ocean aboard a ship";
  "a floating castle in the clouds connected by bridges of light";
  "an abandoned mansion with rooms that rearrange themselves";
  "a bustling futuristic metropolis with flying vehicles";
  "a serene Japanese garden with paths that lead to different times";
  "a labyrinthine library where books contain living stories";
  "a carnival at midnight with impossible rides";
  "a space station orbiting Earth with views of distant galaxies";
  "a village frozen in time where clocks run backwards";
  "an art museum where paintings are portals";
  "a train traveling through impossible landscapes between realities";
  "a childhood home transformed by time and memory";
  "a school where the subjects are emotions and dreams";
  "an office building where each floor is a different era";
  "a hospital where they heal emotional wounds";
  "a theater where past moments replay on stage";
  "a city built entirely of mirrors and reflections";
  "a place where gravity shifts with your emotions";
  "a realm where colors have sound and music has shape";
  "a clockwork world where time is visible and tangible";
  "an infinite staircase leading to forgotten memories"
].

Definition DREAM_THEMES : list string := [
  "transformation and rebirth into a new version of yourself";
  "discovering hidden abilities you never knew you had";
  "facing a shadow version of yourself";
  "integrating different aspects of your personality";
  "becoming someone else entirely";
  "reconnecting with someone from your past";
  "meeting a mysterious guide who knows your secrets";
  "protecting someone vulnerable";
  "communication barriers with someone important";
  "forgiveness and letting go of old wounds";
  "searching for something precious that was lost";
  "navigating a maze with no clear exit";
  "solving an impossible puzzle that keeps changing";
  "being chased by an unknown pursuer";
  "racing against time to reach somewhere important";
  "flying and the freedom of weightlessness";
  "water and overwhelming emotions";
  "ascending to heights or descending to depths";
  "losing something and finding it transformed";
  "facing a fear that has followed you for years";
  "confronting mortality and what comes after";
  "making a choice that will change everything";
  "witnessing the end or beginning of something vast";
  "traveling between past, present, and future";
  "meeting someone who has passed away"
].

Definition EMOTIONAL_TONES : list string := [
  "nostalgic and bittersweet, like revisiting a fading photograph";
  "anxious but with a thread of hope pulling forward";
  "peaceful and contemplative, like floating in still water";
  "exciting and adventurous, heart racing with possibility";
  "mysterious and intriguing, full of hidden meanings";
  "melancholic but with a sense of acceptance and release";
  "joyful and liberating, like breaking free from chains";
  "tense and suspenseful, building to an unknown climax";
  "wistful and longing, reaching for something just out of grasp";
  "awe-struck and humbled by something vast and beautiful";
  "unsettled but curious, drawn to understand";
  "tender and vulnerable, emotions close to the surface"
].

Definition dream_science_topics : list string := [
  "Why Do We Dream? The Latest Scientific Theories";
  "REM Sleep and Dream Formation: What Happens in Your Brain";
  "The Role of Dreams in Memory Consolidation";
  "Lucid Dreaming: The Neuroscience Behind Conscious Dreams";
  "How Stress Hormones Affect Your Dream Content";
  "The Neuroscience of Nightmares: Why Your Brain Creates Fear";
  "Dreams and Creativity: How Sleep Sparks Innovation";
  "Sleep Cycles Explained: When Dreams Happen and Why";
  "Why We Forget Our Dreams: The Science of Dream Amnesia";
  "The Evolutionary Purpose of Dreaming: Survival Theories";
  "Freud vs Jung: Competing Theories of Dream Meaning";
  "Threat Simulation Theory: Dreams as Survival Training";
  "Emotional Regulation Through Dreams: Processing Feelings While Asleep";
  "The Connection Between Dreams and Mental Health";
  "Problem-Solving in Dreams: Can Your Sleeping Brain Find Solutions?";
  "Recurring Dreams: What Psychology Tells Us About Patterns";
  "Dream Research Methods: How Scientists Study Sleeping Minds";
  "The Default Mode Network and Dreaming";
  "Circadian Rhythms and Dream Intensity";
  "How Medications Affect Your Dreams";
  "Dreams Across the Lifespan: How Dreaming Changes as We Age";
  "The Role of the Hippocampus in Dream Formation";
  "Predictive Processing Theory and Dreams";
  "Social Simulation in Dreams: Why We Dream of Others";
  "The Relationship Between Dreams and Daydreaming"
].

Definition sleep_tips_topics : list string := [
  "How to Remember Your Dreams: A Complete Step-by-Step Guide";
  "Morning Rituals That Boost Dream Recall by 80%";
  "The Wake-Back-to-Bed Technique for Vivid Dreams";
  "Dream Journaling: Digital vs Paper Methods Compared";
  "Creating the Perfect Sleep Environment for Deep Rest";
  "Room Temperature and Sleep Quality: Finding Your Ideal";
  "Blackout Solutions: Light Control for Better Sleep";
  "White Noise vs Silence: What Science Says About Sleep Sounds";
  "The Best Mattress Positions for Dream-Rich Sleep";
  "A Science-Backed 60-Minute Wind-Down Routine";
  "The 4-7-8 Breathing Technique for Falling Asleep Faster";
  "Progressive Muscle Relaxation Before Bed";
  "Screen-Free Evening Routines That Actually Work";
  "How to Reset Your Sleep Schedule in One Week";
  "Foods That Naturally Promote Vivid Dreams";
  "What to Avoid Eating Before Bed";
  "Melatonin and Dreams: What You Need to Know";
  "Herbal Teas for Better Sleep: A Complete Guide";
  "The Connection Between Hydration and Sleep Quality";
  "MILD Technique: Reality Testing for Lucid Dreams";
  "Sleep Restriction Therapy Explained";
  "Cognitive Shuffling: The Mental Trick for Falling Asleep";
  "How to Stop Sleep Procrastination";
  "Napping Without Ruining Nighttime Sleep"
].

Definition symbolism_topics : list string := [
  "Water in Dreams: Oceans, Rivers, Rain, and What They Reveal";
  "Fire Dreams: Destruction, Transformation, and Passion";
  "Earth and Ground Symbolism in Dreams";
  "Air and Wind in Dreams: Freedom and the Intangible";
  "Flying Dreams Decoded: Freedom, Escape, and Control";
  "Falling Dreams: Loss of Control Across Cultures";
  "Being Chased: Understanding Pursuit Dreams";
  "Dreams of Being Lost: Searching for Direction";
  "Swimming Dreams: Navigating Emotional Depths";
  "Teeth Falling Out: The Most Universal Dream Explained";
  "Hair in Dreams: Identity, Vitality, and Change";
  "Dreams About Hands: Action, Ability, and Connection";
  "Naked in Public Dreams: Vulnerability Exposed";
  "Dreams About Eyes: Perception and Truth";
  "Meeting Strangers in Dreams: The Unknown Self";
  "Dreams About Deceased Loved Ones: Grief and Connection";
  "Celebrity Dreams: What Famous Faces Represent";
  "Dreams About Ex-Partners: Processing Past Relationships";
  "Children in Dreams: Innocence, Potential, and Vulnerability";
  "Houses and Rooms: Exploring the Architecture of Self";
  "School Dreams as an Adult: Unfinished Lessons";
  "Workplace Dreams: Stress, Ambition, and Identity";
  "Forest Symbolism: The Unconscious Wilderness";
  "Dreams of Bridges: Transitions and Connections";
  "Snake Dreams: Transformation, Fear, and Healing";
  "Dog Dreams: Loyalty, Protection, and Instinct";
  "Cat Symbolism in Dreams: Independence and Intuition";
  "Bird Dreams: Freedom, Spirituality, and Perspective";
  "Spider Dreams: Creativity, Fear, and Feminine Energy";
  "Car Dreams: Life Direction and Personal Control";
  "Money in Dreams: Value, Security, and Self-Worth";
  "Phone Dreams: Communication and Connection";
  "Mirror Dreams: Self-Reflection and Identity";
  "Key and Lock Symbolism: Access, Secrets, and Solutions"
].

Inductive EduCategory := DreamScience | SleepTips | Symbolism.

Definition edu_category_name (c : EduCategory) : string :=
  match c with
  | DreamScience => "dream-science"
  | SleepTips => "sleep-tips"
  | Symbolism => "symbolism"
  end.

(** [EDUCATIONAL_TOPICS[category]] *)
Definition EDUCATIONAL_TOPICS (c : EduCategory) : list string :=
  match c with
  | DreamScience => dream_science_topics
  | SleepTips => sleep_tips_topics
  | Symbolism => symbolism_topics
  end.

End Pools.

(* ------------------------------------------------------------------------- *)
(** ** Parsed JSON values and the property reads the code performs *)

Module Json.
Local Set Warnings "-register-all".

(** A value produced by [JSON.parse]. *)
Inductive json :=
| JNull
| JBool (b : bool)
| JNum (q : Q)
| JStr (s : string)
| JArr (l : list json)
| JObj (fields : list (string * json)).

(** JavaScript truthiness of a property value; [None] is [undefined]. *)
Definition truthy (v : option json) : bool :=
  match v with
  | None | Some JNull => false
  | Some (JBool b) => b
  | Some (JNum q) => negb (Qeq_bool q 0)
  | Some (JStr s) => negb (String.eqb s "")
  | Some (JArr _) | Some (JObj _) => true
  end.

(** [a || d] where [d] is a JSON default. *)
Definition or_default (v : option json) (d : json) : json :=
  match v with
  | Some j => if truthy v then j else d
  | None => d
  end.

(** [v.key]: [None] is the [TypeError] of reading a property of [null];
    [Some None] is [undefined].  A duplicated key keeps its last value, as
    [JSON.parse] does.  The keys read by the code ([title], [slug],
    [symbols], ...) are not properties of strings, numbers, booleans or
    arrays, which therefore read as [undefined]. *)
Definition get (v : json) (key : string) : option (option json) :=
  match v with
  | JNull => None
  | JObj fields =>
      Some (option_map snd (find (fun kv => String.eqb (fst kv) key) (rev fields)))
  | _ => Some None
  end.

(** [v] has an own property [key] ([JSON.parse] makes every key an own
    data property). *)
Definition has_own (fields : list (string * json)) (key : string) : bool :=
  existsb (fun kv => String.eqb (fst kv) key) fields.

(** What [ToPrimitive] followed by [ToString] makes of a parsed value: a
    string, the decimal text of a number [q] (read back as [q] by
    [ToNumber]), or the text of an array of two or more entries joined by
    [","] (never a numeric string). *)
Inductive jsstr := SLit (s : string) | SNum (q : Q) | SJoined.

(** [String(v)], as in a template literal [${v}] or in [Array.prototype.join];
    [None] is a thrown [TypeError].  An object first tries its [toString]
    (then [valueOf], which returns the object itself): a parsed object with
    an own [toString] key has no callable one and throws; any other object
    gives ["[object Object]"].  An array is joined with [","], its [null]
    entries giving [""]. *)
Fixpoint to_prim (v : json) : option jsstr :=
  match v with
  | JNull => Some (SLit "null")
  | JBool b => Some (SLit (if b then "true" else "false"))
  | JNum q => Some (SNum q)
  | JStr s => Some (SLit s)
  | JArr l =>
      let fix parts (l : list json) : option (list jsstr) :=
        match l with
        | [] => Some []
        | x :: l' =>
            match (match x with JNull => Some (SLit "") | _ => to_prim x end), parts l' with
            | Some p, Some ps => Some (p :: ps)
            | _, _ => None
            end
        end in
      match parts l with
      | Some [] => Some (SLit "")
      | Some [p] => Some p
      | Some _ => Some SJoined
      | None => None
      end
  | JObj fields => if has_own fields "toString" then None else Some (SLit "[object Object]")
  end.

(** [${v}] does not throw; [undefined] gives ["undefined"]. *)
Definition str_ok (v : option json) : bool :=
  match v with
  | None => true
  | Some j => match to_prim j with Some _ => true | None => false end
  end.

(** A JavaScript number: finite, infinite or [NaN]. *)
Inductive jsnum := NFin (q : Q) | NInf (positive : bool) | NNaN.

(** [StrWhiteSpaceChar] on U+0000..U+00FF: TAB, LF, VT, FF, CR, SPACE and
    NO-BREAK SPACE. *)
Definition is_str_ws (c : ascii) : bool :=
  let n := nat_of_ascii c in
  ((9 <=? n) && (n <=? 13))%nat || (n =? 32)%nat || (n =? 160)%nat.

Fixpoint drop_ws (l : list ascii) : list ascii :=
  match l with
  | c :: l' => if is_str_ws c then drop_ws l' else l
  | [] => []
  end.

Definition trim (l : list ascii) : list ascii := rev (drop_ws (rev (drop_ws l))).

(** The value of [c] as a digit of base [b] (2, 8, 10 or 16). *)
Definition digit_value (b : Z) (c : ascii) : option Z :=
  let n := Z.of_nat (nat_of_ascii c) in
  let d := (if (48 <=? n) && (n <=? 57) then n - 48
            else if (97 <=? n) && (n <=? 102) then n - 87
            else if (65 <=? n) && (n <=? 70) then n - 55
            else 99)%Z in
  if (d <? b)%Z then Some d else None.

(** The longest prefix of base-[b] digits: the value [acc * b^k + digits],
    the number [k] of digits and the rest. *)
Fixpoint span_digits (b acc : Z) (k : nat) (l : list ascii) : Z * nat * list ascii :=
  match l with
  | c :: l' =>
      match digit_value b c with
      | Some d => span_digits b (acc * b + d)%Z (S k) l'
      | None => (acc, k, l)
      end
  | [] => (acc, k, [])
  end.

(** [m * 10^e] *)
Definition scale10 (m e : Z) : Q :=
  if (0 <=? e)%Z then inject_Z (m * 10 ^ e)%Z else Qmake m (Z.to_pos (10 ^ (- e))%Z).

(** The exact value of an unsigned [StrUnsignedDecimalLiteral] other than
    [Infinity]: [digits], [digits.], [digits.digits] or [.digits], with an
    optional exponent. *)
Definition unsigned_decimal (l : list ascii) : option Q :=
  let '(m1, k1, r1) := span_digits 10 0 0 l in
  let '(m, k2, r2) :=
    match r1 with
    | c :: r => if Ascii.eqb c "." then span_digits 10 m1 0 r else (m1, O, r1)
    | [] => (m1, O, r1)
    end in
  if (k1 + k2 =? 0)%nat then None
  else
    let frac := Z.of_nat k2 in
    match r2 with
    | [] => Some (scale10 m (- frac)%Z)
    | c :: r =>
        if Ascii.eqb c "e" || Ascii.eqb c "E" then
          let '(neg, r') :=
            match r with
            | s :: r' => if Ascii.eqb s "-" then (true, r')
                         else if Ascii.eqb s "+" then (false, r') else (false, r)
            | [] => (false, r)
            end in
          match span_digits 10 0 0 r' with
          | (e, S _, []) => Some (scale10 m ((if neg then - e else e) - frac)%Z)
          | _ => None
          end
        else None
    end.

(** Rounding of an exact magnitude [x >= 0] to a double, at the ends of the
    range: at most [2^-1075] becomes 0, at least [2^1024 - 2^970] becomes
    [Infinity]; in between the value is kept exact, as the values of
    [JNum] are. *)
Definition to_double (negative : bool) (x : Q) : jsnum :=
  if Qle_bool x (1 # Z.to_pos (2 ^ 1075)%Z) then NFin 0
  else if Qle_bool (inject_Z (2 ^ 1024 - 2 ^ 970)%Z) x then NInf (negb negative)
  else NFin (if negative then - x else x).

(** [StringToNumber]: white space is trimmed, the empty string is 0; a
    signed decimal literal or [Infinity], or an unsigned [0x], [0o] or [0b]
    integer; anything else is [NaN]. *)
Definition string_to_number (s : string) : jsnum :=
  match trim (list_ascii_of_string s) with
  | [] => NFin 0
  | (c :: r) as l =>
      let based :=
        match r with
        | x :: ds =>
            if Ascii.eqb c "0" then
              if Ascii.eqb x "x" || Ascii.eqb x "X" then Some (16%Z, ds)
              else if Ascii.eqb x "o" || Ascii.eqb x "O" then Some (8%Z, ds)
              else if Ascii.eqb x "b" || Ascii.eqb x "B" then Some (2%Z, ds)
              else None
            else None
        | [] => None
        end in
      match based with
      | Some (b, ds) =>
          match span_digits b 0 0 ds with
          | (v, S _, []) => to_double false (inject_Z v)
          | _ => NNaN
          end
      | None =>
          let '(neg, u) :=
            if Ascii.eqb c "-" then (true, r) else if Ascii.eqb c "+" then (false, r) else (false, l) in
          if String.eqb (string_of_list_ascii u) "Infinity" then NInf (negb neg)
          else match unsigned_decimal u with
               | Some x => to_double neg x
               | None => NNaN
               end
      end
  end.

(** [ToNumber(v)] (as in [v > 0.7]); [None] is a thrown [TypeError].
    [undefined] is [NaN], [null] is 0, booleans are 0 or 1; strings are
    read by [StringToNumber]; an array or an object is first turned into a
    string by [to_prim]. *)
Definition to_number (v : option json) : option jsnum :=
  match v with
  | None => Some NNaN
  | Some JNull => Some (NFin 0)
  | Some (JBool b) => Some (NFin (if b then 1 else 0))
  | Some (JNum q) => Some (NFin q)
  | Some (JStr s) => Some (string_to_number s)
  | Some j =>
      match to_prim j with
      | Some (SLit s) => Some (string_to_number s)
      | Some (SNum q) => Some (NFin q)
      | Some SJoined => Some NNaN
      | None => None
      end
  end.

(** [n > q] for a number [n] and a finite [q]; [NaN] compares false. *)
Definition js_gt (n : jsnum) (q : Q) : bool :=
  match n with
  | NFin x => Fresh.Qlt_bool q x
  | NInf b => b
  | NNaN => false
  end.

End Json.

(* ------------------------------------------------------------------------- *)
(** ** [analyzeDream]: the parse of the analysis response (part_005) *)

Module Analysis.
Import Json.

Record Symbol := mkSymbol {
  sym_name : json;
  sym_meaning : json;
  sym_significance : json
}.

Record Emotion := mkEmotion {
  emo_name : json;
  emo_intensity : Q;
  emo_color : json
}.

(** [DreamAnalysis] without its [analyzed_at] time stamp. *)
Record DreamAnalysis := mkDreamAnalysis {
  interpretation : json;
  symbols : list Symbol;
  emotions : list Emotion;
  themes : list json;
  advice : json
}.

Definition significance_tiers : list string := ["high"; "medium"; "low"].

(** [['high','medium','low'].includes(s.significance) ? s.significance : 'medium'] *)
Definition tier (v : option json) : json :=
  match v with
  | Some (JStr t) => if existsb (String.eqb t) significance_tiers then JStr t else JStr "medium"
  | _ => JStr "medium"
  end.

(** [typeof e.intensity === 'number' ? Math.min(100, Math.max(0, e.intensity)) : 50] *)
Definition intensity_of (v : option json) : Q :=
  match v with
  | Some (JNum q) => Fresh.qmin 100 (Fresh.qmax 0 q)
  | _ => 50
  end.

Definition symbol_of (s : json) : option Symbol :=
  match get s "name", get s "meaning", get s "significance" with
  | Some n, Some m, Some g =>
      Some (mkSymbol (or_default n (JStr "Unknown")) (or_default m (JStr "")) (tier g))
  | _, _, _ => None
  end.

Definition emotion_of (e : json) : option Emotion :=
  match get e "name", get e "intensity", get e "color" with
  | Some n, Some i, Some c =>
      Some (mkEmotion (or_default n (JStr "Unknown")) (intensity_of i)
                      (or_default c (JStr "#8b5cf6")))
  | _, _, _ => None
  end.

(** [xs.map(f)] where a step may throw. *)
Fixpoint map_opt {A B} (f : A -> option B) (l : list A) : option (list B) :=
  match l with
  | [] => Some []
  | x :: l' =>
      match f x with
      | Some y => option_map (cons y) (map_opt f l')
      | None => None
      end
  end.

(** [(v || []).map(f)]: only arrays have a [map] method. *)
Definition map_or_empty {B} (f : json -> option B) (v : option json) : option (list B) :=
  match or_default v (JArr []) with
  | JArr l => map_opt f l
  | _ => None
  end.

(** The body of the [try] block of [analyzeDream] after [JSON.parse];
    [None] is a thrown [TypeError], which the [catch] turns into
    [Error('Failed to parse AI response. Please try again.')]. *)
Definition parse_analysis (parsed : json) : option DreamAnalysis :=
  match get parsed "interpretation" with
  | None => None
  | Some interp =>
      match get parsed "symbols", get parsed "emotions", get parsed "themes", get parsed "advice" with
      | Some syms, Some emos, Some ths, Some adv =>
          match map_or_empty symbol_of syms, map_or_empty emotion_of emos with
          | Some ss, Some es =>
              Some (mkDreamAnalysis
                      (or_default interp (JStr "Unable to generate interpretation."))
                      ss es
                      (match ths with Some (JArr l) => l | _ => [] end)
                      (or_default adv (JStr "")))
          | _, _ => None
          end
      | _, _, _, _ => None
      end
  end.

End Analysis.

(* ------------------------------------------------------------------------- *)
(** ** Objects built from the parsed responses (blogGenerator.ts) *)

Module Build.
Import Json.

Record GeneratedDream := mkGeneratedDream {
  gd_title : option json;
  gd_content : option json;
  gd_mood : option json;
  gd_tags : json;
  gd_isLucid : json;
  gd_setting : option json;
  gd_characters : json;
  gd_emotionalTone : option json
}.

(** The object returned by [generateDream] from [parsed]; [None] is the
    [TypeError] of reading a property of [null]. *)
Definition dream_of (parsed : json) : option GeneratedDream :=
  match get parsed "title", get parsed "content", get parsed "mood", get parsed "tags",
        get parsed "isLucid", get parsed "setting", get parsed "characters",
        get parsed "emotionalTone" with
  | Some t, Some c, Some m, Some tg, Some l, Some st, Some ch, Some et =>
      Some (mkGeneratedDream t c m (or_default tg (JArr [])) (or_default l (JBool false))
                             st (or_default ch (JArr [])) et)
  | _, _, _, _, _, _, _, _ => None
  end.

Record GeneratedBlogPost := mkGeneratedBlogPost {
  bp_title : option json;
  bp_subtitle : option json;
  bp_slug : json;
  bp_excerpt : option json;
  bp_content : option json;
  bp_meta_title : option json;
  bp_meta_description : option json;
  bp_tags : json
}.

(** [parsed.slug || generateSlug(parsed.title)]; [generateSlug] calls
    [title.toLowerCase()], a [TypeError] ([None]) unless the title is a string. *)
Definition slug_of (slug title : option json) : option json :=
  if truthy slug then slug
  else match title with
       | Some (JStr t) => Some (JStr (Slug.generateSlug t))
       | _ => None
       end.

(** The result object of [generateDreamBlogPost] and of [generateEducationalPost]:
<<
  { title: parsed.title, subtitle: parsed.subtitle,
    slug: parsed.slug || generateSlug(parsed.title),
    excerpt: parsed.excerpt, content: parsed.content,
    meta_title: parsed.meta_title, meta_description: parsed.meta_description,
    tags: parsed.tags || [] }
>> *)
Definition post_of (parsed : json) : option GeneratedBlogPost :=
  match get parsed "title", get parsed "subtitle", get parsed "slug", get parsed "excerpt",
        get parsed "content", get parsed "meta_title", get parsed "meta_description",
        get parsed "tags" with
  | Some t, Some st, Some sl, Some ex, Some c, Some mt, Some md, Some tg =>
      match slug_of sl t with
      | Some slug => Some (mkGeneratedBlogPost t st slug ex c mt md (or_default tg (JArr [])))
      | None => None
      end
  | _, _, _, _, _, _, _, _ => None
  end.

(** [dream.characters.join(', ')] in [generateDreamBlogPost]'s prompt: only
    arrays have [join], which converts each entry to a string. *)
Definition characters_prompt_ok (characters : json) : bool :=
  match characters with
  | JArr _ => str_ok (Some characters)
  | _ => false
  end.

End Build.

(* ------------------------------------------------------------------------- *)
(** ** [validateCategoryFit]: category table and verdict (blogGenerator.ts) *)

Module Category.
Import Json.

(** A property read [STRICT_CATEGORY_DEFINITIONS[key]] on a plain object
    literal: an own category definition (given by its [name]), a property
    inherited from [Object.prototype] (a function, or the prototype itself
    for [__proto__]: truthy, without [MUST_INCLUDE]), or [undefined]. *)
Inductive lookup_result := Own (name : string) | Inherited | Missing.

Definition own_categories : list (string * string) :=
  [("dream-stories", "Dream Stories"); ("dream-science", "Dream Science");
   ("sleep-tips", "Sleep Tips"); ("symbolism", "Dream Symbolism")].

Definition object_prototype_keys : list string :=
  ["constructor"; "__defineGetter__"; "__defineSetter__"; "hasOwnProperty";
   "__lookupGetter__"; "__lookupSetter__"; "isPrototypeOf"; "propertyIsEnumerable";
   "toString"; "valueOf"; "__proto__"; "toLocaleString"].

Definition STRICT_CATEGORY_DEFINITIONS (key : string) : lookup_result :=
  match find (fun kv => String.eqb (fst kv) key) own_categories with
  | Some (_, name) => Own name
  | None => if existsb (String.eqb key) object_prototype_keys then Inherited else Missing
  end.

Record Verdict := mkVerdict {
  isValid : option json;
  suggestedCategory : option json;
  reason : option json
}.

(** [{ isValid: true }] *)
Definition valid_verdict : Verdict := mkVerdict (Some (JBool true)) None None.

Definition confidence_threshold : Q := 7 # 10.

(** [v > 0.7]; [None] is the [TypeError] of converting [v]. *)
Definition exceeds_threshold (v : option json) : option bool :=
  option_map (fun n => js_gt n confidence_threshold) (to_number v).

(** [a && c > 0.7]: [c] is only converted when [a] is truthy. *)
Definition js_and (a c : option json) : option (option json) :=
  if truthy a then option_map (fun b => Some (JBool b)) (exceeds_threshold c) else Some a.

(** The verdict built from the parsed [result]; [None] is a [TypeError]
    (reading from [null], or converting the confidence), caught by the
    [catch] of [validateCategoryFit].
<<
  return { isValid: result.isValid && result.confidence > 0.7,
           suggestedCategory: result.suggestedCategory, reason: result.reason };
>> *)
Definition verdict_of (result : json) : option Verdict :=
  match get result "isValid", get result "confidence", get result "suggestedCategory",
        get result "reason" with
  | Some iv, Some c, Some sc, Some rs =>
      match js_and iv c with
      | Some v => Some (mkVerdict v sc rs)
      | None => None
      end
  | _, _, _, _ => None
  end.

(** The warning logged by [generateEducationalPost] on a rejected verdict,
    [${validation.suggestedCategory} ... ${validation.reason}], does not
    throw. *)
Definition warning_ok (v : Verdict) : bool :=
  truthy (isValid v) || (str_ok (suggestedCategory v) && str_ok (reason v)).

End Category.

(* ------------------------------------------------------------------------- *)
(** ** The effects: a state and exception monad over the world the code sees *)

Module Effects.
Import Json.

Inductive exn :=
| TypeError
| SyntaxError
| ServiceError
| NoTextResponse
| ParseFailure
| DbError.

(** One reply of [anthropic.messages.create]: a rejected call, a response
    without a text block, or a text block, given by what [JSON.parse] makes
    of it once code fences are stripped ([None]: it throws). *)
Inductive reply :=
| R_throw
| R_notext
| R_text (parsed : option json).

(** The output of the Historical Content Index for one query: the
    de-duplicated lower-cased terms extracted from recent posts. *)
Record history := mkHistory {
  h_settings : list string;
  h_themes : list string;
  h_symbols : list string;
  h_titles : list string;
  h_topics : list string
}.

Definition empty_history : history := mkHistory [] [] [] [] [].

Inductive kind := DreamKind | EducationalKind.

(** A row inserted into [blog_posts]; [row_slug] is the slug before the
    [- + Date.now()] suffix is appended. *)
Record row := mkRow {
  row_slug : json;
  row_title : option json;
  row_category : string;
  row_generation_type : string
}.

Inductive event :=
| Ev_service
| Ev_validate (category : string)
| Ev_start (k : kind)
| Ev_insert (r : row)
| Ev_done (k : kind) (ok : bool).

(** The world: the replies the external services will give (in call order),
    the draws of [Math.random()], the trace of observable events, the
    registered cron jobs and the scheduler's module-level variables. *)
Record world := mkWorld {
  w_svc : list reply;
  w_db : list (option history);
  w_writes : list bool;
  w_rand : list Q;
  w_events : list event;
  w_jobs : list string;
  w_eveningPostIsDream : bool;
  w_categoryIndex : nat
}.

Inductive res (A : Type) := Ok (a : A) | Err (e : exn).
Arguments Ok {A} a.
Arguments Err {A} e.

Definition M (A : Type) := world -> res A * world.

Definition ret {A} (a : A) : M A := fun w => (Ok a, w).

Definition bind {A B} (m : M A) (f : A -> M B) : M B :=
  fun w => match m w with
           | (Ok a, w') => f a w'
           | (Err e, w') => (Err e, w')
           end.

Definition raise {A} (e : exn) : M A := fun w => (Err e, w).

(** [try { m } catch (e) { h(e) }] *)
Definition try_catch {A} (m : M A) (h : exn -> M A) : M A :=
  fun w => match m w with
           | (Ok a, w') => (Ok a, w')
           | (Err e, w') => h e w'
           end.

Notation "x <- m ;; k" := (bind m (fun x => k))
  (at level 61, m at next level, right associativity).

(** A property read or method call that may throw a [TypeError]. *)
Definition lift {A} (o : option A) : M A :=
  match o with
  | Some a => ret a
  | None => raise TypeError
  end.

Definition emit (e : event) : M unit :=
  fun w => (Ok tt,
            mkWorld (w_svc w) (w_db w) (w_writes w) (w_rand w) (w_events w ++ [e])
                    (w_jobs w) (w_eveningPostIsDream w) (w_categoryIndex w)).

(** [await anthropic.messages.create(...)]; a rejected call throws. *)
Definition service : M reply :=
  _ <- emit Ev_service ;;
  fun w =>
    match w_svc w with
    | [] => (Err ServiceError, w)
    | rp :: rest =>
        let w' := mkWorld rest (w_db w) (w_writes w) (w_rand w) (w_events w)
                          (w_jobs w) (w_eveningPostIsDream w) (w_categoryIndex w) in
        match rp with
        | R_throw => (Err ServiceError, w')
        | _ => (Ok rp, w')
        end
    end.

(** The lines after the call in the generation stages:
<<
  if (!textContent || textContent.type !== 'text') throw new Error('No text response from Claude');
  ... const parsed = JSON.parse(responseText);
>> *)
Definition text_json (rp : reply) : M json :=
  match rp with
  | R_throw => raise ServiceError
  | R_notext => raise NoTextResponse
  | R_text None => raise SyntaxError
  | R_text (Some j) => ret j
  end.

(** A read of recent posts; the helpers catch every storage error and fall
    back to empty lists. *)
Definition db_history : M history :=
  fun w =>
    let w' := fun rest => mkWorld (w_svc w) rest (w_writes w) (w_rand w) (w_events w)
                                  (w_jobs w) (w_eveningPostIsDream w) (w_categoryIndex w) in
    match w_db w with
    | [] => (Ok empty_history, w)
    | Some h :: rest => (Ok h, w' rest)
    | None :: rest => (Ok empty_history, w' rest)
    end.

(** [supabaseAdmin.from('blog_posts').insert(row).select().single()]:
    the insert is issued; the result says whether [error] is unset. *)
Definition insert (r : row) : M bool :=
  _ <- emit (Ev_insert r) ;;
  fun w =>
    match w_writes w with
    | [] => (Ok true, w)
    | ok :: rest =>
        (Ok ok, mkWorld (w_svc w) (w_db w) rest (w_rand w) (w_events w)
                        (w_jobs w) (w_eveningPostIsDream w) (w_categoryIndex w))
    end.

(** [Math.random()] *)
Definition random : M Q :=
  fun w =>
    match w_rand w with
    | [] => (Ok 0, w)
    | r :: rest =>
        (Ok r, mkWorld (w_svc w) (w_db w) (w_writes w) rest (w_events w)
                       (w_jobs w) (w_eveningPostIsDream w) (w_categoryIndex w))
    end.

Definition get_eveningPostIsDream : M bool := fun w => (Ok (w_eveningPostIsDream w), w).

Definition set_eveningPostIsDream (b : bool) : M unit :=
  fun w => (Ok tt, mkWorld (w_svc w) (w_db w) (w_writes w) (w_rand w) (w_events w)
                           (w_jobs w) b (w_categoryIndex w)).

Definition get_categoryIndex : M nat := fun w => (Ok (w_categoryIndex w), w).

Definition set_categoryIndex (n : nat) : M unit :=
  fun w => (Ok tt, mkWorld (w_svc w) (w_db w) (w_writes w) (w_rand w) (w_events w)
                           (w_jobs w) (w_eveningPostIsDream w) n).

Definition set_jobs (js : list string) : M unit :=
  fun w => (Ok tt, mkWorld (w_svc w) (w_db w) (w_writes w) (w_rand w) (w_events w)
                           js (w_eveningPostIsDream w) (w_categoryIndex w)).

Definition get_jobs : M (list string) := fun w => (Ok (w_jobs w), w).

End Effects.

(* ------------------------------------------------------------------------- *)
(** ** The generation pipeline (blogGenerator.ts, part_005) *)

Module Pipeline.
Import Json Build Analysis Category Effects.

(** [getRecentlyUsedDreamElements()] *)
Definition getRecentlyUsedDreamElements : M history := db_history.

(** [generateDream()] without an input: the setting and the theme are
    chosen by [selectFreshItem], the tone by [getRandomItem]; the prompt
    text is not modelled. *)
Definition generateDream : M GeneratedDream :=
  recentElements <- getRecentlyUsedDreamElements ;;
  r1 <- random ;;
  setting <- lift (Fresh.selectFreshItem Pools.DREAM_SETTINGS (h_settings recentElements) true r1) ;;
  r2 <- random ;;
  theme <- lift (Fresh.selectFreshItem Pools.DREAM_THEMES (h_themes recentElements) true r2) ;;
  r3 <- random ;;
  let emotion := Fresh.getRandomItem Pools.EMOTIONAL_TONES r3 in
  rp <- service ;;
  parsed <- text_json rp ;;
  lift (dream_of parsed).

(** [${tags.length > 0 ? tags.join(', ') : 'None provided'}] in
    [analyzeDream]'s message does not throw.  An array is joined (each entry
    converted to a string); a string has a length but no [join]; numbers and
    booleans have no [length] ([NaN > 0] is false); for an object, its
    [length] property is converted to a number, and when it exceeds 0 the
    missing [join] is called; [null] has no properties. *)
Definition tags_join_ok (tags : json) : bool :=
  match tags with
  | JNull => false
  | JArr _ => str_ok (Some tags)
  | JStr s => String.eqb s ""
  | JBool _ | JNum _ => true
  | JObj _ =>
      match get tags "length" with
      | Some l =>
          match to_number l with
          | Some n => negb (js_gt n 0)
          | None => false
          end
      | None => false
      end
  end.

(** The user message of [analyzeDream] is built without a [TypeError]:
    [${content}], [${mood}] and the tags. *)
Definition message_ok (content mood : option json) (tags : json) : bool :=
  str_ok content && str_ok mood && tags_join_ok tags.

(** [analyzeDream(content, mood, isLucid, tags)] *)
Definition analyzeDream (content mood : option json) (isLucid tags : json) : M DreamAnalysis :=
  _ <- (if message_ok content mood tags then ret tt else raise TypeError) ;;
  rp <- service ;;
  match rp with
  | R_notext => raise NoTextResponse
  | _ =>
      try_catch
        (parsed <- text_json rp ;;
         lift (parse_analysis parsed))
        (fun _ => raise ParseFailure)
  end.

(** The prompt of [generateDreamBlogPost] is built without a [TypeError]:
    [${dream.title}], [${dream.content}], [${dream.mood}],
    [${dream.setting}], [dream.characters.join(', ')],
    [${analysis.interpretation}], [analysis.themes.join(', ')] and
    [${analysis.advice}] ([JSON.stringify] of the symbols and emotions of
    a parsed response does not throw). *)
Definition blog_prompt_ok (dream : GeneratedDream) (analysis : DreamAnalysis) : bool :=
  str_ok (gd_title dream) && str_ok (gd_content dream) && str_ok (gd_mood dream) &&
  str_ok (gd_setting dream) && characters_prompt_ok (gd_characters dream) &&
  str_ok (Some (interpretation analysis)) && str_ok (Some (JArr (themes analysis))) &&
  str_ok (Some (advice analysis)).

(** [generateDreamBlogPost(dream, analysis)] *)
Definition generateDreamBlogPost (dream : GeneratedDream) (analysis : DreamAnalysis)
  : M GeneratedBlogPost :=
  _ <- (if blog_prompt_ok dream analysis then ret tt else raise TypeError) ;;
  rp <- service ;;
  parsed <- text_json rp ;;
  lift (post_of parsed).

(** [generateFullDreamPost()] *)
Definition generateFullDreamPost : M (GeneratedDream * DreamAnalysis * GeneratedBlogPost) :=
  dream <- generateDream ;;
  analysis <- analyzeDream (gd_content dream) (gd_mood dream) (gd_isLucid dream) (gd_tags dream) ;;
  blogPost <- generateDreamBlogPost dream analysis ;;
  ret (dream, analysis, blogPost).

(** [validateCategoryFit(content, title, intendedCategory)]; the call is
    recorded by [Ev_validate].  The prompt reads [categoryDef.MUST_INCLUDE.join]
    and [content.substring(0, 1500)] before the [try] block.  [${title}] is
    not modelled: [title] is declared a [string], and the one caller,
    [generateEducationalPost], has already converted the same value in its
    log line. *)
Definition validateCategoryFit (content title : option json) (intendedCategory : string)
  : M Verdict :=
  _ <- emit (Ev_validate intendedCategory) ;;
  match STRICT_CATEGORY_DEFINITIONS intendedCategory with
  | Missing => ret valid_verdict
  | Inherited => raise TypeError
  | Own _ =>
      match content with
      | Some (JStr _) =>
          try_catch
            (rp <- service ;;
             match rp with
             | R_notext => ret valid_verdict
             | _ =>
                 result <- text_json rp ;;
                 lift (verdict_of result)
             end)
            (fun _ => ret valid_verdict)
      | _ => raise TypeError
      end
  end.

(** [getExistingContentByCategory(category)] *)
Definition getExistingContentByCategory (category : string) : M history := db_history.

(** [generateEducationalPost({ topic, category })]; the topic only enters
    the prompt.  [categoryDef.name.toUpperCase()] and
    [categoryDef.MUST_INCLUDE.map] throw unless the category is an own entry.
    The log line before the validation converts [${result.title}]; on a
    rejected verdict the warning converts [${validation.suggestedCategory}]
    and [${validation.reason}]. *)
Definition generateEducationalPost (category : string) : M GeneratedBlogPost :=
  existingContent <- getExistingContentByCategory category ;;
  _ <- (match STRICT_CATEGORY_DEFINITIONS category with
        | Own _ => ret tt
        | _ => raise TypeError
        end) ;;
  rp <- service ;;
  parsed <- text_json rp ;;
  result <- lift (post_of parsed) ;;
  _ <- (if str_ok (bp_title result) then ret tt else raise TypeError) ;;
  validation <- validateCategoryFit (bp_content result) (bp_title result) category ;;
  _ <- (if warning_ok validation then ret tt else raise TypeError) ;;
  ret result.

(** [getUsedTopics(category)]: titles and tags of recent posts. *)
Definition getUsedTopics (category : string) : M (list string) :=
  h <- db_history ;;
  ret (h_titles h ++ h_topics h).

(** [getRandomEducationalTopic(category)].  [Math.random()] is drawn only
    when some topic is fresh; the fallback [scoredTopics[0]] does not read
    the draw given to [pickEducationalTopic]. *)
Definition getRandomEducationalTopic (category : Pools.EduCategory) : M string :=
  usedTopics <- getUsedTopics (Pools.edu_category_name category) ;;
  let allTopics := Pools.EDUCATIONAL_TOPICS category in
  let freshTopics := filter (fun t => Fresh.Qlt_bool (snd t) Fresh.topic_threshold)
                            (Fresh.scoreTopics allTopics usedTopics) in
  match freshTopics with
  | _ :: _ =>
      r <- random ;;
      lift (Fresh.pickEducationalTopic allTopics usedTopics r)
  | [] => lift (Fresh.pickEducationalTopic allTopics usedTopics 0)
  end.

End Pipeline.

(* ------------------------------------------------------------------------- *)
(** ** The scheduler (blogScheduler.ts) *)

Module Scheduler.
Import Json Build Effects Pipeline.

Definition educationalCategories : list string := ["dream-science"; "sleep-tips"; "symbolism"].

(** [getNextEducationalCategory()]; [currentCategoryIndex] starts at 0 and
    only takes the values [(i + 1) % 3], so the read is in range. *)
Definition getNextEducationalCategory : M string :=
  currentCategoryIndex <- get_categoryIndex ;;
  let category := nth currentCategoryIndex educationalCategories "dream-science" in
  _ <- set_categoryIndex ((currentCategoryIndex + 1) mod length educationalCategories) ;;
  ret category.

Definition post_row (blogPost : GeneratedBlogPost) (category generation_type : string) : row :=
  mkRow (bp_slug blogPost) (bp_title blogPost) category generation_type.

(** [generateDreamPost()] *)
Definition generateDreamPost : M unit :=
  _ <- emit (Ev_start DreamKind) ;;
  try_catch
    (p <- generateFullDreamPost ;;
     let '(dream, analysis, blogPost) := p in
     ok <- insert (post_row blogPost "dream-stories" "ai-dream") ;;
     if ok then emit (Ev_done DreamKind true) else raise DbError)
    (fun _ => emit (Ev_done DreamKind false)).

(** [generateEducationalContent()].  [getRandomEducationalTopic(category)]
    is called without [await]: [topic] is a pending promise that only enters
    the prompt; the detached call catches its own storage errors and its
    result is never used, so it is not part of the firing. *)
Definition generateEducationalContent : M unit :=
  category <- getNextEducationalCategory ;;
  _ <- emit (Ev_start EducationalKind) ;;
  try_catch
    (blogPost <- generateEducationalPost category ;;
     ok <- insert (post_row blogPost category "ai-educational") ;;
     if ok then emit (Ev_done EducationalKind true) else raise DbError)
    (fun _ => emit (Ev_done EducationalKind false)).

(** [generateEveningPost()] *)
Definition generateEveningPost : M unit :=
  eveningPostIsDream <- get_eveningPostIsDream ;;
  _ <- (if eveningPostIsDream then generateDreamPost else generateEducationalContent) ;;
  current <- get_eveningPostIsDream ;;
  set_eveningPostIsDream (negb current).

(** [scheduledJobs.set(name, job)] on a [Map]: insertion order is kept. *)
Definition map_set (jobs : list string) (name : string) : list string :=
  if existsb (String.eqb name) jobs then jobs else jobs ++ [name].

(** [startBlogScheduler()] *)
Definition startBlogScheduler : M unit :=
  jobs <- get_jobs ;;
  set_jobs (map_set (map_set jobs "morningDream") "eveningPost").

(** [stopBlogScheduler()] *)
Definition stopBlogScheduler : M unit := set_jobs [].

(** The cron callback of a registered job, run to completion. *)
Definition fire (job : string) : M unit :=
  if String.eqb job "morningDream" then generateDreamPost
  else if String.eqb job "eveningPost" then generateEveningPost
  else ret tt.

(** [n] consecutive firings of the evening job. *)
Fixpoint eveningFirings (n : nat) : M unit :=
  match n with
  | O => ret tt
  | S n' => _ <- generateEveningPost ;; eveningFirings n'
  end.

(** The content types of the firings recorded in a trace. *)
Definition started (evs : list event) : list kind :=
  flat_map (fun e => match e with Ev_start k => [k] | _ => [] end) evs.

Definition inserts (evs : list event) : list row :=
  flat_map (fun e => match e with Ev_insert r => [r] | _ => [] end) evs.

Definition validations (evs : list event) : list string :=
  flat_map (fun e => match e with Ev_validate c => [c] | _ => [] end) evs.

End Scheduler.

(* ------------------------------------------------------------------------- *)
(** ** Auxiliary notions used in the statements *)

Module Notions.
Import Str Json Effects Scheduler.

(** A character a slug may contain: [a-z], [0-9] or [-]. *)
Definition slug_char (c : ascii) : bool := is_lower_alnum c || Ascii.eqb c hyphen.

Fixpoint no_double_hyphen (l : list ascii) : bool :=
  match l with
  | a :: ((b :: _) as t) => negb (Ascii.eqb a hyphen && Ascii.eqb b hyphen) && no_double_hyphen t
  | _ => true
  end.

Definition starts_with_hyphen (s : string) : bool :=
  match list_ascii_of_string s with
  | c :: _ => Ascii.eqb c hyphen
  | [] => false
  end.

(** The similarity [selectFreshItem] computes for candidate [y]. *)
Definition candidate_similarity (recentlyUsed : list string) (y : string) : Q :=
  Fresh.item_similarity y (map Fresh.lower recentlyUsed).

(** The content types [n] strictly alternating firings produce, starting
    with a dream post when [dream] holds. *)
Fixpoint alternating (n : nat) (dream : bool) : list kind :=
  match n with
  | O => []
  | S n' => (if dream then DreamKind else EducationalKind) :: alternating n' (negb dream)
  end.

(** The world in which [generateDreamPost] runs its pipeline. *)
Definition dream_stage_world (w : world) : world := snd (emit (Ev_start DreamKind) w).

(** The category and the world with which [generateEducationalContent]
    runs its pipeline. *)
Definition edu_stage_category (w : world) : string := fst (
  match getNextEducationalCategory w with
  | (Ok c, _) => (c, tt)
  | (Err _, _) => ("", tt)
  end).

Definition edu_stage_world (w : world) : world :=
  snd ((_ <- getNextEducationalCategory ;; emit (Ev_start EducationalKind)) w).

Definition is_err {A} (r : res A) : bool :=
  match r with Err _ => true | Ok _ => false end.

(** The firing of cron job [job] in world [w] reaches a generation stage
    that throws: the dream pipeline (the morning job, or the evening job
    when the flag says dream) or the educational pipeline (the evening job
    otherwise), run where the firing runs it. *)
Definition firing_stage_fails (job : string) (w : world) : bool :=
  if String.eqb job "morningDream" || (String.eqb job "eveningPost" && w_eveningPostIsDream w)
  then is_err (fst (Pipeline.generateFullDreamPost (dream_stage_world w)))
  else if String.eqb job "eveningPost"
  then is_err (fst (Pipeline.generateEducationalPost (edu_stage_category w) (edu_stage_world w)))
  else false.

(** A parsed analysis whose shape the defaulting code accepts: not [null],
    and [symbols] and [emotions] each falsy or an array without [null]. *)
Definition entries_ok (v : option json) : bool :=
  match or_default v (JArr []) with
  | JArr l => forallb (fun x => match x with JNull => false | _ => true end) l
  | _ => false
  end.

Definition analysis_shape_ok (parsed : json) : bool :=
  match get parsed "symbols", get parsed "emotions" with
  | Some s, Some e => entries_ok s && entries_ok e
  | _, _ => false
  end.

(** The entries [(v || [])] that [analyzeDream] maps over. *)
Definition entries (v : option (option json)) : list json :=
  match v with
  | Some o => match or_default o (JArr []) with JArr l => l | _ => [] end
  | None => []
  end.

(** What the defaulting code of [analyzeDream] guarantees about the
    analysis [a] built from the parsed response [parsed]: falsy fields get
    their defaults, significances are one of the three tiers (any other
    value becomes ["medium"]), intensities lie in [0, 100] (a non-number
    becomes 50). *)
Definition analysis_defaults (parsed : json) (a : Analysis.DreamAnalysis) : Prop :=
  (forall v, get parsed "interpretation" = Some v -> truthy v = false ->
     Analysis.interpretation a = JStr "Unable to generate interpretation.") /\
  (forall v, get parsed "themes" = Some v -> (forall l, v <> Some (JArr l)) ->
     Analysis.themes a = []) /\
  (forall v, get parsed "advice" = Some v -> truthy v = false -> Analysis.advice a = JStr "") /\
  Forall2 (fun j s =>
     (forall v, get j "name" = Some v -> truthy v = false ->
        Analysis.sym_name s = JStr "Unknown") /\
     (forall v, get j "meaning" = Some v -> truthy v = false ->
        Analysis.sym_meaning s = JStr "") /\
     (Analysis.sym_significance s = JStr "high" \/ Analysis.sym_significance s = JStr "medium" \/
      Analysis.sym_significance s = JStr "low") /\
     (forall v, get j "significance" = Some v ->
        ~ In v [Some (JStr "high"); Some (JStr "medium"); Some (JStr "low")] ->
        Analysis.sym_significance s = JStr "medium"))
    (entries (get parsed "symbols")) (Analysis.symbols a) /\
  Forall2 (fun j e =>
     (forall v, get j "name" = Some v -> truthy v = false ->
        Analysis.emo_name e = JStr "Unknown") /\
     (forall v, get j "color" = Some v -> truthy v = false ->
        Analysis.emo_color e = JStr "#8b5cf6") /\
     (0 <= Analysis.emo_intensity e /\ Analysis.emo_intensity e <= 100) /\
     (forall v, get j "intensity" = Some v -> (forall q, v <> Some (JNum q)) ->
        Analysis.emo_intensity e = 50))
    (entries (get parsed "emotions")) (Analysis.emotions a).

(** The next service reply, when it parses to an object, has a
    [suggestedCategory] and a [reason] that convert to strings (the two
    values interpolated in the warning of [generateEducationalPost]). *)
Definition reply_fields_ok (rps : list reply) : bool :=
  match rps with
  | R_text (Some r) :: _ =>
      match get r "suggestedCategory", get r "reason" with
      | Some sc, Some rs => str_ok sc && str_ok rs
      | _, _ => true
      end
  | _ => true
  end.


End Notions.

(* ------------------------------------------------------------------------- *)
(** ** [getSchedulerStatus] (blogScheduler.ts) *)

Module Status.
Import Effects Scheduler.

Record JobInfo := mkJobInfo { job_name : string; job_schedule : string }.

Record SchedulerStatus := mkSchedulerStatus { running : bool; jobs : list JobInfo }.

(** [getSchedulerStatus()]: [scheduledJobs.has(name)] and [scheduledJobs.size]. *)
Definition getSchedulerStatus : M SchedulerStatus :=
  scheduledJobs <- get_jobs ;;
  let jobs :=
    (if existsb (String.eqb "morningDream") scheduledJobs
     then [mkJobInfo "Morning Dream Post" "9:00 AM Eastern / 2:00 PM UTC daily"] else []) ++
    (if existsb (String.eqb "eveningPost") scheduledJobs
     then [mkJobInfo "Evening Post (alternating)" "6:00 PM Eastern / 11:00 PM UTC daily"]
     else []) in
  ret (mkSchedulerStatus (Nat.ltb 0 (length scheduledJobs)) jobs).

End Status.

(* ------------------------------------------------------------------------- *)
(** ** The processing of recent posts (blogGenerator.ts)

    The bodies of [getUsedTopics], [getRecentlyUsedDreamElements] and
    [getExistingContentByCategory] after the query: [data] is the array of
    rows returned, [None] when [error] is set or [posts] is [null].  A row
    whose processing throws makes the whole loop throw, and the [catch]
    returns empty lists. *)

Module Rows.
Import Json.

(** [v.toLowerCase()]: only strings have the method. *)
Definition js_toLowerCase (v : option json) : option string :=
  match v with
  | Some (JStr s) => Some (Fresh.lower s)
  | _ => None
  end.

(** [[...new Set(xs)]]: the distinct values in order of first occurrence. *)
Fixpoint set_values_aux (seen xs : list string) : list string :=
  match xs with
  | [] => []
  | x :: xs' =>
      if existsb (String.eqb x) seen then set_values_aux seen xs'
      else x :: set_values_aux (x :: seen) xs'
  end.

Definition set_values (xs : list string) : list string := set_values_aux [] xs.

(** [if (v) push(v.toLowerCase())]; the outer [None] is a [TypeError]. *)
Definition push_lower_if (v : option (option json)) : option (list string) :=
  match v with
  | None => None
  | Some x => if truthy x then option_map (fun s => [s]) (js_toLowerCase x) else Some []
  end.

(** [if (v) push(...v.map(f))]: only arrays have [map]. *)
Definition push_map_if (f : json -> option string) (v : option (option json)) : option (list string) :=
  match v with
  | None => None
  | Some x =>
      if truthy x then
        match x with
        | Some (JArr l) => Analysis.map_opt f l
        | _ => None
        end
      else Some []
  end.

(** [t => t.toLowerCase()] *)
Definition lower_item (t : json) : option string := js_toLowerCase (Some t).

(** [s => s.name.toLowerCase()] *)
Definition lower_name (s : json) : option string :=
  match get s "name" with
  | Some n => js_toLowerCase n
  | None => None
  end.

(** The symbols and themes of [post.dream_analysis], when it is truthy. *)
Definition analysis_terms (da : option json) : option (list string * list string) :=
  if truthy da then
    match da with
    | Some a =>
        match push_map_if lower_name (get a "symbols"), push_map_if lower_item (get a "themes") with
        | Some sy, Some th => Some (sy, th)
        | _, _ => None
        end
    | None => None
    end
  else Some ([], []).

(** [getUsedTopics]: one iteration of the loop. *)
Definition used_topics_of_post (post : json) : option (list string) :=
  match get post "title" with
  | None => None
  | Some title =>
      match js_toLowerCase title, push_map_if lower_item (get post "tags") with
      | Some t, Some tags => Some (t :: tags)
      | _, _ => None
      end
  end.

Definition getUsedTopics (data : option (list json)) : list string :=
  match data with
  | None => []
  | Some posts =>
      match Analysis.map_opt used_topics_of_post posts with
      | Some ls => set_values (concat ls)
      | None => []
      end
  end.

Record DreamElements := mkDreamElements {
  de_settings : list string;
  de_themes : list string;
  de_symbols : list string
}.

Definition no_dream_elements : DreamElements := mkDreamElements [] [] [].

(** [getRecentlyUsedDreamElements]: one iteration of the loop, as the
    settings, themes and symbols it pushes. *)
Definition dream_elements_of_post (post : json)
  : option (list string * list string * list string) :=
  match get post "generated_dream", get post "dream_analysis", get post "tags" with
  | Some gd, Some da, Some tags =>
      match (if truthy gd then
               match gd with
               | Some d =>
                   match push_lower_if (get d "setting"), push_lower_if (get d "emotionalTone") with
                   | Some st, Some tone => Some (st, tone)
                   | _, _ => None
                   end
               | None => None
               end
             else Some ([], [])),
            analysis_terms da,
            push_map_if lower_item (Some tags) with
      | Some (st, tone), Some (sy, th), Some tg => Some (st, tone ++ th ++ tg, sy)
      | _, _, _ => None
      end
  | _, _, _ => None
  end.

Definition getRecentlyUsedDreamElements (data : option (list json)) : DreamElements :=
  match data with
  | None => no_dream_elements
  | Some posts =>
      match Analysis.map_opt dream_elements_of_post posts with
      | Some ls =>
          mkDreamElements (set_values (concat (map (fun p => fst (fst p)) ls)))
                          (set_values (concat (map (fun p => snd (fst p)) ls)))
                          (set_values (concat (map snd ls)))
      | None => no_dream_elements
      end
  end.

Record ExistingContent := mkExistingContent {
  ec_titles : list string;
  ec_topics : list string;
  ec_symbols : list string;
  ec_themes : list string
}.

Definition no_existing_content : ExistingContent := mkExistingContent [] [] [] [].

(** [if (post.tags && Array.isArray(post.tags)) topics.push(...post.tags.map(...))] *)
Definition array_tags (v : option (option json)) : option (list string) :=
  match v with
  | None => None
  | Some (Some (JArr l)) => Analysis.map_opt lower_item l
  | Some _ => Some []
  end.

(** [getExistingContentByCategory]: one iteration of the loop, as the
    titles, topics, symbols and themes it pushes. *)
Definition existing_of_post (post : json)
  : option (string * list string * list string * list string) :=
  match get post "title", get post "dream_analysis" with
  | Some title, Some da =>
      match js_toLowerCase title, array_tags (get post "tags"), analysis_terms da with
      | Some t, Some tp, Some (sy, th) => Some (t, tp, sy, th)
      | _, _, _ => None
      end
  | _, _ => None
  end.

Definition getExistingContentByCategory (data : option (list json)) : ExistingContent :=
  match data with
  | None => no_existing_content
  | Some posts =>
      match Analysis.map_opt existing_of_post posts with
      | Some ls =>
          mkExistingContent (set_values (map (fun p => fst (fst (fst p))) ls))
                            (set_values (concat (map (fun p => snd (fst (fst p))) ls)))
                            (set_values (concat (map (fun p => snd (fst p)) ls)))
                            (set_values (concat (map snd ls)))
      | None => no_existing_content
      end
  end.

End Rows.

(* ------------------------------------------------------------------------- *)
(** ** Auxiliary notions for the further properties *)

Module Invariants.
Import Effects.

(** Every pending draw of [Math.random()] lies in [0, 1). *)
Definition draws_ok (w : world) : Prop := Forall (fun r => 0 <= r /\ r < 1) (w_rand w).

(** [m] leaves [currentCategoryIndex] as it is. *)
Definition keeps_index {A} (m : M A) : Prop :=
  forall w, w_categoryIndex (snd (m w)) = w_categoryIndex w.

(** [s.toLowerCase() === s] *)
Definition is_lower (s : string) : Prop := Fresh.lower s = s.

(** A list of distinct lowercase strings. *)
Definition ok_list (xs : list string) : Prop := NoDup xs /\ Forall is_lower xs.

End Invariants.

(* ========================================================================= *)
(** * Proofs *)

Module SlugFacts.
Import Str Slug Notions.
Local Open Scope nat_scope.

Lemma lower_char_slug_char c : slug_char c = true -> lower_char c = c.
Proof. destruct c as [[] [] [] [] [] [] [] []]; vm_compute; congruence. Qed.

Lemma slug_char_not_ws c : slug_char c = true -> is_ws c = false.
Proof. destruct c as [[] [] [] [] [] [] [] []]; vm_compute; congruence. Qed.

Lemma slug_char_kept c : slug_char c = true ->
  is_lower_alnum c || is_ws c || Ascii.eqb c hyphen = true.
Proof. destruct c as [[] [] [] [] [] [] [] []]; vm_compute; congruence. Qed.

Lemma kept_slug_char c : is_ws c = false ->
  is_lower_alnum c || is_ws c || Ascii.eqb c hyphen = true -> slug_char c = true.
Proof. destruct c as [[] [] [] [] [] [] [] []]; vm_compute; congruence. Qed.

Lemma hyphen_slug_char : slug_char hyphen = true.
Proof. reflexivity. Qed.

Lemma strip_disallowed_kept s :
  Forall (fun c => is_lower_alnum c || is_ws c || Ascii.eqb c hyphen = true) (strip_disallowed s).
Proof. apply Forall_forall. intros c Hc. unfold strip_disallowed in Hc. apply filter_In in Hc. tauto. Qed.

Lemma ws_to_hyphen_slug_chars b s :
  Forall (fun c => is_lower_alnum c || is_ws c || Ascii.eqb c hyphen = true) s ->
  Forall (fun c => slug_char c = true) (ws_to_hyphen_aux b s).
Proof.
  revert b; induction s as [|c s IH]; intros b H; simpl; [constructor|].
  inversion H as [|? ? Hc Hs]; subst.
  destruct (is_ws c) eqn:Hw; [destruct b|].
  - now apply IH.
  - constructor; [reflexivity | now apply IH].
  - constructor; [apply kept_slug_char; [exact Hw | rewrite Hw; exact Hc] | now apply IH].
Qed.

Lemma collapse_subset b s c : In c (collapse_hyphens_aux b s) -> In c s.
Proof.
  revert b; induction s as [|d s IH]; intros b H; simpl in *; [tauto|].
  destruct (Ascii.eqb d hyphen); [destruct b|]; simpl in H;
    firstorder eauto.
Qed.

Lemma no_double_hyphen_cons2 a b t :
  no_double_hyphen (a :: b :: t) =
  negb (Ascii.eqb a hyphen && Ascii.eqb b hyphen) && no_double_hyphen (b :: t).
Proof. reflexivity. Qed.

Lemma collapse_no_double_hyphen b s :
  no_double_hyphen (collapse_hyphens_aux b s) = true /\
  (b = true -> match collapse_hyphens_aux b s with c :: _ => Ascii.eqb c hyphen = false | [] => True end).
Proof.
  revert b; induction s as [|d s IH]; intros b; simpl; [split; auto|].
  destruct (Ascii.eqb d hyphen) eqn:Hd.
  - destruct b.
    + apply IH.
    + destruct (IH true) as [H1 H2]. split; [|discriminate].
      specialize (H2 eq_refl).
      destruct (collapse_hyphens_aux true s) as [|e t]; [reflexivity|].
      rewrite no_double_hyphen_cons2, Hd, H2. exact H1.
  - destruct (IH false) as [H1 _]. split.
    + destruct (collapse_hyphens_aux false s) as [|e t]; [reflexivity|].
      simpl. rewrite Hd. simpl. exact H1.
    + intros _. exact Hd.
Qed.

Lemma no_double_hyphen_firstn n l :
  no_double_hyphen l = true -> no_double_hyphen (firstn n l) = true.
Proof.
  revert l; induction n as [|n IH]; intros l H; [reflexivity|].
  destruct l as [|a l]; [reflexivity|].
  simpl firstn. destruct l as [|b l]; [destruct n; reflexivity|].
  destruct n as [|n]; [reflexivity|].
  simpl in H |- *. apply andb_prop in H as [H1 H2].
  rewrite H1. simpl. specialize (IH (b :: l) H2). simpl in IH. exact IH.
Qed.

Lemma in_firstn {A} n (l : list A) x : In x (firstn n l) -> In x l.
Proof. intros H. rewrite <- (firstn_skipn n l). apply in_or_app. now left. Qed.

Lemma slug_chars_allowed t : Forall (fun c => slug_char c = true) (slug_chars t).
Proof.
  unfold slug_chars. apply Forall_forall. intros c Hc.
  apply in_firstn, collapse_subset in Hc.
  unfold ws_to_hyphen in Hc.
  exact (proj1 (Forall_forall _ _) (ws_to_hyphen_slug_chars false _ (strip_disallowed_kept _)) c Hc).
Qed.

Lemma slug_chars_no_double_hyphen t : no_double_hyphen (slug_chars t) = true.
Proof. unfold slug_chars. apply no_double_hyphen_firstn, collapse_no_double_hyphen. Qed.

Lemma slug_chars_length t : length (slug_chars t) <= 60.
Proof. unfold slug_chars. apply firstn_le_length. Qed.

(** A list of slug characters is a fixed point of every step. *)
Lemma toLowerCase_fix s : Forall (fun c => slug_char c = true) s -> toLowerCase s = s.
Proof.
  induction 1 as [|c s Hc _ IH]; [reflexivity|].
  simpl. rewrite lower_char_slug_char by exact Hc. now f_equal.
Qed.

Lemma strip_disallowed_fix s : Forall (fun c => slug_char c = true) s -> strip_disallowed s = s.
Proof.
  induction 1 as [|c s Hc _ IH]; [reflexivity|].
  unfold strip_disallowed in *. simpl. rewrite slug_char_kept by exact Hc. now f_equal.
Qed.

Lemma ws_to_hyphen_fix b s : Forall (fun c => slug_char c = true) s -> ws_to_hyphen_aux b s = s.
Proof.
  intros H; revert b; induction H as [|c s Hc _ IH]; intros b; [reflexivity|].
  simpl. rewrite slug_char_not_ws by exact Hc. now rewrite IH.
Qed.

Lemma collapse_fix b s :
  no_double_hyphen s = true ->
  (b = true -> match s with c :: _ => Ascii.eqb c hyphen = false | [] => True end) ->
  collapse_hyphens_aux b s = s.
Proof.
  revert b; induction s as [|c s IH]; intros b Hs Hb; [reflexivity|].
  simpl. destruct (Ascii.eqb c hyphen) eqn:Hc.
  - destruct b; [specialize (Hb eq_refl); congruence|].
    f_equal. apply IH.
    + destruct s; [reflexivity|]. simpl in Hs. apply andb_prop in Hs. tauto.
    + intros _. destruct s as [|d s]; [exact I|].
      simpl in Hs. rewrite Hc in Hs. simpl in Hs.
      destruct (Ascii.eqb d hyphen); [discriminate|reflexivity].
  - f_equal. apply IH; [|discriminate].
    destruct s; [reflexivity|]. simpl in Hs. apply andb_prop in Hs. tauto.
Qed.

Lemma slug_chars_idempotent t : slug_chars (slug_chars t) = slug_chars t.
Proof.
  pose proof (slug_chars_allowed t) as Ha.
  unfold slug_chars at 1.
  rewrite toLowerCase_fix, strip_disallowed_fix by exact Ha.
  unfold ws_to_hyphen. rewrite ws_to_hyphen_fix by exact Ha.
  unfold collapse_hyphens. rewrite collapse_fix by (apply slug_chars_no_double_hyphen || discriminate).
  apply firstn_all2, slug_chars_length.
Qed.

End SlugFacts.

Module SlugClaims.
Import Str Slug Json Build Notions SlugFacts Effects Pipeline.
Local Open Scope nat_scope.

Lemma string_length_list s : String.length s = length (list_ascii_of_string s).
Proof. induction s as [|c s IH]; simpl; congruence. Qed.

(** C3 (counterexample): a title starting with punctuation and a space
    yields a slug with a leading hyphen. *)
Lemma generateSlug_leading_hyphen :
  generateSlug "... And Then I Woke Up" = "-and-then-i-woke-up" /\
  starts_with_hyphen (generateSlug "... And Then I Woke Up") = true.
Proof. split; vm_compute; reflexivity. Qed.

(** C3 (amended): [generateSlug] is a function of the title and is
    idempotent; its output consists of [a-z], [0-9] and [-] only, has no two
    consecutive hyphens and at most 60 characters (a leading or trailing
    hyphen is possible). *)
Theorem generateSlug_idempotent_charset (title : string) :
  (forall title', title' = title -> generateSlug title' = generateSlug title) /\
  generateSlug (generateSlug title) = generateSlug title /\
  Forall (fun c => slug_char c = true) (list_ascii_of_string (generateSlug title)) /\
  no_double_hyphen (list_ascii_of_string (generateSlug title)) = true /\
  String.length (generateSlug title) <= 60.
Proof.
  unfold generateSlug. rewrite string_length_list, !list_ascii_of_string_of_list_ascii.
  split; [intros; now subst|].
  split; [now rewrite slug_chars_idempotent|].
  split; [apply slug_chars_allowed|].
  split; [apply slug_chars_no_double_hyphen | apply slug_chars_length].
Qed.











End SlugClaims.

(* ------------------------------------------------------------------------- *)
(** ** The stable sort and the random index *)

Module SortFacts.
Import Fresh.

Section BySim.
Context {A : Type}.

Definition sim_le (a b : A * Q) : Prop := snd a <= snd b.

Lemma Qlt_bool_iff a b : Qlt_bool a b = true <-> a < b.
Proof.
  unfold Qlt_bool. rewrite negb_true_iff. split.
  - intros H. apply Qnot_le_lt. intros Hle. apply Qle_bool_iff in Hle. congruence.
  - intros H. destruct (Qle_bool b a) eqn:E; [|reflexivity].
    apply Qle_bool_iff in E. exfalso. exact (Qlt_not_le _ _ H E).
Qed.

Lemma insert_by_sim_perm (x : A * Q) l : Permutation (x :: l) (insert_by_sim x l).
Proof.
  induction l as [|y l IH]; simpl; [reflexivity|].
  destruct (Qle_bool (snd x) (snd y)); [reflexivity|].
  transitivity (y :: x :: l); [apply perm_swap | now apply perm_skip].
Qed.

Lemma sort_by_sim_perm (l : list (A * Q)) : Permutation l (sort_by_sim l).
Proof.
  induction l as [|x l IH]; simpl; [reflexivity|].
  transitivity (x :: sort_by_sim l); [now apply perm_skip | apply insert_by_sim_perm].
Qed.

Lemma insert_by_sim_sorted (x : A * Q) l :
  StronglySorted sim_le l -> StronglySorted sim_le (insert_by_sim x l).
Proof.
  induction 1 as [|y l Hl IH Hy]; simpl; [repeat constructor|].
  destruct (Qle_bool (snd x) (snd y)) eqn:E.
  - apply Qle_bool_iff in E. constructor; [constructor; assumption|].
    constructor; [exact E|]. apply Forall_forall. intros z Hz.
    unfold sim_le. apply Qle_trans with (snd y); [exact E|].
    exact (proj1 (Forall_forall _ _) Hy z Hz).
  - constructor; [exact IH|]. apply Forall_forall. intros z Hz.
    apply (Permutation_in _ (Permutation_sym (insert_by_sim_perm x l))) in Hz.
    destruct Hz as [<-|Hz].
    + unfold sim_le. apply Qlt_le_weak, Qnot_le_lt. intros Hle.
      apply Qle_bool_iff in Hle. congruence.
    + exact (proj1 (Forall_forall _ _) Hy z Hz).
Qed.

Lemma sort_by_sim_sorted (l : list (A * Q)) : StronglySorted sim_le (sort_by_sim l).
Proof. induction l; simpl; [constructor | now apply insert_by_sim_sorted]. Qed.

Lemma none_below (a : A * Q) L :
  Forall (sim_le a) L -> filter (fun q => Qlt_bool (snd q) (snd a)) L = [].
Proof.
  induction 1 as [|b L Hab _ IH]; simpl; [reflexivity|].
  destruct (Qlt_bool (snd b) (snd a)) eqn:E; [|exact IH].
  apply Qlt_bool_iff in E. exfalso. exact (Qlt_not_le _ _ E Hab).
Qed.

(** In a sorted list, fewer elements than the position of [p] are strictly below it. *)
Lemma sorted_lower_count (L : list (A * Q)) i p :
  StronglySorted sim_le L -> nth_error L i = Some p ->
  (length (filter (fun q => Qlt_bool (snd q) (snd p)) L) <= i)%nat.
Proof.
  intros HS; revert i; induction HS as [|a L HL IH Ha]; intros i Hi.
  - destruct i; discriminate.
  - destruct i as [|i]; simpl in Hi.
    + injection Hi as <-. simpl.
      assert (Hnot : Qlt_bool (snd a) (snd a) = false).
      { destruct (Qlt_bool (snd a) (snd a)) eqn:E; [|reflexivity].
        apply Qlt_bool_iff in E. exfalso. exact (Qlt_irrefl _ E). }
      rewrite Hnot.
      now rewrite none_below.
    + simpl. specialize (IH i Hi).
      destruct (Qlt_bool (snd a) (snd p)); simpl; lia.
Qed.

Lemma perm_filter_length (f : A * Q -> bool) l l' :
  Permutation l l' -> length (filter f l) = length (filter f l').
Proof.
  induction 1 as [|x l l' _ IH|x y l|l l' l'' _ IH1 _ IH2]; simpl.
  - reflexivity.
  - destruct (f x); simpl; congruence.
  - destruct (f x), (f y); reflexivity.
  - congruence.
Qed.

End BySim.

Lemma filter_none {A} (f : A -> bool) l :
  (forall x, In x l -> f x = false) -> filter f l = [].
Proof.
  induction l as [|x l IH]; intros H; simpl; [reflexivity|].
  rewrite (H x (or_introl eq_refl)). apply IH. intros y Hy. apply H. now right.
Qed.

Lemma filter_map_length {A B} (f : B -> bool) (g : A -> B) l :
  length (filter f (map g l)) = length (filter (fun x => f (g x)) l).
Proof. induction l as [|x l IH]; simpl; [reflexivity|]. destruct (f (g x)); simpl; congruence. Qed.

Lemma rand_index_lt r n : 0 <= r -> r < 1 -> (0 < n)%nat -> (rand_index r n < n)%nat.
Proof.
  intros H0 H1 Hn. unfold rand_index.
  assert (Hlt : (Qfloor (r * inject_Z (Z.of_nat n)) < Z.of_nat n)%Z).
  { rewrite Zlt_Qlt. apply Qle_lt_trans with (r * inject_Z (Z.of_nat n)); [apply Qfloor_le|].
    rewrite <- (Qmult_1_l (inject_Z (Z.of_nat n))) at 2.
    apply Qmult_lt_r; [|exact H1].
    change 0 with (inject_Z 0). rewrite <- Zlt_Qlt. lia. }
  lia.
Qed.


End SortFacts.

Module FreshClaims.
Import Fresh Notions SortFacts.

(** C5 (counterexample): with history ["a b c"], the candidate
    "a b c d e f g h i j" scores exactly 0.3 (it does not exceed the
    threshold, but is not fresh either), so no candidate is fresh; the
    fallback may then return "a", which scores 1. *)
Lemma selectFreshItem_returns_exceeding :
  ~ (forall items recentlyUsed r x,
       0 <= r -> r < 1 ->
       selectFreshItem items recentlyUsed true r = Some x ->
       fresh_threshold < candidate_similarity recentlyUsed x ->
       forall y, In y items -> fresh_threshold < candidate_similarity recentlyUsed y).
Proof.
  intros H.
  specialize (H ["a b c d e f g h i j"; "a"] ["a b c"] (1 # 2) "a").
  assert (Hsel : selectFreshItem ["a b c d e f g h i j"; "a"] ["a b c"] true (1 # 2) = Some "a")
    by (vm_compute; reflexivity).
  assert (Hx : fresh_threshold < candidate_similarity ["a b c"] "a")
    by (vm_compute; reflexivity).
  specialize (H ltac:(vm_compute; discriminate) ltac:(vm_compute; reflexivity) Hsel Hx
                "a b c d e f g h i j" (or_introl eq_refl)).
  vm_compute in H. discriminate H.
Qed.

(** C5 (amended): on a non-empty pool, [selectFreshItem] returns a candidate
    of the pool; it scores strictly below 0.3, or else every candidate
    scores at least 0.3 and fewer than 5 candidates score strictly lower
    than the one returned (it is one of the 5 lowest-scoring). *)
Theorem selectFreshItem_fresh_or_lowest (items recentlyUsed : list string) (r : Q) :
  items <> [] -> 0 <= r -> r < 1 ->
  exists x, selectFreshItem items recentlyUsed true r = Some x /\ In x items /\
    (candidate_similarity recentlyUsed x < fresh_threshold \/
     ((forall y, In y items -> fresh_threshold <= candidate_similarity recentlyUsed y) /\
      (length (filter (fun y => Qlt_bool (candidate_similarity recentlyUsed y)
                                         (candidate_similarity recentlyUsed x)) items) < 5)%nat)).
Proof.
  intros Hne H0 H1.
  set (sim := candidate_similarity recentlyUsed).
  assert (Hsc : forall q, In q (scoreItems items recentlyUsed) ->
                  exists y, q = (y, sim y) /\ In y items).
  { intros q Hq. unfold scoreItems in Hq. apply in_map_iff in Hq as (y & Hqy & Hy).
    exists y. split; [rewrite <- Hqy; reflexivity | exact Hy]. }
  unfold selectFreshItem.
  set (scored := scoreItems items recentlyUsed) in *.
  destruct (filter (fun s => Qlt_bool (snd s) fresh_threshold) scored) as [|p fresh] eqn:Hf.
  - assert (Hlen : length scored = length items) by (unfold scored, scoreItems; apply length_map).
    set (k := Nat.min 5 (length scored)).
    assert (Hk : (0 < k)%nat)
      by (destruct items; [congruence|]; unfold k; rewrite Hlen; simpl; lia).
    set (top := firstn k (sort_by_sim scored)).
    assert (Htop : length top = k).
    { unfold top. rewrite length_firstn, <- (Permutation_length (sort_by_sim_perm scored)).
      unfold k. lia. }
    pose proof (rand_index_lt r (length top) H0 H1 ltac:(lia)) as Hi.
    destruct (nth_error top (rand_index r (length top))) as [q|] eqn:Hq;
      [|apply nth_error_Some in Hi; contradiction].
    assert (Hqs : nth_error (sort_by_sim scored) (rand_index r (length top)) = Some q).
    { unfold top in Hq. rewrite nth_error_firstn in Hq.
      change (firstn k (sort_by_sim scored)) with top in Hq.
      destruct (Nat.ltb_spec (rand_index r (length top)) k); [exact Hq | discriminate]. }
    assert (Hin : In q scored).
    { apply (Permutation_in _ (Permutation_sym (sort_by_sim_perm scored))).
      eapply nth_error_In; eauto. }
    destruct (Hsc q Hin) as (x & -> & Hx).
    exists x. split; [reflexivity|]. split; [exact Hx|]. right. split.
    + intros y Hy. apply Qnot_lt_le. intros Hlt.
      assert (Hy' : In (y, sim y) (filter (fun s => Qlt_bool (snd s) fresh_threshold) scored)).
      { apply filter_In. split; [|now apply Qlt_bool_iff].
        unfold scored, scoreItems. apply in_map_iff. exists y. split; [reflexivity | exact Hy]. }
      rewrite Hf in Hy'. inversion Hy'.
    + pose proof (sorted_lower_count _ _ _ (sort_by_sim_sorted scored) Hqs) as Hc.
      rewrite <- (perm_filter_length _ _ _ (sort_by_sim_perm scored)) in Hc.
      unfold scored, scoreItems in Hc. rewrite filter_map_length in Hc. simpl in Hc.
      assert (k <= 5)%nat by (unfold k; lia).
      change (fun y => Qlt_bool (item_similarity y (map lower recentlyUsed)) (sim x))
        with (fun y => Qlt_bool (sim y) (sim x)) in Hc.
      lia.
  - pose proof (rand_index_lt r (length (p :: fresh)) H0 H1 ltac:(simpl; lia)) as Hi.
    destruct (nth_error (p :: fresh) (rand_index r (length (p :: fresh)))) as [q|] eqn:Hq;
      [|apply nth_error_Some in Hi; contradiction].
    apply nth_error_In in Hq. rewrite <- Hf in Hq. apply filter_In in Hq as [Hin Hlt].
    destruct (Hsc q Hin) as (x & -> & Hx).
    exists x. split; [reflexivity|]. split; [exact Hx|]. left. now apply Qlt_bool_iff.
Qed.

Lemma selectFreshItem_fresh_or_lowest_witness :
  exists x, selectFreshItem Pools.DREAM_SETTINGS ["a forest at twilight"] true (1 # 3) = Some x /\
    In x Pools.DREAM_SETTINGS /\
    (candidate_similarity ["a forest at twilight"] x < fresh_threshold \/
     ((forall y, In y Pools.DREAM_SETTINGS ->
                 fresh_threshold <= candidate_similarity ["a forest at twilight"] y) /\
      (length (filter (fun y => Qlt_bool (candidate_similarity ["a forest at twilight"] y)
                                         (candidate_similarity ["a forest at twilight"] x))
                      Pools.DREAM_SETTINGS) < 5)%nat)).
Proof.
  apply selectFreshItem_fresh_or_lowest;
    [discriminate | vm_compute; discriminate | vm_compute; reflexivity].
Defined.

(** C2 (counterexample): when every topic is used (all similarities are 1),
    the fallback of [getRandomEducationalTopic] is [scoredTopics[0]] after
    the sort: the second-lowest topic of the pool is returned for no draw. *)
Lemma pickEducationalTopic_fallback_uniform :
  ~ (forall allTopics usedTopics,
       (forall t, In t allTopics -> topic_threshold <= topicSimilarity t usedTopics) ->
       forall t, In t (map fst (firstn 5 (sort_by_sim (scoreTopics allTopics usedTopics)))) ->
       exists r, 0 <= r /\ r < 1 /\ pickEducationalTopic allTopics usedTopics r = Some t).
Proof.
  intros H.
  set (used := map lower Pools.dream_science_topics).
  assert (Hall : forall t, In t Pools.dream_science_topics ->
                   topic_threshold <= topicSimilarity t used).
  { intros t Ht.
    assert (Hb : forallb (fun u => Qle_bool topic_threshold (topicSimilarity u used))
                   Pools.dream_science_topics = true) by (vm_compute; reflexivity).
    apply Qle_bool_iff. exact (proj1 (forallb_forall _ _) Hb t Ht). }
  destruct (H _ _ Hall "REM Sleep and Dream Formation: What Happens in Your Brain")
    as (r & _ & _ & Hr).
  - vm_compute. right. left. reflexivity.
  - assert (Hpick : pickEducationalTopic Pools.dream_science_topics used r =
                    Some "Why Do We Dream? The Latest Scientific Theories")
      by (vm_compute; reflexivity).
    rewrite Hpick in Hr. discriminate Hr.
Qed.

(** C2 (amended): when no topic scores below 0.5, [getRandomEducationalTopic]
    returns one fixed topic whatever the draw: a topic of the pool whose
    similarity is the lowest of the pool. *)
Theorem pickEducationalTopic_fallback_least (allTopics usedTopics : list string) :
  allTopics <> [] ->
  (forall t, In t allTopics -> topic_threshold <= topicSimilarity t usedTopics) ->
  exists t, In t allTopics /\
    (forall u, In u allTopics -> topicSimilarity t usedTopics <= topicSimilarity u usedTopics) /\
    (forall r, pickEducationalTopic allTopics usedTopics r = Some t).
Proof.
  intros Hne Hall.
  assert (Hsc : forall q, In q (scoreTopics allTopics usedTopics) ->
                  exists y, q = (y, topicSimilarity y usedTopics) /\ In y allTopics).
  { intros q Hq. unfold scoreTopics in Hq. apply in_map_iff in Hq as (y & Hqy & Hy).
    exists y. split; [rewrite <- Hqy; reflexivity | exact Hy]. }
  assert (Hf : filter (fun t => Qlt_bool (snd t) topic_threshold)
                 (scoreTopics allTopics usedTopics) = []).
  { apply filter_none. intros q Hq. destruct (Hsc q Hq) as (y & -> & Hy).
    destruct (Qlt_bool _ _) eqn:E; [|reflexivity].
    apply Qlt_bool_iff in E. exfalso. exact (Qlt_not_le _ _ E (Hall y Hy)). }
  pose proof (sort_by_sim_perm (scoreTopics allTopics usedTopics)) as Hp.
  pose proof (sort_by_sim_sorted (scoreTopics allTopics usedTopics)) as Hs.
  destruct (sort_by_sim (scoreTopics allTopics usedTopics)) as [|h rest] eqn:Hsort.
  - apply Permutation_length in Hp. unfold scoreTopics in Hp. rewrite length_map in Hp.
    destruct allTopics; [congruence | discriminate].
  - destruct (Hsc h (Permutation_in _ (Permutation_sym Hp) (or_introl eq_refl)))
      as (t & -> & Ht).
    exists t. split; [exact Ht|]. split.
    + intros u Hu.
      assert (Hin : In (u, topicSimilarity u usedTopics) ((t, topicSimilarity t usedTopics) :: rest)).
      { apply (Permutation_in _ Hp). unfold scoreTopics. apply in_map_iff.
        exists u. split; [reflexivity | exact Hu]. }
      destruct Hin as [Heq|Hin].
      * injection Heq as -> _. apply Qle_refl.
      * apply StronglySorted_inv in Hs as [_ Hfa].
        exact (proj1 (Forall_forall _ _) Hfa _ Hin).
    + intros r. unfold pickEducationalTopic. rewrite Hf, Hsort. reflexivity.
Qed.

Lemma pickEducationalTopic_fallback_least_witness :
  exists t, In t Pools.dream_science_topics /\
    (forall u, In u Pools.dream_science_topics ->
               topicSimilarity t (map lower Pools.dream_science_topics) <=
               topicSimilarity u (map lower Pools.dream_science_topics)) /\
    (forall r, pickEducationalTopic Pools.dream_science_topics
                 (map lower Pools.dream_science_topics) r = Some t).
Proof.
  apply pickEducationalTopic_fallback_least; [discriminate|].
  intros t Ht.
  assert (Hb : forallb (fun u => Qle_bool topic_threshold
                                   (topicSimilarity u (map lower Pools.dream_science_topics)))
                 Pools.dream_science_topics = true) by (vm_compute; reflexivity).
  apply Qle_bool_iff. exact (proj1 (forallb_forall _ _) Hb t Ht).
Defined.

End FreshClaims.

(* ------------------------------------------------------------------------- *)
(** ** What the pipeline stages leave untouched *)

Module EffectFacts.
Import Json Build Analysis Category Effects Pipeline Scheduler Notions.

(** [quiet ok w w']: from [w] to [w'] the alternation flag and the job table
    are unchanged, and the trace only grows by events accepted by [ok]. *)
Definition quiet (ok : event -> bool) (w w' : world) : Prop :=
  w_eveningPostIsDream w' = w_eveningPostIsDream w /\ w_jobs w' = w_jobs w /\
  exists evs, w_events w' = w_events w ++ evs /\ forallb ok evs = true.

Definition preserves {A} (ok : event -> bool) (m : M A) : Prop :=
  forall w, quiet ok w (snd (m w)).

Section Quiet.
Variable ok : event -> bool.

Lemma quiet_same w w' :
  w_eveningPostIsDream w' = w_eveningPostIsDream w -> w_jobs w' = w_jobs w ->
  w_events w' = w_events w -> quiet ok w w'.
Proof. intros H1 H2 H3. split; [exact H1|]. split; [exact H2|]. exists []. now rewrite app_nil_r. Qed.

Lemma quiet_refl w : quiet ok w w.
Proof. now apply quiet_same. Qed.

Lemma quiet_trans w1 w2 w3 : quiet ok w1 w2 -> quiet ok w2 w3 -> quiet ok w1 w3.
Proof.
  intros (F1 & J1 & e1 & E1 & O1) (F2 & J2 & e2 & E2 & O2).
  split; [congruence|]. split; [congruence|]. exists (e1 ++ e2).
  rewrite E2, E1, app_assoc. split; [reflexivity|]. now rewrite forallb_app, O1, O2.
Qed.

Lemma preserves_ret {A} (a : A) : preserves ok (ret a).
Proof. intros w. apply quiet_refl. Qed.

Lemma preserves_raise {A} e : preserves ok (@raise A e).
Proof. intros w. apply quiet_refl. Qed.

Lemma preserves_lift {A} (o : option A) : preserves ok (lift o).
Proof. destruct o; [apply preserves_ret | apply preserves_raise]. Qed.

Lemma preserves_bind {A B} (m : M A) (f : A -> M B) :
  preserves ok m -> (forall a, preserves ok (f a)) -> preserves ok (bind m f).
Proof.
  intros Hm Hf w. specialize (Hm w). unfold bind.
  destruct (m w) as [[a|e] w'] eqn:E; simpl in *; [|exact Hm].
  exact (quiet_trans _ _ _ Hm (Hf a w')).
Qed.

Lemma preserves_try_catch {A} (m : M A) (h : exn -> M A) :
  preserves ok m -> (forall e, preserves ok (h e)) -> preserves ok (try_catch m h).
Proof.
  intros Hm Hh w. specialize (Hm w). unfold try_catch.
  destruct (m w) as [[a|e] w'] eqn:E; simpl in *; [exact Hm|].
  exact (quiet_trans _ _ _ Hm (Hh e w')).
Qed.

Lemma preserves_guard (b : bool) e : preserves ok (if b then ret tt else raise e).
Proof. destruct b; [apply preserves_ret | apply preserves_raise]. Qed.

Lemma preserves_emit e : ok e = true -> preserves ok (emit e).
Proof.
  intros He w. split; [reflexivity|]. split; [reflexivity|].
  exists [e]. simpl. now rewrite He.
Qed.

Lemma preserves_db_history : preserves ok db_history.
Proof. intros w. unfold db_history. destruct (w_db w) as [|[h|] rest]; now apply quiet_same. Qed.

Lemma preserves_random : preserves ok random.
Proof. intros w. unfold random. destruct (w_rand w) as [|r rest]; now apply quiet_same. Qed.

Lemma preserves_text_json rp : preserves ok (text_json rp).
Proof.
  destruct rp as [| |[j|]]; simpl;
    first [apply preserves_ret | apply preserves_raise].
Qed.

Lemma preserves_get_categoryIndex : preserves ok get_categoryIndex.
Proof. intros w. apply quiet_refl. Qed.

Lemma preserves_set_categoryIndex n : preserves ok (set_categoryIndex n).
Proof. intros w. now apply quiet_same. Qed.

Lemma preserves_getNextEducationalCategory : preserves ok getNextEducationalCategory.
Proof.
  apply preserves_bind; [apply preserves_get_categoryIndex|]. intros i.
  apply preserves_bind; [apply preserves_set_categoryIndex|]. intros _. apply preserves_ret.
Qed.

Hypothesis ok_service : ok Ev_service = true.

Lemma preserves_service : preserves ok service.
Proof.
  apply preserves_bind; [now apply preserves_emit|]. intros _ w.
  destruct (w_svc w) as [|rp rest]; [apply quiet_refl|].
  destruct rp; now apply quiet_same.
Qed.

Lemma preserves_generateDream : preserves ok generateDream.
Proof.
  unfold generateDream, getRecentlyUsedDreamElements.
  apply preserves_bind; [apply preserves_db_history|]. intros h.
  apply preserves_bind; [apply preserves_random|]. intros r1.
  apply preserves_bind; [apply preserves_lift|]. intros s.
  apply preserves_bind; [apply preserves_random|]. intros r2.
  apply preserves_bind; [apply preserves_lift|]. intros t.
  apply preserves_bind; [apply preserves_random|]. intros r3.
  apply preserves_bind; [apply preserves_service|]. intros rp.
  apply preserves_bind; [apply preserves_text_json|]. intros j.
  apply preserves_lift.
Qed.

Lemma preserves_analyzeDream c m l t : preserves ok (analyzeDream c m l t).
Proof.
  unfold analyzeDream.
  apply preserves_bind; [apply preserves_guard|]. intros _.
  apply preserves_bind; [apply preserves_service|]. intros rp.
  destruct rp; try apply preserves_raise;
    (apply preserves_try_catch; [|intros; apply preserves_raise]);
    (apply preserves_bind; [apply preserves_text_json | intros; apply preserves_lift]).
Qed.

Lemma preserves_generateDreamBlogPost d a : preserves ok (generateDreamBlogPost d a).
Proof.
  unfold generateDreamBlogPost.
  apply preserves_bind; [apply preserves_guard|]. intros _.
  apply preserves_bind; [apply preserves_service|]. intros rp.
  apply preserves_bind; [apply preserves_text_json|]. intros j.
  apply preserves_lift.
Qed.

Lemma preserves_generateFullDreamPost : preserves ok generateFullDreamPost.
Proof.
  unfold generateFullDreamPost.
  apply preserves_bind; [apply preserves_generateDream|]. intros d.
  apply preserves_bind; [apply preserves_analyzeDream|]. intros a.
  apply preserves_bind; [apply preserves_generateDreamBlogPost|]. intros p.
  apply preserves_ret.
Qed.

End Quiet.

Section QuietValidate.
Variable ok : event -> bool.
Hypothesis ok_service : ok Ev_service = true.
Hypothesis ok_validate : forall c, ok (Ev_validate c) = true.

Lemma preserves_validateCategoryFit c t cat : preserves ok (validateCategoryFit c t cat).
Proof.
  unfold validateCategoryFit.
  apply preserves_bind; [now apply preserves_emit|]. intros _.
  destruct (STRICT_CATEGORY_DEFINITIONS cat); [|apply preserves_raise | apply preserves_ret].
  destruct c as [[| | | s | |]|]; try apply preserves_raise.
  apply preserves_try_catch; [|intros; apply preserves_ret].
  apply preserves_bind; [now apply preserves_service|]. intros rp.
  destruct rp; try apply preserves_ret;
    (apply preserves_bind; [apply preserves_text_json | intros; apply preserves_lift]).
Qed.

Lemma preserves_generateEducationalPost cat : preserves ok (generateEducationalPost cat).
Proof.
  unfold generateEducationalPost, getExistingContentByCategory.
  apply preserves_bind; [apply preserves_db_history|]. intros h.
  apply preserves_bind;
    [destruct (STRICT_CATEGORY_DEFINITIONS cat); first [apply preserves_ret | apply preserves_raise]|].
  intros _.
  apply preserves_bind; [now apply preserves_service|]. intros rp.
  apply preserves_bind; [apply preserves_text_json|]. intros j.
  apply preserves_bind; [apply preserves_lift|]. intros p.
  apply preserves_bind; [apply preserves_guard|]. intros _.
  apply preserves_bind; [apply preserves_validateCategoryFit|]. intros v.
  apply preserves_bind; [apply preserves_guard|]. intros _.
  apply preserves_ret.
Qed.

End QuietValidate.

(** Everything a firing does after announcing its content type. *)
Definition no_start (e : event) : bool :=
  match e with Ev_start _ => false | _ => true end.

Lemma preserves_insert ok r : ok (Ev_insert r) = true -> preserves ok (insert r).
Proof.
  intros Hr. unfold insert. apply preserves_bind; [now apply preserves_emit|]. intros _ w.
  destruct (w_writes w) as [|b rest]; [apply quiet_refl | now apply quiet_same].
Qed.

Lemma preserves_dream_body :
  preserves no_start
    (try_catch
       (p <- generateFullDreamPost ;;
        let '(dream, analysis, blogPost) := p in
        ok <- insert (post_row blogPost "dream-stories" "ai-dream") ;;
        if ok then emit (Ev_done DreamKind true) else raise DbError)
       (fun _ => emit (Ev_done DreamKind false))).
Proof.
  apply preserves_try_catch; [|intros; now apply preserves_emit].
  apply preserves_bind; [now apply preserves_generateFullDreamPost|]. intros [[d a] p].
  apply preserves_bind; [now apply preserves_insert|]. intros [|];
    [now apply preserves_emit | apply preserves_raise].
Qed.

Lemma preserves_edu_body cat :
  preserves no_start
    (try_catch
       (blogPost <- generateEducationalPost cat ;;
        ok <- insert (post_row blogPost cat "ai-educational") ;;
        if ok then emit (Ev_done EducationalKind true) else raise DbError)
       (fun _ => emit (Ev_done EducationalKind false))).
Proof.
  apply preserves_try_catch; [|intros; now apply preserves_emit].
  apply preserves_bind; [now apply preserves_generateEducationalPost|]. intros p.
  apply preserves_bind; [now apply preserves_insert|]. intros [|];
    [now apply preserves_emit | apply preserves_raise].
Qed.

Lemma try_catch_emit_ok (m : M unit) e w : fst (try_catch m (fun _ => emit e) w) = Ok tt.
Proof. unfold try_catch. destruct (m w) as [[[]|x] w']; reflexivity. Qed.

Lemma flat_map_none {A B} (f : A -> list B) l :
  (forall x, In x l -> f x = []) -> flat_map f l = [].
Proof.
  induction l as [|x l IH]; intros H; simpl; [reflexivity|].
  rewrite (H x (or_introl eq_refl)). apply IH. intros y Hy. apply H. now right.
Qed.

Lemma started_app l1 l2 : started (l1 ++ l2) = started l1 ++ started l2.
Proof. apply flat_map_app. Qed.

Lemma started_no_start evs : forallb no_start evs = true -> started evs = [].
Proof.
  intros H. apply flat_map_none. intros e He.
  pose proof (proj1 (forallb_forall _ _) H e He). destruct e; simpl in *; congruence.
Qed.

Lemma generateDreamPost_step w :
  fst (generateDreamPost w) = Ok tt /\
  quiet no_start (dream_stage_world w) (snd (generateDreamPost w)).
Proof.
  unfold generateDreamPost.
  match goal with |- context [bind _ (fun _ => ?b) w] =>
    change (bind _ (fun _ => b) w) with (b (dream_stage_world w)) end.
  split; [apply try_catch_emit_ok | apply preserves_dream_body].
Qed.

Lemma generateEducationalContent_step w :
  fst (generateEducationalContent w) = Ok tt /\
  quiet no_start (edu_stage_world w) (snd (generateEducationalContent w)).
Proof.
  unfold generateEducationalContent.
  match goal with |- context [bind _ (fun c => bind _ (fun _ => @?b c)) w] =>
    change (bind _ (fun c => bind _ (fun _ => b c)) w)
      with (b (edu_stage_category w) (edu_stage_world w)) end.
  split; [apply try_catch_emit_ok | apply preserves_edu_body].
Qed.

(** One evening firing announces one content type, chosen by the flag,
    and flips the flag; it never fails. *)
Lemma generateEveningPost_step w :
  fst (generateEveningPost w) = Ok tt /\
  w_eveningPostIsDream (snd (generateEveningPost w)) = negb (w_eveningPostIsDream w) /\
  started (w_events (snd (generateEveningPost w))) =
    started (w_events w) ++ [if w_eveningPostIsDream w then DreamKind else EducationalKind].
Proof.
  unfold generateEveningPost, bind, get_eveningPostIsDream. cbv beta iota.
  destruct (w_eveningPostIsDream w) eqn:Ef.
  - destruct (generateDreamPost_step w) as [Hok Hq].
    destruct (generateDreamPost w) as [r w1]. simpl in Hok, Hq. subst r.
    destruct Hq as (F & _ & evs & E & O). simpl in F, E.
    simpl. split; [reflexivity|]. split; [now rewrite F, Ef|].
    rewrite E, !started_app, (started_no_start _ O), app_nil_r. reflexivity.
  - destruct (generateEducationalContent_step w) as [Hok Hq].
    destruct (generateEducationalContent w) as [r w1]. simpl in Hok, Hq. subst r.
    destruct Hq as (F & _ & evs & E & O). simpl in F, E.
    simpl. split; [reflexivity|]. split; [now rewrite F, Ef|].
    rewrite E, !started_app, (started_no_start _ O), app_nil_r. reflexivity.
Qed.

End EffectFacts.

(* ------------------------------------------------------------------------- *)
(** ** Failed firings *)

Module FiringFacts.
Import Json Build Effects Pipeline Scheduler Notions EffectFacts.

(** The events a generation pipeline may record. *)
Definition pipeline_event (e : event) : bool :=
  match e with Ev_service | Ev_validate _ => true | _ => false end.

Lemma inserts_app l1 l2 : inserts (l1 ++ l2) = inserts l1 ++ inserts l2.
Proof. apply flat_map_app. Qed.

Lemma quiet_pipeline_inserts w w' :
  quiet pipeline_event w w' ->
  w_jobs w' = w_jobs w /\ inserts (w_events w') = inserts (w_events w).
Proof.
  intros (_ & J & evs & E & O). split; [exact J|].
  rewrite E, inserts_app.
  replace (inserts evs) with (@nil row); [apply app_nil_r|].
  symmetry. apply flat_map_none. intros e He.
  pose proof (proj1 (forallb_forall _ _) O e He). destruct e; simpl in *; congruence.
Qed.

Lemma generateDreamPost_failure w e w1 :
  generateFullDreamPost (dream_stage_world w) = (Err e, w1) ->
  generateDreamPost w = emit (Ev_done DreamKind false) w1.
Proof.
  intros H. unfold generateDreamPost.
  match goal with |- context [bind _ (fun _ => ?b) w] =>
    change (bind _ (fun _ => b) w) with (b (dream_stage_world w)) end.
  unfold try_catch. unfold bind at 1. rewrite H. reflexivity.
Qed.

Lemma generateEducationalContent_failure w e w1 :
  generateEducationalPost (edu_stage_category w) (edu_stage_world w) = (Err e, w1) ->
  generateEducationalContent w = emit (Ev_done EducationalKind false) w1.
Proof.
  intros H.
  change (generateEducationalContent w) with
    (try_catch
       (blogPost <- generateEducationalPost (edu_stage_category w) ;;
        ok <- insert (post_row blogPost (edu_stage_category w) "ai-educational") ;;
        if ok then emit (Ev_done EducationalKind true) else raise DbError)
       (fun _ => emit (Ev_done EducationalKind false)) (edu_stage_world w)).
  unfold try_catch. unfold bind at 1. rewrite H. reflexivity.
Qed.

Lemma dream_stage_world_inserts w :
  w_jobs (dream_stage_world w) = w_jobs w /\
  inserts (w_events (dream_stage_world w)) = inserts (w_events w).
Proof. split; [reflexivity|]. simpl. rewrite inserts_app. apply app_nil_r. Qed.

Lemma edu_stage_world_inserts w :
  w_jobs (edu_stage_world w) = w_jobs w /\
  inserts (w_events (edu_stage_world w)) = inserts (w_events w).
Proof. split; [reflexivity|]. simpl. rewrite inserts_app. apply app_nil_r. Qed.

Lemma emit_done_inserts k b w :
  w_jobs (snd (emit (Ev_done k b) w)) = w_jobs w /\
  inserts (w_events (snd (emit (Ev_done k b) w))) = inserts (w_events w).
Proof. split; [reflexivity|]. simpl. rewrite inserts_app. apply app_nil_r. Qed.

End FiringFacts.

(* ------------------------------------------------------------------------- *)
(** ** Claims about the scheduler *)

Module SchedulerClaims.
Import Json Build Effects Pipeline Scheduler Notions EffectFacts FiringFacts.

Lemma eveningFirings_started n w :
  started (w_events (snd (eveningFirings n w))) =
    started (w_events w) ++ alternating n (w_eveningPostIsDream w).
Proof.
  revert w. induction n as [|n IH]; intros w; simpl.
  - now rewrite app_nil_r.
  - unfold bind at 1. destruct (generateEveningPost_step w) as (Hok & F & S).
    destruct (generateEveningPost w) as [r w1]. simpl in Hok, F, S. subst r.
    rewrite IH, S, F, <- app_assoc. reflexivity.
Qed.

(** C6: from a fresh alternation state (the flag [eveningPostIsDream] is
    false), [n] consecutive evening firings start, in this order, an
    educational post, a dream post, an educational post, and so on: the
    content types recorded in the trace strictly alternate, whatever the
    services, the storage and the random draws do. *)
Theorem eveningFirings_alternate (n : nat) (w : world) :
  w_eveningPostIsDream w = false ->
  started (w_events (snd (eveningFirings n w))) = started (w_events w) ++ alternating n false.
Proof. intros H. rewrite eveningFirings_started, H. reflexivity. Qed.

Definition fresh_world : world :=
  mkWorld [R_throw] [None] [false] [1 # 2] [] ["morningDream"; "eveningPost"] false O.

Lemma eveningFirings_alternate_witness :
  w_eveningPostIsDream fresh_world = false /\
  started (w_events (snd (eveningFirings 4 fresh_world))) =
    started (w_events fresh_world) ++ alternating 4 false.
Proof. split; [reflexivity | apply (eveningFirings_alternate 4 fresh_world); reflexivity]. Defined.

(** C7: when a generation stage of the pipeline a cron firing runs throws,
    the firing's handler still completes normally (the error is caught),
    no row is inserted ([insert] is never called) and the registered jobs
    are unchanged. *)
Theorem failed_firing_contained (job : string) (w : world) :
  firing_stage_fails job w = true ->
  fst (fire job w) = Ok tt /\ w_jobs (snd (fire job w)) = w_jobs w /\
  inserts (w_events (snd (fire job w))) = inserts (w_events w).
Proof.
  intros H. unfold firing_stage_fails in H. unfold fire.
  destruct (String.eqb job "morningDream") eqn:Em; simpl in H.
  - destruct (generateFullDreamPost (dream_stage_world w)) as [[x|e] w1] eqn:Eg;
      [discriminate|].
    rewrite (generateDreamPost_failure _ _ _ Eg). split; [reflexivity|].
    pose proof (preserves_generateFullDreamPost pipeline_event eq_refl (dream_stage_world w))
      as Hq.
    rewrite Eg in Hq. simpl in Hq.
    destruct (quiet_pipeline_inserts _ _ Hq) as [J I].
    destruct (dream_stage_world_inserts w) as [J0 I0].
    destruct (emit_done_inserts DreamKind false w1) as [J1 I1]. split; congruence.
  - destruct (String.eqb job "eveningPost") eqn:Ee; simpl in H; [|discriminate].
    unfold generateEveningPost, bind, get_eveningPostIsDream. cbv beta iota.
    destruct (w_eveningPostIsDream w) eqn:Ef; simpl in H.
    + destruct (generateFullDreamPost (dream_stage_world w)) as [[x|e] w1] eqn:Eg;
        [discriminate|].
      rewrite (generateDreamPost_failure _ _ _ Eg). split; [reflexivity|].
      pose proof (preserves_generateFullDreamPost pipeline_event eq_refl (dream_stage_world w))
        as Hq.
      rewrite Eg in Hq. simpl in Hq.
      destruct (quiet_pipeline_inserts _ _ Hq) as [J I].
      destruct (dream_stage_world_inserts w) as [J0 I0].
      destruct (emit_done_inserts DreamKind false w1) as [J1 I1].
      simpl in J1, I1 |- *. split; congruence.
    + destruct (generateEducationalPost (edu_stage_category w) (edu_stage_world w))
        as [[x|e] w1] eqn:Eg; [discriminate|].
      rewrite (generateEducationalContent_failure _ _ _ Eg). split; [reflexivity|].
      pose proof (preserves_generateEducationalPost pipeline_event eq_refl (fun _ => eq_refl)
                    (edu_stage_category w) (edu_stage_world w)) as Hq.
      rewrite Eg in Hq. simpl in Hq.
      destruct (quiet_pipeline_inserts _ _ Hq) as [J I].
      destruct (edu_stage_world_inserts w) as [J0 I0].
      destruct (emit_done_inserts EducationalKind false w1) as [J1 I1].
      simpl in J1, I1 |- *. split; congruence.
Qed.

(** The formatting stage of the dream pipeline throws: the dream and the
    analysis replies are accepted, the third service call is rejected. *)
Definition formatting_failure_world : world :=
  mkWorld [R_text (Some (JObj [])); R_text (Some (JObj [])); R_throw] [] [] []
          [] ["morningDream"; "eveningPost"] false O.

Lemma failed_firing_contained_witness :
  firing_stage_fails "morningDream" formatting_failure_world = true /\
  (fst (fire "morningDream" formatting_failure_world) = Ok tt /\
   w_jobs (snd (fire "morningDream" formatting_failure_world)) = w_jobs formatting_failure_world /\
   inserts (w_events (snd (fire "morningDream" formatting_failure_world))) =
     inserts (w_events formatting_failure_world)).
Proof.
  split; [vm_compute; reflexivity|].
  apply failed_firing_contained. vm_compute. reflexivity.
Defined.

(** C8: [generateFullDreamPost] never calls [validateCategoryFit]: a run of
    the dream pipeline records no validation, whatever the services reply. *)
Theorem generateFullDreamPost_no_validation (w : world) :
  validations (w_events (snd (generateFullDreamPost w))) = validations (w_events w).
Proof.
  pose proof (preserves_generateFullDreamPost
                (fun e => match e with Ev_service => true | _ => false end) eq_refl w)
    as (_ & _ & evs & E & O).
  rewrite E. unfold validations. rewrite flat_map_app.
  rewrite (flat_map_none _ evs); [apply app_nil_r|].
  intros e He. pose proof (proj1 (forallb_forall _ _) O e He). destruct e; simpl in *; congruence.
Qed.

End SchedulerClaims.

(* ------------------------------------------------------------------------- *)
(** ** Claims about [validateCategoryFit] *)

Module ValidatorClaims.
Import Json Category Effects Pipeline.

Lemma get_total v k1 k2 x : get v k1 = Some x -> exists y, get v k2 = Some y.
Proof. destruct v; simpl; intros H; [discriminate | eauto ..]. Qed.







(** C10: the category ["constructor"] is not one of the four defined
    categories, yet [STRICT_CATEGORY_DEFINITIONS["constructor"]] is the
    inherited [Object] function, which passes the [!categoryDef] test;
    building the prompt then reads [MUST_INCLUDE.join] of [undefined] and
    [validateCategoryFit] fails with a [TypeError] instead of returning
    [{isValid: true}], whatever the arguments and the world. *)
Theorem validateCategoryFit_prototype_key (content title : option json) (w : world) :
  fst (validateCategoryFit content title "constructor" w) = Err TypeError.
Proof. reflexivity. Qed.

End ValidatorClaims.

(* ------------------------------------------------------------------------- *)
(** ** The defaults of [analyzeDream] *)

Module AnalysisFacts.
Import Json Analysis Effects Pipeline Notions.

Lemma or_default_falsy v d : truthy v = false -> or_default v d = d.
Proof. destruct v as [j|]; simpl; [intros H; now rewrite H | reflexivity]. Qed.

Lemma get_not_null v k : v <> JNull -> exists y, get v k = Some y.
Proof. destruct v; simpl; intros H; [congruence | eauto ..]. Qed.

Lemma map_opt_Forall2 {A B} (f : A -> option B) l :
  (forall x, In x l -> f x <> None) ->
  exists ys, map_opt f l = Some ys /\ Forall2 (fun x y => f x = Some y) l ys.
Proof.
  induction l as [|x l IH]; intros H; simpl; [eauto|].
  destruct (f x) as [y|] eqn:E; [|exfalso; exact (H x (or_introl eq_refl) E)].
  destruct IH as (ys & E' & F); [intros z Hz; apply H; now right|].
  rewrite E'. exists (y :: ys). split; [reflexivity | now constructor].
Qed.

Lemma map_or_empty_ok {B} (f : json -> option B) v :
  entries_ok v = true -> (forall j, j <> JNull -> f j <> None) ->
  exists ys, map_or_empty f v = Some ys /\
    Forall2 (fun j y => f j = Some y) (entries (Some v)) ys.
Proof.
  unfold entries_ok, map_or_empty, entries.
  destruct (or_default v (JArr [])) as [| | | | l |]; try discriminate.
  intros Hl Hf. apply map_opt_Forall2. intros j Hj.
  apply Hf. intros ->. pose proof (proj1 (forallb_forall _ _) Hl JNull Hj). discriminate.
Qed.

Lemma tier_range g : tier g = JStr "high" \/ tier g = JStr "medium" \/ tier g = JStr "low".
Proof.
  destruct g as [[| | | t | |]|]; simpl; auto.
  destruct (String.eqb_spec t "high"); [subst; auto|].
  destruct (String.eqb_spec t "medium"); [subst; auto|].
  destruct (String.eqb_spec t "low"); [subst; auto | auto].
Qed.

Lemma tier_other g :
  ~ In g [Some (JStr "high"); Some (JStr "medium"); Some (JStr "low")] -> tier g = JStr "medium".
Proof.
  destruct g as [[| | | t | |]|]; simpl; auto. intros Hn.
  destruct (String.eqb_spec t "high"); [subst; tauto|].
  destruct (String.eqb_spec t "medium"); [subst; tauto|].
  destruct (String.eqb_spec t "low"); [subst; tauto | reflexivity].
Qed.

Lemma intensity_range v : 0 <= intensity_of v /\ intensity_of v <= 100.
Proof.
  destruct v as [[| | q | | |]|]; simpl; try (split; discriminate).
  unfold Fresh.qmin, Fresh.qmax.
  destruct (Fresh.Qlt_bool 0 q) eqn:E1.
  - apply SortFacts.Qlt_bool_iff in E1.
    destruct (Fresh.Qlt_bool q 100) eqn:E2.
    + apply SortFacts.Qlt_bool_iff in E2. split; apply Qlt_le_weak; assumption.
    + split; [discriminate | apply Qle_refl].
  - simpl. split; discriminate.
Qed.

Lemma intensity_default v : (forall q, v <> Some (JNum q)) -> intensity_of v = 50.
Proof. destruct v as [[| | q | | |]|]; simpl; intros H; try reflexivity. now destruct (H q). Qed.

Lemma symbol_of_defaults j s :
  symbol_of j = Some s ->
  (forall v, get j "name" = Some v -> truthy v = false -> sym_name s = JStr "Unknown") /\
  (forall v, get j "meaning" = Some v -> truthy v = false -> sym_meaning s = JStr "") /\
  (sym_significance s = JStr "high" \/ sym_significance s = JStr "medium" \/
   sym_significance s = JStr "low") /\
  (forall v, get j "significance" = Some v ->
     ~ In v [Some (JStr "high"); Some (JStr "medium"); Some (JStr "low")] ->
     sym_significance s = JStr "medium").
Proof.
  unfold symbol_of.
  destruct (get j "name") as [n|] eqn:En; [|discriminate].
  destruct (get j "meaning") as [m|] eqn:Em; [|discriminate].
  destruct (get j "significance") as [g|] eqn:Eg; [|discriminate].
  intros H. injection H as <-. simpl. split; [|split; [|split]].
  - intros v Hv Hf. injection Hv as <-. now apply or_default_falsy.
  - intros v Hv Hf. injection Hv as <-. now apply or_default_falsy.
  - apply tier_range.
  - intros v Hv Hn. injection Hv as <-. now apply tier_other.
Qed.

Lemma emotion_of_defaults j e :
  emotion_of j = Some e ->
  (forall v, get j "name" = Some v -> truthy v = false -> emo_name e = JStr "Unknown") /\
  (forall v, get j "color" = Some v -> truthy v = false -> emo_color e = JStr "#8b5cf6") /\
  (0 <= emo_intensity e /\ emo_intensity e <= 100) /\
  (forall v, get j "intensity" = Some v -> (forall q, v <> Some (JNum q)) ->
     emo_intensity e = 50).
Proof.
  unfold emotion_of.
  destruct (get j "name") as [n|] eqn:En; [|discriminate].
  destruct (get j "intensity") as [i|] eqn:Ei; [|discriminate].
  destruct (get j "color") as [c|] eqn:Ec; [|discriminate].
  intros H. injection H as <-. simpl. split; [|split; [|split]].
  - intros v Hv Hf. injection Hv as <-. now apply or_default_falsy.
  - intros v Hv Hf. injection Hv as <-. now apply or_default_falsy.
  - apply intensity_range.
  - intros v Hv Hn. injection Hv as <-. now apply intensity_default.
Qed.

Lemma map_opt_null_entry {B} (f : json -> option B) l :
  f JNull = None ->
  forallb (fun x => match x with JNull => false | _ => true end) l = false ->
  map_opt f l = None.
Proof.
  intros Hf. induction l as [|x l IH]; simpl; [discriminate|].
  destruct x eqn:Ex; simpl;
    [intros _; rewrite Hf; reflexivity
    | intros H; rewrite <- Ex; destruct (f x); [rewrite (IH H); reflexivity | reflexivity] ..].
Qed.

Lemma map_or_empty_bad {B} (f : json -> option B) v :
  f JNull = None -> entries_ok v = false -> map_or_empty f v = None.
Proof.
  unfold entries_ok, map_or_empty. intros Hf.
  destruct (or_default v (JArr [])); try reflexivity.
  apply map_opt_null_entry. exact Hf.
Qed.

(** A response of any other shape makes the parse throw. *)
Lemma parse_analysis_bad_shape parsed :
  analysis_shape_ok parsed = false -> parse_analysis parsed = None.
Proof.
  unfold analysis_shape_ok, parse_analysis.
  destruct (get parsed "interpretation") as [i|]; [|intros; reflexivity].
  destruct (get parsed "symbols") as [sy|];
    [|destruct (get parsed "emotions"), (get parsed "themes"), (get parsed "advice"); intros; reflexivity].
  destruct (get parsed "emotions") as [em|];
    [|destruct (get parsed "themes"), (get parsed "advice"); intros; reflexivity].
  intros H. destruct (get parsed "themes"), (get parsed "advice"); try reflexivity.
  apply andb_false_iff in H. destruct H as [H|H].
  - rewrite (map_or_empty_bad symbol_of sy eq_refl H). reflexivity.
  - destruct (map_or_empty symbol_of sy); [|reflexivity].
    rewrite (map_or_empty_bad emotion_of em eq_refl H). reflexivity.
Qed.

End AnalysisFacts.

Module AnalysisClaims.
Import Json Analysis Effects Pipeline Notions AnalysisFacts.

Definition analysis_world (parsed : json) : world :=
  mkWorld [R_text (Some parsed)] [] [] [] [] [] false O.

Definition string_symbols_response : json :=
  JObj [("interpretation", JStr "The tide stands for change."); ("symbols", JStr "water")].

(** C9 (counterexample): a parseable analysis response whose [symbols] is a
    string (it has no [map]) makes [analyzeDream] throw
    ['Failed to parse AI response'] instead of falling back to defaults. *)
Lemma analyzeDream_raises_on_parseable :
  ~ (forall content mood isLucid tags w parsed rest,
       message_ok content mood tags = true -> w_svc w = R_text (Some parsed) :: rest ->
       exists a w', analyzeDream content mood isLucid tags w = (Ok a, w')).
Proof.
  intros H.
  destruct (H (Some (JStr "I walked into the sea.")) None (JBool false) (JArr [])
              (analysis_world string_symbols_response) string_symbols_response [] eq_refl eq_refl)
    as (a & w' & E).
  vm_compute in E. discriminate E.
Qed.

(** C9 (amended): when the user message of [analyzeDream] can be built
    ([message_ok]: content and mood convert to strings, and the tags part
    does not throw) and the service's text parses, [analyzeDream] returns
    an analysis exactly when the parsed response is not [null] and its
    [symbols] and [emotions] are each falsy or an array without [null]
    entries; the analysis then carries the defaults, tiers and clamped
    intensities of [analysis_defaults].  Every other parseable response
    makes it throw ['Failed to parse AI response']. *)
Theorem analyzeDream_defaults (content mood : option json) (isLucid tags parsed : json)
    (w : world) (rest : list reply) :
  message_ok content mood tags = true ->
  w_svc w = R_text (Some parsed) :: rest ->
  (analysis_shape_ok parsed = true ->
   exists a w', analyzeDream content mood isLucid tags w = (Ok a, w') /\
                analysis_defaults parsed a) /\
  (analysis_shape_ok parsed = false ->
   fst (analyzeDream content mood isLucid tags w) = Err ParseFailure).
Proof.
  intros Hmsg Hsvc. split.
  - intros Hshape.
    unfold analysis_shape_ok in Hshape.
    destruct (get parsed "symbols") as [s|] eqn:Es; [|discriminate].
    destruct (get parsed "emotions") as [e|] eqn:Ee; [|discriminate].
    apply andb_prop in Hshape as [Hs He].
    assert (Hnn : parsed <> JNull) by (intros ->; discriminate Es).
    destruct (get_not_null parsed "interpretation" Hnn) as [i Ei].
    destruct (get_not_null parsed "themes" Hnn) as [t Et].
    destruct (get_not_null parsed "advice" Hnn) as [ad Ea].
    destruct (map_or_empty_ok symbol_of s Hs) as (ss & Ess & Fs).
    { intros j Hj. unfold symbol_of.
      destruct (get_not_null j "name" Hj) as [? ->].
      destruct (get_not_null j "meaning" Hj) as [? ->].
      destruct (get_not_null j "significance" Hj) as [? ->]. discriminate. }
    destruct (map_or_empty_ok emotion_of e He) as (es & Ees & Fe).
    { intros j Hj. unfold emotion_of.
      destruct (get_not_null j "name" Hj) as [? ->].
      destruct (get_not_null j "intensity" Hj) as [? ->].
      destruct (get_not_null j "color" Hj) as [? ->]. discriminate. }
    cbv [analyzeDream bind try_catch service emit ret raise lift text_json].
    rewrite Hmsg. cbv beta iota. cbn [w_svc]. rewrite Hsvc. cbv beta iota.
    unfold parse_analysis. rewrite Ei, Es, Ee, Et, Ea, Ess, Ees.
    eexists. eexists. split; [reflexivity|].
    unfold analysis_defaults. rewrite Ei, Es, Ee, Et, Ea. simpl.
    split; [|split; [|split; [|split]]].
    + intros v Hv Hf. injection Hv as <-. now apply or_default_falsy.
    + intros v Hv Hn. injection Hv as <-.
      destruct t as [[| | | | l |]|]; try reflexivity. now destruct (Hn l).
    + intros v Hv Hf. injection Hv as <-. now apply or_default_falsy.
    + eapply Forall2_impl; [|exact Fs]. intros j y H. exact (symbol_of_defaults j y H).
    + eapply Forall2_impl; [|exact Fe]. intros j y H. exact (emotion_of_defaults j y H).
  - intros Hshape.
    assert (Hp : parse_analysis parsed = None).
    { apply parse_analysis_bad_shape. exact Hshape. }
    cbv [analyzeDream bind try_catch service emit ret raise lift text_json].
    rewrite Hmsg. cbv beta iota. cbn [w_svc]. rewrite Hsvc. cbv beta iota.
    rewrite Hp. reflexivity.
Qed.

Definition sample_response : json :=
  JObj [("interpretation", JStr "");
        ("symbols", JArr [JObj [("name", JStr "water"); ("significance", JStr "huge")]]);
        ("emotions", JArr [JObj [("name", JStr "awe"); ("intensity", JNum 140)];
                           JObj [("intensity", JStr "high")]])].

Lemma analyzeDream_defaults_witness :
  message_ok (Some (JStr "I walked into the sea.")) (Some (JStr "calm"))
             (JArr [JStr "ocean"; JNull]) = true /\
  w_svc (analysis_world sample_response) = R_text (Some sample_response) :: [] /\
  analysis_shape_ok sample_response = true /\
  exists a w', analyzeDream (Some (JStr "I walked into the sea.")) (Some (JStr "calm"))
                 (JBool false) (JArr [JStr "ocean"; JNull])
                 (analysis_world sample_response) = (Ok a, w') /\
               analysis_defaults sample_response a.
Proof.
  split; [vm_compute; reflexivity|]. split; [reflexivity|].
  assert (Hs : analysis_shape_ok sample_response = true) by (vm_compute; reflexivity).
  split; [exact Hs|].
  apply (proj1 (analyzeDream_defaults (Some (JStr "I walked into the sea.")) (Some (JStr "calm"))
                  (JBool false) (JArr [JStr "ocean"; JNull]) sample_response
                  (analysis_world sample_response) [] ltac:(vm_compute; reflexivity) eq_refl) Hs).
Defined.

End AnalysisClaims.

(* ========================================================================= *)
(** * Further properties of the code *)

(* ------------------------------------------------------------------------- *)
(** ** Similarity scores and random picks *)

Module SimFacts.
Import Str Fresh Notions SortFacts.

Lemma qmax_l a b : a <= qmax a b.
Proof.
  unfold qmax. destruct (Qlt_bool a b) eqn:E; [|apply Qle_refl].
  apply Qlt_le_weak. now apply Qlt_bool_iff.
Qed.

Lemma qmax_r a b : b <= qmax a b.
Proof.
  unfold qmax. destruct (Qlt_bool a b) eqn:E; [apply Qle_refl|].
  apply Qnot_lt_le. intros H. apply Qlt_bool_iff in H. congruence.
Qed.

Lemma qmax_lub a b c : a <= c -> b <= c -> qmax a b <= c.
Proof. unfold qmax. destruct (Qlt_bool a b); auto. Qed.

Section FoldMax.
Context {A : Type}.
Variable f : A -> Q.

Lemma fold_qmax_init l init : init <= fold_left (fun m x => qmax m (f x)) l init.
Proof.
  revert init; induction l as [|x l IH]; intros init; simpl; [apply Qle_refl|].
  apply Qle_trans with (qmax init (f x)); [apply qmax_l | apply IH].
Qed.

Lemma fold_qmax_elem l init x : In x l -> f x <= fold_left (fun m y => qmax m (f y)) l init.
Proof.
  revert init; induction l as [|y l IH]; intros init Hx; simpl; [destruct Hx|].
  destruct Hx as [Hyx|Hx]; [subst y|now apply IH].
  apply Qle_trans with (qmax init (f x)); [apply qmax_r | apply fold_qmax_init].
Qed.

Lemma fold_qmax_lub l init c :
  init <= c -> (forall x, In x l -> f x <= c) -> fold_left (fun m x => qmax m (f x)) l init <= c.
Proof.
  revert init; induction l as [|x l IH]; intros init Hi Hl; simpl; [exact Hi|].
  apply IH; [apply qmax_lub; [exact Hi | apply Hl; now left] | intros y Hy; apply Hl; now right].
Qed.

End FoldMax.

Lemma pos_of_nat_Z m : (1 <= m)%nat -> Z.pos (Pos.of_nat m) = Z.of_nat m.
Proof. intros H. rewrite <- (Nat2Pos.id m) at 2 by lia. symmetry. apply positive_nat_Z. Qed.

Lemma word_overlap_bounds a b : 0 <= word_overlap a b /\ word_overlap a b <= 1.
Proof.
  unfold word_overlap, Qle; simpl. split; [lia|].
  rewrite pos_of_nat_Z by lia.
  pose proof (filter_length_le
                (fun w => existsb (fun rw => includes rw w || includes w rw) b) a).
  lia.
Qed.

Lemma is_prefix_refl s : is_prefix s s = true.
Proof. induction s; simpl; [reflexivity|]. now rewrite Ascii.eqb_refl. Qed.

Lemma includes_refl s : includes s s = true.
Proof. destruct s; simpl; [reflexivity|]. now rewrite Ascii.eqb_refl, is_prefix_refl. Qed.

Lemma split_ws_aux_nonempty acc b s : split_ws_aux acc b s <> [].
Proof.
  revert acc b; induction s as [|c s IH]; intros acc b; simpl; [discriminate|].
  destruct (is_ws c); [destruct b; [apply IH | discriminate] | apply IH].
Qed.

Lemma word_overlap_self ws : ws <> [] -> word_overlap ws ws == 1.
Proof.
  intros Hne. unfold word_overlap.
  rewrite (forallb_filter_id _ ws).
  - unfold Qeq; simpl. rewrite pos_of_nat_Z by (destruct ws; [congruence | simpl; lia]).
    destruct ws; [congruence | simpl; lia].
  - apply forallb_forall. intros w Hw. apply existsb_exists. exists w.
    split; [exact Hw | now rewrite includes_refl].
Qed.

Lemma rand_index_exact i n : (i < n)%nat -> rand_index (Z.of_nat i # Pos.of_nat n) n = i.
Proof.
  intros H. unfold rand_index.
  assert (Hq : (Z.of_nat i # Pos.of_nat n) * inject_Z (Z.of_nat n) == inject_Z (Z.of_nat i)).
  { unfold Qeq, Qmult, inject_Z; simpl. rewrite Pos.mul_1_r, pos_of_nat_Z by lia. lia. }
  rewrite (Qfloor_comp _ _ Hq), Qfloor_Z. apply Nat2Z.id.
Qed.

Lemma index_draw_range i n : (i < n)%nat ->
  0 <= (Z.of_nat i # Pos.of_nat n) /\ (Z.of_nat i # Pos.of_nat n) < 1.
Proof. intros H. unfold Qle, Qlt; simpl. rewrite pos_of_nat_Z by lia. lia. Qed.

Lemma item_sim_bounds recentlyUsed y :
  0 <= candidate_similarity recentlyUsed y /\ candidate_similarity recentlyUsed y <= 1.
Proof.
  unfold candidate_similarity, item_similarity. split.
  - apply fold_qmax_init.
  - apply fold_qmax_lub; [discriminate | intros x _; apply word_overlap_bounds].
Qed.

Lemma topic_sim_bounds topic usedTopics :
  0 <= topicSimilarity topic usedTopics /\ topicSimilarity topic usedTopics <= 1.
Proof.
  unfold topicSimilarity. split.
  - apply fold_qmax_init.
  - apply fold_qmax_lub; [discriminate | intros x _; apply word_overlap_bounds].
Qed.

Lemma item_sim_repeated recentlyUsed y :
  In (lower y) (map lower recentlyUsed) -> candidate_similarity recentlyUsed y == 1.
Proof.
  intros H. apply Qle_antisym; [apply item_sim_bounds|].
  unfold candidate_similarity, item_similarity.
  set (W := split_ws (list_ascii_of_string (lower y))).
  apply Qle_trans with (word_overlap W W).
  - rewrite word_overlap_self; [apply Qle_refl | apply split_ws_aux_nonempty].
  - exact (fold_qmax_elem (fun recent => word_overlap W (split_ws (list_ascii_of_string recent)))
             _ 0 (lower y) H).
Qed.

Lemma topic_sim_repeated topic usedTopics :
  In (lower topic) usedTopics -> topicSimilarity topic usedTopics == 1.
Proof.
  intros H. apply Qle_antisym; [apply topic_sim_bounds|].
  unfold topicSimilarity.
  set (W := split_ws (list_ascii_of_string (lower topic))).
  apply Qle_trans with (word_overlap W W).
  - rewrite word_overlap_self; [apply Qle_refl | apply split_ws_aux_nonempty].
  - exact (fold_qmax_elem (fun used => word_overlap W (split_ws (list_ascii_of_string used)))
             _ 0 (lower topic) H).
Qed.

(** Picking [nth_error l (rand_index r (length l))] from a non-empty list. *)
Lemma pick_in {A} (l : list A) r :
  l <> [] -> 0 <= r -> r < 1 ->
  exists x, nth_error l (rand_index r (length l)) = Some x /\ In x l.
Proof.
  intros Hne H0 H1.
  assert (Hi : (rand_index r (length l) < length l)%nat)
    by (apply rand_index_lt; auto; destruct l; [congruence | simpl; lia]).
  destruct (nth_error l (rand_index r (length l))) as [x|] eqn:E;
    [|apply nth_error_Some in Hi; contradiction].
  exists x. split; [reflexivity | eapply nth_error_In; eauto].
Qed.

Lemma pick_reachable {A} (l : list A) x :
  In x l -> exists r, 0 <= r /\ r < 1 /\ nth_error l (rand_index r (length l)) = Some x.
Proof.
  intros Hx. apply In_nth_error in Hx as [i Hi].
  assert (Hlt : (i < length l)%nat) by (apply nth_error_Some; congruence).
  exists (Z.of_nat i # Pos.of_nat (length l)).
  destruct (index_draw_range i (length l) Hlt) as [H0 H1].
  split; [exact H0|]. split; [exact H1|]. now rewrite rand_index_exact.
Qed.

Lemma in_firstn_l {A} n (l : list A) x : In x (firstn n l) -> In x l.
Proof. intros H. rewrite <- (firstn_skipn n l). apply in_or_app. now left. Qed.

Lemma scored_fst_in {B} (items : list string) (g : string -> B) q :
  In q (map (fun x => (x, g x)) items) -> In (fst q) items.
Proof. intros H. apply in_map_iff in H as (x & <- & Hx). exact Hx. Qed.

Lemma selectFreshItem_pool (items recentlyUsed : list string) (fallbackRandom : bool) (r : Q) :
  items <> [] -> 0 <= r -> r < 1 ->
  exists x, selectFreshItem items recentlyUsed fallbackRandom r = Some x /\ In x items.
Proof.
  intros Hne H0 H1. unfold selectFreshItem.
  set (scored := scoreItems items recentlyUsed).
  assert (Hsc : forall q, In q scored -> In (fst q) items) by (apply scored_fst_in).
  destruct (filter (fun s => Qlt_bool (snd s) fresh_threshold) scored) as [|p fresh] eqn:Hf.
  - destruct fallbackRandom.
    + set (top := firstn (Nat.min 5 (length scored)) (sort_by_sim scored)).
      assert (Htop : top <> []).
      { unfold top. assert (Hl : length (sort_by_sim scored) = length scored)
          by (symmetry; apply Permutation_length, sort_by_sim_perm).
        destruct (sort_by_sim scored) as [|a l] eqn:Es.
        - exfalso. unfold scored, scoreItems in Hl. rewrite length_map in Hl.
          destruct items; [congruence | discriminate].
        - rewrite <- Hl. simpl. destruct (length l); discriminate. }
      destruct (pick_in top r Htop H0 H1) as (q & Hq & Hqin). rewrite Hq. exists (fst q).
      split; [reflexivity|]. apply Hsc. apply (Permutation_in _ (Permutation_sym (sort_by_sim_perm scored))).
      exact (in_firstn_l _ _ _ Hqin).
    + unfold getRandomItem. destruct (pick_in items r Hne H0 H1) as (x & Hx & Hin).
      exists x. split; [exact Hx | exact Hin].
  - destruct (pick_in (p :: fresh) r ltac:(discriminate) H0 H1) as (q & Hq & Hqin).
    rewrite Hq. exists (fst q). split; [reflexivity|].
    rewrite <- Hf in Hqin. apply filter_In in Hqin as [Hqin _]. exact (Hsc q Hqin).
Qed.

Lemma pickEducationalTopic_pool (allTopics usedTopics : list string) (r : Q) :
  allTopics <> [] -> 0 <= r -> r < 1 ->
  exists t, pickEducationalTopic allTopics usedTopics r = Some t /\ In t allTopics.
Proof.
  intros Hne H0 H1. unfold pickEducationalTopic.
  set (scored := scoreTopics allTopics usedTopics).
  assert (Hsc : forall q, In q scored -> In (fst q) allTopics) by (apply scored_fst_in).
  destruct (filter (fun t => Qlt_bool (snd t) topic_threshold) scored) as [|p fresh] eqn:Hf.
  - assert (Hl : length (sort_by_sim scored) = length scored)
      by (symmetry; apply Permutation_length, sort_by_sim_perm).
    destruct (sort_by_sim scored) as [|q l] eqn:Es.
    + exfalso. unfold scored, scoreTopics in Hl. rewrite length_map in Hl.
      destruct allTopics; [congruence | discriminate].
    + exists (fst q). split; [reflexivity|]. apply Hsc.
      apply (Permutation_in _ (Permutation_sym (sort_by_sim_perm scored))). rewrite Es. now left.
  - destruct (pick_in (p :: fresh) r ltac:(discriminate) H0 H1) as (q & Hq & Hqin).
    rewrite Hq. exists (fst q). split; [reflexivity|].
    rewrite <- Hf in Hqin. apply filter_In in Hqin as [Hqin _]. exact (Hsc q Hqin).
Qed.

End SimFacts.

Module FreshExtras.
Import Str Fresh Notions SortFacts SimFacts.

(** Every similarity score [selectFreshItem] and [topicSimilarity] compute
    lies between 0 and 1. *)
Theorem similarity_in_unit_interval (recentlyUsed : list string) (item topic : string)
    (usedTopics : list string) :
  (0 <= candidate_similarity recentlyUsed item /\ candidate_similarity recentlyUsed item <= 1) /\
  (0 <= topicSimilarity topic usedTopics /\ topicSimilarity topic usedTopics <= 1).
Proof. split; [apply item_sim_bounds | apply topic_sim_bounds]. Qed.

(** A candidate that occurs in the recently-used history (up to case) has
    similarity 1 in [selectFreshItem]. *)
Theorem candidate_similarity_repeated (recentlyUsed : list string) (item : string) :
  In (lower item) (map lower recentlyUsed) -> candidate_similarity recentlyUsed item == 1.
Proof. apply item_sim_repeated. Qed.

Lemma candidate_similarity_repeated_witness :
  In (lower "A Forest at Twilight") (map lower ["a forest AT twilight"]) /\
  candidate_similarity ["a forest AT twilight"] "A Forest at Twilight" == 1.
Proof.
  split; [vm_compute; left; reflexivity|].
  apply candidate_similarity_repeated. vm_compute. left. reflexivity.
Defined.

(** A topic whose lower-cased text occurs among the used topics has
    similarity 1 in [topicSimilarity]. *)
Theorem topicSimilarity_repeated (topic : string) (usedTopics : list string) :
  In (lower topic) usedTopics -> topicSimilarity topic usedTopics == 1.
Proof. apply topic_sim_repeated. Qed.

Lemma topicSimilarity_repeated_witness :
  In (lower "Sleep Cycles Explained") ["sleep cycles explained"; "rem"] /\
  topicSimilarity "Sleep Cycles Explained" ["sleep cycles explained"; "rem"] == 1.
Proof.
  split; [vm_compute; left; reflexivity|].
  apply topicSimilarity_repeated. vm_compute. left. reflexivity.
Defined.

(** As long as one candidate scores below 0.3, [selectFreshItem] returns a
    candidate of the pool scoring below 0.3, which is never one of the
    recently used items (compared case-insensitively). *)
Theorem selectFreshItem_avoids_recent (items recentlyUsed : list string) (fallbackRandom : bool)
    (r : Q) (y : string) :
  In y items -> candidate_similarity recentlyUsed y < fresh_threshold -> 0 <= r -> r < 1 ->
  exists x, selectFreshItem items recentlyUsed fallbackRandom r = Some x /\ In x items /\
    candidate_similarity recentlyUsed x < fresh_threshold /\
    ~ In (lower x) (map lower recentlyUsed).
Proof.
  intros Hy Hs H0 H1. unfold selectFreshItem.
  set (scored := scoreItems items recentlyUsed).
  assert (Hin : In (y, candidate_similarity recentlyUsed y)
                  (filter (fun s => Qlt_bool (snd s) fresh_threshold) scored)).
  { apply filter_In. split; [|now apply Qlt_bool_iff].
    unfold scored, scoreItems. apply in_map_iff. exists y. split; [reflexivity | exact Hy]. }
  destruct (filter (fun s => Qlt_bool (snd s) fresh_threshold) scored) as [|p fresh] eqn:Hf;
    [destruct Hin|].
  destruct (pick_in (p :: fresh) r ltac:(discriminate) H0 H1) as (q & Hq & Hqin).
  rewrite Hq. rewrite <- Hf in Hqin. apply filter_In in Hqin as [Hq1 Hq2].
  unfold scored, scoreItems in Hq1. apply in_map_iff in Hq1 as (x & Hx & Hxin). subst q.
  apply Qlt_bool_iff in Hq2. simpl in Hq2.
  exists x. split; [reflexivity|]. split; [exact Hxin|]. split; [exact Hq2|].
  intros Hr. pose proof (item_sim_repeated _ _ Hr) as E.
  unfold candidate_similarity in E. rewrite E in Hq2. discriminate Hq2.
Qed.

Lemma selectFreshItem_avoids_recent_witness :
  In "sunny beach" ["dark forest"; "sunny beach"] /\
  candidate_similarity ["Dark Forest"] "sunny beach" < fresh_threshold /\
  exists x, selectFreshItem ["dark forest"; "sunny beach"] ["Dark Forest"] true (1 # 2) = Some x /\
    In x ["dark forest"; "sunny beach"] /\
    candidate_similarity ["Dark Forest"] x < fresh_threshold /\
    ~ In (lower x) (map lower ["Dark Forest"]).
Proof.
  assert (Hin : In "sunny beach" ["dark forest"; "sunny beach"]) by (simpl; right; left; reflexivity).
  assert (Hs : candidate_similarity ["Dark Forest"] "sunny beach" < fresh_threshold)
    by (vm_compute; reflexivity).
  split; [exact Hin|]. split; [exact Hs|].
  apply (selectFreshItem_avoids_recent _ _ true (1 # 2) _ Hin Hs);
    [vm_compute; discriminate | vm_compute; reflexivity].
Defined.

(** As long as one topic scores below 0.5, [getRandomEducationalTopic]
    returns a topic of the pool scoring below 0.5, whose lower-cased text is
    not among the used topics. *)
Theorem pickEducationalTopic_avoids_used (allTopics usedTopics : list string) (r : Q) (y : string) :
  In y allTopics -> topicSimilarity y usedTopics < topic_threshold -> 0 <= r -> r < 1 ->
  exists t, pickEducationalTopic allTopics usedTopics r = Some t /\ In t allTopics /\
    topicSimilarity t usedTopics < topic_threshold /\ ~ In (lower t) usedTopics.
Proof.
  intros Hy Hs H0 H1. unfold pickEducationalTopic.
  set (scored := scoreTopics allTopics usedTopics).
  assert (Hin : In (y, topicSimilarity y usedTopics)
                  (filter (fun s => Qlt_bool (snd s) topic_threshold) scored)).
  { apply filter_In. split; [|now apply Qlt_bool_iff].
    unfold scored, scoreTopics. apply in_map_iff. exists y. split; [reflexivity | exact Hy]. }
  destruct (filter (fun s => Qlt_bool (snd s) topic_threshold) scored) as [|p fresh] eqn:Hf;
    [destruct Hin|].
  destruct (pick_in (p :: fresh) r ltac:(discriminate) H0 H1) as (q & Hq & Hqin).
  rewrite Hq. rewrite <- Hf in Hqin. apply filter_In in Hqin as [Hq1 Hq2].
  unfold scored, scoreTopics in Hq1. apply in_map_iff in Hq1 as (x & Hx & Hxin). subst q.
  apply Qlt_bool_iff in Hq2. simpl in Hq2.
  exists x. split; [reflexivity|]. split; [exact Hxin|]. split; [exact Hq2|].
  intros Hr. pose proof (topic_sim_repeated _ _ Hr) as E.
  rewrite E in Hq2. discriminate Hq2.
Qed.

Lemma pickEducationalTopic_avoids_used_witness :
  In "The Role of Dreams in Memory Consolidation" Pools.dream_science_topics /\
  topicSimilarity "The Role of Dreams in Memory Consolidation" ["rem sleep and dream formation"]
    < topic_threshold /\
  exists t, pickEducationalTopic Pools.dream_science_topics ["rem sleep and dream formation"] (1 # 3)
              = Some t /\ In t Pools.dream_science_topics /\
    topicSimilarity t ["rem sleep and dream formation"] < topic_threshold /\
    ~ In (lower t) ["rem sleep and dream formation"].
Proof.
  assert (Hin : In "The Role of Dreams in Memory Consolidation" Pools.dream_science_topics)
    by (simpl; right; right; left; reflexivity).
  assert (Hs : topicSimilarity "The Role of Dreams in Memory Consolidation"
                 ["rem sleep and dream formation"] < topic_threshold) by (vm_compute; reflexivity).
  split; [exact Hin|]. split; [exact Hs|].
  apply (pickEducationalTopic_avoids_used _ _ (1 # 3) _ Hin Hs);
    [vm_compute; discriminate | vm_compute; reflexivity].
Defined.

(** On a non-empty array, [getRandomItem] returns an element of the array
    for every draw of [Math.random()] in [0, 1), and each element is returned
    for some draw. *)
Theorem getRandomItem_in_and_reachable {A} (arr : list A) :
  arr <> [] ->
  (forall r, 0 <= r -> r < 1 -> exists x, getRandomItem arr r = Some x /\ In x arr) /\
  (forall x, In x arr -> exists r, 0 <= r /\ r < 1 /\ getRandomItem arr r = Some x).
Proof.
  intros Hne. split.
  - intros r H0 H1. unfold getRandomItem. now apply pick_in.
  - intros x Hx. unfold getRandomItem. now apply pick_reachable.
Qed.

Lemma getRandomItem_in_and_reachable_witness :
  Pools.DREAM_THEMES <> [] /\
  ((forall r, 0 <= r -> r < 1 ->
     exists x, getRandomItem Pools.DREAM_THEMES r = Some x /\ In x Pools.DREAM_THEMES) /\
   (forall x, In x Pools.DREAM_THEMES ->
     exists r, 0 <= r /\ r < 1 /\ getRandomItem Pools.DREAM_THEMES r = Some x)).
Proof.
  assert (H : Pools.DREAM_THEMES <> []) by discriminate.
  split; [exact H | apply (getRandomItem_in_and_reachable Pools.DREAM_THEMES H)].
Defined.

Lemma option_map_fst_nth_error_zero {A} (l : list A) k :
  option_map fst (nth_error (map (fun x => (x, 0)) l) k) = nth_error l k.
Proof. rewrite nth_error_map. now destruct (nth_error l k). Qed.

(** With an empty history, both selectors draw uniformly from the whole pool:
    [selectFreshItem items []] and the topic choice of
    [getRandomEducationalTopic] with no used topic are [getRandomItem]. *)
Theorem selectors_without_history (items allTopics : list string) (fallbackRandom : bool) (r : Q) :
  selectFreshItem items [] fallbackRandom r = getRandomItem items r /\
  pickEducationalTopic allTopics [] r = getRandomItem allTopics r.
Proof.
  split.
  - unfold selectFreshItem, scoreItems, getRandomItem, item_similarity. simpl fold_left.
    assert (Hf : filter (fun s : string * Q => Qlt_bool (snd s) fresh_threshold)
                   (map (fun x => (x, 0)) items) = map (fun x => (x, 0)) items).
    { apply forallb_filter_id. apply forallb_forall. intros x Hx.
      apply in_map_iff in Hx as (y & <- & _). reflexivity. }
    rewrite Hf. destruct items as [|i items'].
    + destruct fallbackRandom; simpl; rewrite !nth_error_nil; reflexivity.
    + simpl map at 1. cbv iota. rewrite length_map.
      apply (option_map_fst_nth_error_zero (i :: items')).
  - unfold pickEducationalTopic, scoreTopics, getRandomItem, topicSimilarity. simpl fold_left.
    assert (Hf : filter (fun t : string * Q => Qlt_bool (snd t) topic_threshold)
                   (map (fun x => (x, 0)) allTopics) = map (fun x => (x, 0)) allTopics).
    { apply forallb_filter_id. apply forallb_forall. intros x Hx.
      apply in_map_iff in Hx as (y & <- & _). reflexivity. }
    rewrite Hf. destruct allTopics as [|t ts]; [simpl; rewrite nth_error_nil; reflexivity|].
    simpl map at 1. cbv iota. rewrite length_map.
    apply (option_map_fst_nth_error_zero (t :: ts)).
Qed.

(** Every candidate of the pool scoring below 0.3 against the history is
    returned by [selectFreshItem] for some draw of [Math.random()]. *)
Theorem selectFreshItem_fresh_reachable (items recentlyUsed : list string) (fallbackRandom : bool)
    (x : string) :
  In x items -> candidate_similarity recentlyUsed x < fresh_threshold ->
  exists r, 0 <= r /\ r < 1 /\ selectFreshItem items recentlyUsed fallbackRandom r = Some x.
Proof.
  intros Hx Hs. unfold selectFreshItem.
  set (fresh := filter (fun s => Qlt_bool (snd s) fresh_threshold) (scoreItems items recentlyUsed)).
  assert (Hin : In (x, candidate_similarity recentlyUsed x) fresh).
  { unfold fresh. apply filter_In. split; [|now apply Qlt_bool_iff].
    unfold scoreItems. apply in_map_iff. exists x. split; [reflexivity | exact Hx]. }
  destruct (pick_reachable fresh _ Hin) as (r & H0 & H1 & Hr).
  exists r. split; [exact H0|]. split; [exact H1|].
  destruct fresh as [|p l]; [destruct Hin|]. rewrite Hr. reflexivity.
Qed.

Lemma selectFreshItem_fresh_reachable_witness :
  In "sunny beach" ["dark forest"; "sunny beach"] /\
  candidate_similarity ["Dark Forest"] "sunny beach" < fresh_threshold /\
  exists r, 0 <= r /\ r < 1 /\
    selectFreshItem ["dark forest"; "sunny beach"] ["Dark Forest"] false r = Some "sunny beach".
Proof.
  assert (Hin : In "sunny beach" ["dark forest"; "sunny beach"]) by (simpl; right; left; reflexivity).
  assert (Hs : candidate_similarity ["Dark Forest"] "sunny beach" < fresh_threshold)
    by (vm_compute; reflexivity).
  split; [exact Hin|]. split; [exact Hs|].
  apply (selectFreshItem_fresh_reachable _ _ false _ Hin Hs).
Defined.

(** Every topic of the pool scoring below 0.5 against the used topics is
    returned by [getRandomEducationalTopic] for some draw of [Math.random()]. *)
Theorem pickEducationalTopic_fresh_reachable (allTopics usedTopics : list string) (t : string) :
  In t allTopics -> topicSimilarity t usedTopics < topic_threshold ->
  exists r, 0 <= r /\ r < 1 /\ pickEducationalTopic allTopics usedTopics r = Some t.
Proof.
  intros Ht Hs. unfold pickEducationalTopic.
  set (fresh := filter (fun s => Qlt_bool (snd s) topic_threshold) (scoreTopics allTopics usedTopics)).
  assert (Hin : In (t, topicSimilarity t usedTopics) fresh).
  { unfold fresh. apply filter_In. split; [|now apply Qlt_bool_iff].
    unfold scoreTopics. apply in_map_iff. exists t. split; [reflexivity | exact Ht]. }
  destruct (pick_reachable fresh _ Hin) as (r & H0 & H1 & Hr).
  exists r. split; [exact H0|]. split; [exact H1|].
  destruct fresh as [|p l]; [destruct Hin|]. rewrite Hr. reflexivity.
Qed.

Lemma pickEducationalTopic_fresh_reachable_witness :
  In "The Role of Dreams in Memory Consolidation" Pools.dream_science_topics /\
  topicSimilarity "The Role of Dreams in Memory Consolidation" ["rem sleep and dream formation"]
    < topic_threshold /\
  exists r, 0 <= r /\ r < 1 /\
    pickEducationalTopic Pools.dream_science_topics ["rem sleep and dream formation"] r
      = Some "The Role of Dreams in Memory Consolidation".
Proof.
  assert (Hin : In "The Role of Dreams in Memory Consolidation" Pools.dream_science_topics)
    by (simpl; right; right; left; reflexivity).
  assert (Hs : topicSimilarity "The Role of Dreams in Memory Consolidation"
                 ["rem sleep and dream formation"] < topic_threshold) by (vm_compute; reflexivity).
  split; [exact Hin|]. split; [exact Hs|].
  apply (pickEducationalTopic_fresh_reachable _ _ _ Hin Hs).
Defined.

(** On a non-empty pool and for a draw of [Math.random()] in [0, 1),
    [selectFreshItem] always returns an element of the pool, on each of its
    three paths (fresh candidates, the five least similar ones, or
    [getRandomItem]). *)
Theorem selectFreshItem_in_pool (items recentlyUsed : list string) (fallbackRandom : bool) (r : Q) :
  items <> [] -> 0 <= r -> r < 1 ->
  exists x, selectFreshItem items recentlyUsed fallbackRandom r = Some x /\ In x items.
Proof. apply selectFreshItem_pool. Qed.

Lemma selectFreshItem_in_pool_witness :
  Pools.DREAM_SETTINGS <> [] /\ 0 <= 1 # 2 /\ 1 # 2 < 1 /\
  exists x, selectFreshItem Pools.DREAM_SETTINGS Pools.DREAM_SETTINGS true (1 # 2) = Some x /\
    In x Pools.DREAM_SETTINGS.
Proof.
  assert (H : Pools.DREAM_SETTINGS <> []) by discriminate.
  assert (H0 : 0 <= 1 # 2) by (vm_compute; discriminate).
  assert (H1 : 1 # 2 < 1) by (vm_compute; reflexivity).
  split; [exact H|]. split; [exact H0|]. split; [exact H1|].
  apply (selectFreshItem_in_pool _ _ true _ H H0 H1).
Defined.

(** On a non-empty pool and for a draw in [0, 1), the topic choice of
    [getRandomEducationalTopic] always returns a topic of the pool, whether
    some topic is fresh or the least similar one is taken. *)
Theorem pickEducationalTopic_in_pool (allTopics usedTopics : list string) (r : Q) :
  allTopics <> [] -> 0 <= r -> r < 1 ->
  exists t, pickEducationalTopic allTopics usedTopics r = Some t /\ In t allTopics.
Proof. apply pickEducationalTopic_pool. Qed.

Lemma pickEducationalTopic_in_pool_witness :
  Pools.sleep_tips_topics <> [] /\ 0 <= 0 /\ 0 < 1 /\
  exists t, pickEducationalTopic Pools.sleep_tips_topics (map lower Pools.sleep_tips_topics) 0
              = Some t /\ In t Pools.sleep_tips_topics.
Proof.
  assert (H : Pools.sleep_tips_topics <> []) by discriminate.
  assert (H0 : 0 <= 0) by (vm_compute; discriminate).
  assert (H1 : 0 < 1) by (vm_compute; reflexivity).
  split; [exact H|]. split; [exact H0|]. split; [exact H1|].
  apply (pickEducationalTopic_in_pool _ _ _ H H0 H1).
Defined.

End FreshExtras.

Module PipelineExtras.
Import Json Build Category Effects Pipeline Invariants SimFacts.

Lemma bind_step {A B} (m : M A) (f : A -> M B) w a w1 :
  m w = (Ok a, w1) -> bind m f w = f a w1.
Proof. intros E. unfold bind. rewrite E. reflexivity. Qed.

Lemma db_history_step w :
  exists h w1, db_history w = (Ok h, w1) /\ w_svc w1 = w_svc w /\ w_rand w1 = w_rand w.
Proof. unfold db_history. destruct (w_db w) as [|[h|] rest]; eauto. Qed.

Lemma random_step w :
  draws_ok w ->
  exists r w1, random w = (Ok r, w1) /\ 0 <= r /\ r < 1 /\ draws_ok w1 /\ w_svc w1 = w_svc w.
Proof.
  unfold draws_ok, random. intros H. destruct (w_rand w) as [|r rest] eqn:E.
  - exists 0, w. split; [reflexivity|]. rewrite E. split; [discriminate|]. split; [reflexivity|].
    split; [constructor | reflexivity].
  - inversion H as [|? ? [H0 H1] Hr]; subst. exists r. eexists. split; [reflexivity|].
    split; [exact H0|]. split; [exact H1|]. split; [exact Hr | reflexivity].
Qed.

Lemma validate_own_str_ok (s : string) title cat name w :
  STRICT_CATEGORY_DEFINITIONS cat = Own name ->
  exists v, fst (validateCategoryFit (Some (JStr s)) title cat w) = Ok v.
Proof.
  intros Hcat.
  cbv [validateCategoryFit bind try_catch service emit ret raise lift text_json].
  rewrite Hcat. cbv beta iota. cbn [w_svc].
  destruct (w_svc w) as [|rp rest]; [eexists; reflexivity|].
  destruct rp as [| |[j|]]; try (eexists; reflexivity).
  destruct (verdict_of j); eexists; reflexivity.
Qed.

Lemma validate_own_nonstr content title cat name w :
  STRICT_CATEGORY_DEFINITIONS cat = Own name -> (forall s, content <> Some (JStr s)) ->
  validateCategoryFit content title cat w = (Err TypeError, snd (emit (Ev_validate cat) w)).
Proof.
  intros Hcat Hc. cbv [validateCategoryFit bind emit raise]. rewrite Hcat.
  destruct content as [[]|]; try reflexivity. exfalso. eapply Hc. reflexivity.
Qed.
Lemma validate_own_warning_ok (s : string) title cat name w :
  STRICT_CATEGORY_DEFINITIONS cat = Own name -> Notions.reply_fields_ok (w_svc w) = true ->
  exists v w', validateCategoryFit (Some (JStr s)) title cat w = (Ok v, w') /\ warning_ok v = true.
Proof.
  intros Hcat Hrf.
  cbv [validateCategoryFit bind try_catch service emit ret raise lift text_json].
  rewrite Hcat. cbv beta iota. cbn [w_svc].
  destruct (w_svc w) as [|rp rest]; [do 2 eexists; split; reflexivity|].
  destruct rp as [| |[j|]]; try (do 2 eexists; split; reflexivity).
  unfold Notions.reply_fields_ok in Hrf. unfold verdict_of.
  destruct (get j "isValid") as [iv|], (get j "confidence") as [c|],
    (get j "suggestedCategory") as [sc|], (get j "reason") as [rs|];
    try (do 2 eexists; split; reflexivity).
  destruct (js_and iv c) as [v|]; [|do 2 eexists; split; reflexivity].
  do 2 eexists. split; [reflexivity|]. unfold warning_ok. cbn [suggestedCategory reason].
  rewrite Hrf. apply orb_true_r.
Qed.


(** When every pending draw of [Math.random()] lies in [0, 1),
    [getRandomEducationalTopic] never fails and returns a topic of the
    category's pool, whatever the storage returns. *)
Theorem getRandomEducationalTopic_in_pool (c : Pools.EduCategory) (w : world) :
  draws_ok w ->
  exists t, fst (getRandomEducationalTopic c w) = Ok t /\ In t (Pools.EDUCATIONAL_TOPICS c).
Proof.
  intros Hd. unfold getRandomEducationalTopic, getUsedTopics.
  destruct (db_history_step w) as (h & w1 & Eh & _ & Er).
  assert (Hd1 : draws_ok w1) by (unfold draws_ok; rewrite Er; exact Hd).
  unfold bind at 1. unfold bind at 1. rewrite Eh. cbv beta iota. cbv [ret].
  destruct (filter _ _) as [|f fs].
  - destruct (pickEducationalTopic_pool (Pools.EDUCATIONAL_TOPICS c) (h_titles h ++ h_topics h) 0
                ltac:(destruct c; discriminate) (Qle_refl 0) ltac:(reflexivity)) as (t & Et & Hin).
    cbv [lift]. rewrite Et. exists t. split; [reflexivity | exact Hin].
  - destruct (random_step w1 Hd1) as (r & w2 & Er2 & H0 & H1 & _ & _).
    rewrite (bind_step _ _ _ _ _ Er2).
    destruct (pickEducationalTopic_pool (Pools.EDUCATIONAL_TOPICS c) (h_titles h ++ h_topics h) r
                ltac:(destruct c; discriminate) H0 H1) as (t & Et & Hin).
    rewrite Et. exists t. split; [reflexivity | exact Hin].
Qed.

Lemma getRandomEducationalTopic_in_pool_witness :
  draws_ok (mkWorld [] [None] [] [3 # 4] [] [] false O) /\
  exists t, fst (getRandomEducationalTopic Pools.Symbolism (mkWorld [] [None] [] [3 # 4] [] [] false O))
              = Ok t /\ In t (Pools.EDUCATIONAL_TOPICS Pools.Symbolism).
Proof.
  assert (H : draws_ok (mkWorld [] [None] [] [3 # 4] [] [] false O))
    by (repeat constructor; vm_compute; discriminate).
  split; [exact H | apply (getRandomEducationalTopic_in_pool Pools.Symbolism _ H)].
Defined.

(** The choices of setting, theme and tone never make [generateDream]
    fail: when the draws lie in [0, 1) and the service answers with a
    parsed object, [generateDream] returns the dream built from that
    object, whatever the storage returns. *)
Theorem generateDream_returns_parsed (w : world) (parsed : json) (rest : list reply)
    (d : GeneratedDream) :
  draws_ok w -> w_svc w = R_text (Some parsed) :: rest -> dream_of parsed = Some d ->
  fst (generateDream w) = Ok d.
Proof.
  intros Hd Hs Hp. unfold generateDream, getRecentlyUsedDreamElements.
  destruct (db_history_step w) as (h & w1 & Eh & Es1 & Er).
  assert (Hd1 : draws_ok w1) by (unfold draws_ok; rewrite Er; exact Hd).
  rewrite (bind_step _ _ _ _ _ Eh).
  destruct (random_step w1 Hd1) as (r1 & w2 & E2 & A0 & A1 & Hd2 & Es2).
  rewrite (bind_step _ _ _ _ _ E2).
  destruct (selectFreshItem_pool Pools.DREAM_SETTINGS (h_settings h) true r1
              ltac:(discriminate) A0 A1) as (st & Est & _).
  rewrite Est. cbv [lift]. rewrite (bind_step _ _ _ _ _ (eq_refl : ret st w2 = (Ok st, w2))).
  destruct (random_step w2 Hd2) as (r2 & w3 & E3 & B0 & B1 & Hd3 & Es3).
  rewrite (bind_step _ _ _ _ _ E3).
  destruct (selectFreshItem_pool Pools.DREAM_THEMES (h_themes h) true r2
              ltac:(discriminate) B0 B1) as (th & Eth & _).
  rewrite Eth. rewrite (bind_step _ _ _ _ _ (eq_refl : ret th w3 = (Ok th, w3))).
  destruct (random_step w3 Hd3) as (r3 & w4 & E4 & _ & _ & _ & Es4).
  rewrite (bind_step _ _ _ _ _ E4).
  cbv [service bind emit text_json ret]. cbn [w_svc]. rewrite Es4, Es3, Es2, Es1, Hs.
  cbv beta iota. rewrite Hp. reflexivity.
Qed.

Definition dream_json : json :=
  JObj [("title", JStr "The Glass Orchard"); ("content", JStr "I walked between trees of glass.")].

Definition dream_world : world :=
  mkWorld [R_text (Some dream_json)] [None] [] [1 # 3; 2 # 3; 0] [] [] false O.

Lemma generateDream_returns_parsed_witness :
  draws_ok dream_world /\ w_svc dream_world = R_text (Some dream_json) :: [] /\
  dream_of dream_json =
    Some (mkGeneratedDream (Some (JStr "The Glass Orchard"))
            (Some (JStr "I walked between trees of glass.")) None (JArr []) (JBool false) None
            (JArr []) None) /\
  fst (generateDream dream_world) =
    Ok (mkGeneratedDream (Some (JStr "The Glass Orchard"))
          (Some (JStr "I walked between trees of glass.")) None (JArr []) (JBool false) None
          (JArr []) None).
Proof.
  assert (H : draws_ok dream_world) by (repeat constructor; vm_compute; first [discriminate | reflexivity]).
  assert (Hs : w_svc dream_world = R_text (Some dream_json) :: []) by reflexivity.
  assert (Hp : dream_of dream_json =
    Some (mkGeneratedDream (Some (JStr "The Glass Orchard"))
            (Some (JStr "I walked between trees of glass.")) None (JArr []) (JBool false) None
            (JArr []) None)) by (vm_compute; reflexivity).
  split; [exact H|]. split; [exact Hs|]. split; [exact Hp|].
  apply (generateDream_returns_parsed dream_world dream_json [] _ H Hs Hp).
Defined.

End PipelineExtras.

Module ValidatorExtras.
Import Json Build Category Effects Pipeline PipelineExtras.

(** A category without an own definition and without an inherited
    [Object.prototype] property is accepted as is: [validateCategoryFit]
    returns [{isValid: true}] at once, without calling the service. *)
Theorem validateCategoryFit_unknown_category (content title : option json) (cat : string) (w : world) :
  STRICT_CATEGORY_DEFINITIONS cat = Missing ->
  validateCategoryFit content title cat w = (Ok valid_verdict, snd (emit (Ev_validate cat) w)).
Proof. intros H. cbv [validateCategoryFit bind emit ret]. rewrite H. reflexivity. Qed.

Lemma validateCategoryFit_unknown_category_witness :
  STRICT_CATEGORY_DEFINITIONS "nightmares" = Missing /\
  validateCategoryFit (Some (JStr "A dark corridor")) None "nightmares" SchedulerClaims.fresh_world =
    (Ok valid_verdict, snd (emit (Ev_validate "nightmares") SchedulerClaims.fresh_world)).
Proof.
  assert (H : STRICT_CATEGORY_DEFINITIONS "nightmares" = Missing) by reflexivity.
  split; [exact H | apply (validateCategoryFit_unknown_category _ _ _ _ H)].
Defined.

(** For a defined category and string content, [validateCategoryFit] never
    throws: service failures, missing text, unparseable or [null] responses
    all end in a verdict. *)
Theorem validateCategoryFit_total (content : string) (title : option json) (cat name : string)
    (w : world) :
  STRICT_CATEGORY_DEFINITIONS cat = Own name ->
  exists v, fst (validateCategoryFit (Some (JStr content)) title cat w) = Ok v.
Proof. apply validate_own_str_ok. Qed.

Lemma validateCategoryFit_total_witness :
  STRICT_CATEGORY_DEFINITIONS "sleep-tips" = Own "Sleep Tips" /\
  exists v, fst (validateCategoryFit (Some (JStr "Keep a regular bedtime.")) None "sleep-tips"
                   (mkWorld [R_text (Some JNull)] [] [] [] [] [] false O)) = Ok v.
Proof.
  assert (H : STRICT_CATEGORY_DEFINITIONS "sleep-tips" = Own "Sleep Tips") by reflexivity.
  split; [exact H | apply (validateCategoryFit_total _ _ _ _ _ H)].
Defined.

(** The fail-open default: for a defined category and string content, when
    the service call is rejected (or no reply is left), gives no text block,
    or its text does not parse or parses to [null], the verdict is
    [{isValid: true}]. *)
Theorem validateCategoryFit_fail_open (content : string) (title : option json) (cat name : string)
    (w : world) :
  STRICT_CATEGORY_DEFINITIONS cat = Own name ->
  match w_svc w with
  | [] => True
  | rp :: _ => rp = R_throw \/ rp = R_notext \/ rp = R_text None \/ rp = R_text (Some JNull)
  end ->
  fst (validateCategoryFit (Some (JStr content)) title cat w) = Ok valid_verdict.
Proof.
  intros Hcat Hrp.
  cbv [validateCategoryFit bind try_catch service emit ret raise lift text_json].
  rewrite Hcat. cbv beta iota. cbn [w_svc].
  destruct (w_svc w) as [|rp rest]; [reflexivity|].
  destruct Hrp as [-> | [-> | [-> | ->]]]; reflexivity.
Qed.

Lemma validateCategoryFit_fail_open_witness :
  STRICT_CATEGORY_DEFINITIONS "symbolism" = Own "Dream Symbolism" /\
  (R_notext = R_throw \/ R_notext = R_notext \/ R_notext = R_text None \/
   R_notext = R_text (Some JNull)) /\
  fst (validateCategoryFit (Some (JStr "Snakes often stand for change.")) None "symbolism"
         (mkWorld [R_notext] [] [] [] [] [] false O)) = Ok valid_verdict.
Proof.
  assert (H : STRICT_CATEGORY_DEFINITIONS "symbolism" = Own "Dream Symbolism") by reflexivity.
  assert (Hr : R_notext = R_throw \/ R_notext = R_notext \/ R_notext = R_text None \/
               R_notext = R_text (Some JNull)) by (right; left; reflexivity).
  split; [exact H|]. split; [exact Hr|].
  apply (validateCategoryFit_fail_open _ _ _ _ (mkWorld [R_notext] [] [] [] [] [] false O) H Hr).
Defined.

(** For a defined category, content that is not a string makes the prompt
    construction ([content.substring]) throw a [TypeError] before the
    [try] block: the error escapes and the service is not called. *)
Theorem validateCategoryFit_non_string_content (content title : option json) (cat name : string)
    (w : world) :
  STRICT_CATEGORY_DEFINITIONS cat = Own name -> (forall s, content <> Some (JStr s)) ->
  validateCategoryFit content title cat w = (Err TypeError, snd (emit (Ev_validate cat) w)).
Proof. apply validate_own_nonstr. Qed.

Lemma validateCategoryFit_non_string_content_witness :
  STRICT_CATEGORY_DEFINITIONS "dream-science" = Own "Dream Science" /\
  (forall s, Some (JNum 42) <> Some (JStr s)) /\
  validateCategoryFit (Some (JNum 42)) None "dream-science" SchedulerClaims.fresh_world =
    (Err TypeError, snd (emit (Ev_validate "dream-science") SchedulerClaims.fresh_world)).
Proof.
  assert (H : STRICT_CATEGORY_DEFINITIONS "dream-science" = Own "Dream Science") by reflexivity.
  assert (Hc : forall s, Some (JNum 42) <> Some (JStr s)) by (intros s; discriminate).
  split; [exact H|]. split; [exact Hc|].
  apply (validateCategoryFit_non_string_content _ _ _ _ _ H Hc).
Defined.

(** [generateEducationalPost] ignores the verdict of [validateCategoryFit]:
    for a defined category whose response parses to a post [p], the result
    is [p] whenever its title converts to a string (the log line
    [${result.title}]) and its content is a string, whatever the validator
    answers, provided the validator's reply has a [suggestedCategory] and a
    [reason] that convert to strings (they are only interpolated in the
    warning logged for a rejection).  A title that cannot be converted, or
    non-string content (the validator's prompt), throws a [TypeError] and
    the post is lost. *)
Theorem generateEducationalPost_ignores_verdict (cat name : string) (w : world) (parsed : json)
    (rest : list reply) (p : GeneratedBlogPost) :
  STRICT_CATEGORY_DEFINITIONS cat = Own name -> w_svc w = R_text (Some parsed) :: rest ->
  post_of parsed = Some p -> Notions.reply_fields_ok rest = true ->
  fst (generateEducationalPost cat w) =
    if str_ok (bp_title p)
    then match bp_content p with Some (JStr _) => Ok p | _ => Err TypeError end
    else Err TypeError.
Proof.
  intros Hcat Hsvc Hpost Hrf.
  unfold generateEducationalPost, getExistingContentByCategory.
  destruct (db_history_step w) as (h & w1 & Hdb & Hs1 & _).
  unfold bind at 1. rewrite Hdb. cbv beta iota. rewrite Hcat.
  cbv [bind ret service emit text_json lift]. cbn [w_svc]. rewrite Hs1, Hsvc. cbv beta iota.
  rewrite Hpost. cbv beta iota.
  destruct (str_ok (bp_title p)); [|reflexivity]. cbv beta iota.
  match goal with |- context [validateCategoryFit _ _ _ ?x] => set (w2 := x) end.
  destruct (bp_content p) as [[]|] eqn:Hc;
    try (rewrite (validate_own_nonstr _ (bp_title p) cat name w2 Hcat);
         [reflexivity | intros s0; discriminate]).
  assert (Hr2 : Notions.reply_fields_ok (w_svc w2) = true) by exact Hrf.
  destruct (validate_own_warning_ok s (bp_title p) cat name w2 Hcat Hr2) as (v & w' & Hv & Hw).
  rewrite Hv. cbv beta iota. rewrite Hw. reflexivity.
Qed.

Definition edu_post_json : json :=
  JObj [("title", JStr "Why We Dream"); ("slug", JStr "why-we-dream"); ("content", JStr "Body")].

(** The validator rejects the post (confidence 0.2). *)
Definition rejecting_reply : json :=
  JObj [("isValid", JBool false); ("confidence", JNum (1 # 5));
        ("suggestedCategory", JStr "sleep-tips"); ("reason", JStr "about sleep hygiene")].

Definition rejecting_world : world :=
  mkWorld [R_text (Some edu_post_json); R_text (Some rejecting_reply)]
          [] [] [] [] [] false O.

Definition edu_post : GeneratedBlogPost :=
  mkGeneratedBlogPost (Some (JStr "Why We Dream")) None (JStr "why-we-dream") None
                      (Some (JStr "Body")) None None (JArr []).

Lemma generateEducationalPost_ignores_verdict_witness :
  STRICT_CATEGORY_DEFINITIONS "dream-science" = Own "Dream Science" /\
  w_svc rejecting_world = R_text (Some edu_post_json) :: [R_text (Some rejecting_reply)] /\
  post_of edu_post_json = Some edu_post /\
  Notions.reply_fields_ok [R_text (Some rejecting_reply)] = true /\
  fst (generateEducationalPost "dream-science" rejecting_world) =
    if str_ok (bp_title edu_post)
    then match bp_content edu_post with Some (JStr _) => Ok edu_post | _ => Err TypeError end
    else Err TypeError.
Proof.
  assert (H : STRICT_CATEGORY_DEFINITIONS "dream-science" = Own "Dream Science") by reflexivity.
  assert (Hs : w_svc rejecting_world =
    R_text (Some edu_post_json) :: [R_text (Some rejecting_reply)]) by reflexivity.
  assert (Hp : post_of edu_post_json = Some edu_post) by (vm_compute; reflexivity).
  assert (Hr : Notions.reply_fields_ok [R_text (Some rejecting_reply)] = true)
    by (vm_compute; reflexivity).
  split; [exact H|]. split; [exact Hs|]. split; [exact Hp|]. split; [exact Hr|].
  apply (generateEducationalPost_ignores_verdict _ _ _ _ _ _ H Hs Hp Hr).
Defined.

(** For a category that is not one of the four own definitions (an unknown
    name or an inherited [Object.prototype] key), [generateEducationalPost]
    fails with a [TypeError] while building its prompt
    ([categoryDef.name]), after the read of existing content and before any
    service call. *)
Theorem generateEducationalPost_undefined_category (cat : string) (w : world) :
  (forall name, STRICT_CATEGORY_DEFINITIONS cat <> Own name) ->
  fst (generateEducationalPost cat w) = Err TypeError /\
  w_svc (snd (generateEducationalPost cat w)) = w_svc w.
Proof.
  intros Hcat. unfold generateEducationalPost, getExistingContentByCategory.
  destruct (db_history_step w) as (h & w1 & Hdb & Hs1 & _).
  rewrite !(bind_step _ _ _ _ _ Hdb).
  destruct (STRICT_CATEGORY_DEFINITIONS cat) as [n| |] eqn:E;
    [exfalso; exact (Hcat n eq_refl) | |]; split; first [reflexivity | exact Hs1].
Qed.

Lemma generateEducationalPost_undefined_category_witness :
  (forall name, STRICT_CATEGORY_DEFINITIONS "nightmares" <> Own name) /\
  fst (generateEducationalPost "nightmares" rejecting_world) = Err TypeError /\
  w_svc (snd (generateEducationalPost "nightmares" rejecting_world)) = w_svc rejecting_world.
Proof.
  assert (H : forall name, STRICT_CATEGORY_DEFINITIONS "nightmares" <> Own name)
    by (intros name; discriminate).
  split; [exact H | apply (generateEducationalPost_undefined_category _ _ H)].
Defined.

End ValidatorExtras.

Module SchedulerExtras.
Import Json Build Effects Pipeline Scheduler Notions EffectFacts FiringFacts Invariants Status.

Lemma keeps_ret {A} (a : A) : keeps_index (ret a).
Proof. intros w. reflexivity. Qed.
Lemma keeps_raise {A} e : keeps_index (@raise A e).
Proof. intros w. reflexivity. Qed.
Lemma keeps_lift {A} (o : option A) : keeps_index (lift o).
Proof. destruct o; intros w; reflexivity. Qed.
Lemma keeps_emit e : keeps_index (emit e).
Proof. intros w. reflexivity. Qed.
Lemma keeps_bind {A B} (m : M A) (f : A -> M B) :
  keeps_index m -> (forall a, keeps_index (f a)) -> keeps_index (bind m f).
Proof.
  intros Hm Hf w. specialize (Hm w). unfold bind.
  destruct (m w) as [[a|e] w'] eqn:E; simpl in *; [|exact Hm].
  rewrite Hf. exact Hm.
Qed.
Lemma keeps_try_catch {A} (m : M A) (h : exn -> M A) :
  keeps_index m -> (forall e, keeps_index (h e)) -> keeps_index (try_catch m h).
Proof.
  intros Hm Hh w. specialize (Hm w). unfold try_catch.
  destruct (m w) as [[a|e] w'] eqn:E; simpl in *; [exact Hm|].
  rewrite Hh. exact Hm.
Qed.
Lemma keeps_service : keeps_index service.
Proof.
  apply keeps_bind; [apply keeps_emit|]. intros _ w.
  destruct (w_svc w) as [|rp rest]; [reflexivity|]. destruct rp; reflexivity.
Qed.
Lemma keeps_text_json rp : keeps_index (text_json rp).
Proof. destruct rp as [| |[j|]]; intros w; reflexivity. Qed.
Lemma keeps_db_history : keeps_index db_history.
Proof. intros w. unfold db_history. destruct (w_db w) as [|[h|] rest]; reflexivity. Qed.
Lemma keeps_random : keeps_index random.
Proof. intros w. unfold random. destruct (w_rand w) as [|r rest]; reflexivity. Qed.
Lemma keeps_insert r : keeps_index (insert r).
Proof.
  apply keeps_bind; [apply keeps_emit|]. intros _ w.
  destruct (w_writes w) as [|b rest]; reflexivity.
Qed.

Create HintDb keeps.
#[local] Hint Resolve keeps_ret keeps_raise keeps_lift keeps_emit keeps_service keeps_text_json
  keeps_db_history keeps_random keeps_insert : keeps.

Ltac keeps_step :=
  match goal with
  | |- keeps_index (bind _ _) => apply keeps_bind; [|intro]
  | |- keeps_index (try_catch _ _) => apply keeps_try_catch; [|intro]
  | |- keeps_index (match ?x with _ => _ end) => destruct x
  | |- keeps_index _ => solve [auto with keeps]
  end.

Lemma keeps_generateFullDreamPost : keeps_index generateFullDreamPost.
Proof.
  unfold generateFullDreamPost, generateDream, getRecentlyUsedDreamElements, analyzeDream,
    generateDreamBlogPost.
  repeat keeps_step.
Qed.

Lemma keeps_generateEducationalPost cat : keeps_index (generateEducationalPost cat).
Proof.
  unfold generateEducationalPost, getExistingContentByCategory, validateCategoryFit.
  repeat keeps_step.
Qed.

#[local] Hint Resolve keeps_generateFullDreamPost keeps_generateEducationalPost : keeps.


Lemma try_catch_bind_ok {A B} (m : M A) (f : A -> M B) h w a w1 :
  m w = (Ok a, w1) -> try_catch (bind m f) h w = try_catch (f a) h w1.
Proof. intros E. unfold try_catch, bind. rewrite E. reflexivity. Qed.

Lemma insert_body_rows k r w :
  inserts (w_events (snd (try_catch
     (ok <- insert r ;; if ok then emit (Ev_done k true) else raise DbError)
     (fun _ => emit (Ev_done k false)) w))) = inserts (w_events w) ++ [r].
Proof.
  cbv [try_catch bind insert emit raise]. cbn [w_writes w_events snd].
  destruct (w_writes w) as [|[|] rest]; cbn [w_events snd]; rewrite !inserts_app; simpl; rewrite <- ?app_assoc, ?app_nil_r; reflexivity.
Qed.

Lemma pipeline_inserts_kept {A} (m : M A) w :
  preserves pipeline_event m -> inserts (w_events (snd (m w))) = inserts (w_events w).
Proof. intros H. exact (proj2 (quiet_pipeline_inserts _ _ (H w))). Qed.

(** A dream firing ([generateDreamPost], run by the morning job, by the
    evening job on dream evenings and as a manual trigger) inserts at most
    one row, always with category [dream-stories] and generation type
    [ai-dream]; when a stage of [generateFullDreamPost] fails, nothing is
    inserted. *)
Theorem generateDreamPost_rows w :
  exists rs, inserts (w_events (snd (generateDreamPost w))) = inserts (w_events w) ++ rs /\
    (length rs <= 1)%nat /\
    Forall (fun r => row_category r = "dream-stories" /\ row_generation_type r = "ai-dream") rs /\
    (forall e, fst (generateFullDreamPost (dream_stage_world w)) = Err e -> rs = []).
Proof.
  pose proof (pipeline_inserts_kept generateFullDreamPost (dream_stage_world w)
                (preserves_generateFullDreamPost pipeline_event eq_refl)) as Hp.
  destruct (dream_stage_world_inserts w) as [_ H0].
  destruct (generateFullDreamPost (dream_stage_world w)) as [[[[d a] p]|e] w1] eqn:Eg;
    cbn [snd] in Hp.
  - exists [post_row p "dream-stories" "ai-dream"].
    split; [|split; [simpl; lia | split; [apply Forall_cons; [split; reflexivity | apply Forall_nil] | intros e He; discriminate]]].
    unfold generateDreamPost.
    match goal with |- context [bind _ (fun _ => ?b) w] =>
      change (bind _ (fun _ => b) w) with (b (dream_stage_world w)) end.
    rewrite (try_catch_bind_ok _ _ _ _ _ _ Eg). rewrite insert_body_rows. congruence.
  - exists []. split; [|split; [simpl; lia | split; [apply Forall_nil | reflexivity]]].
    rewrite (generateDreamPost_failure _ _ _ Eg).
    destruct (emit_done_inserts DreamKind false w1) as [_ H1]. rewrite H1. rewrite app_nil_r. congruence.
Qed.

Lemma generateEducationalContent_index w :
  w_categoryIndex (snd (generateEducationalContent w)) = ((w_categoryIndex w + 1) mod 3)%nat.
Proof.
  set (cat := edu_stage_category w).
  change (generateEducationalContent w) with
    (try_catch
       (blogPost <- generateEducationalPost cat ;;
        ok <- insert (post_row blogPost cat "ai-educational") ;;
        if ok then emit (Ev_done EducationalKind true) else raise DbError)
       (fun _ => emit (Ev_done EducationalKind false)) (edu_stage_world w)).
  assert (K : keeps_index (try_catch
     (blogPost <- generateEducationalPost cat ;;
      ok <- insert (post_row blogPost cat "ai-educational") ;;
      if ok then emit (Ev_done EducationalKind true) else raise DbError)
     (fun _ => emit (Ev_done EducationalKind false)))) by (repeat keeps_step).
  rewrite K. reflexivity.
Qed.

(** An educational firing ([generateEducationalContent], also exported as a
    manual trigger) always advances [currentCategoryIndex] to [(i + 1) % 3],
    whether or not the generation succeeds, and inserts at most one row,
    written for the category [educationalCategories[i]] with generation type
    [ai-educational]. *)
Theorem generateEducationalContent_rows w :
  w_categoryIndex (snd (generateEducationalContent w)) = ((w_categoryIndex w + 1) mod 3)%nat /\
  exists rs, inserts (w_events (snd (generateEducationalContent w))) = inserts (w_events w) ++ rs /\
    (length rs <= 1)%nat /\
    Forall (fun r => row_category r = nth (w_categoryIndex w) educationalCategories "dream-science" /\
                     row_generation_type r = "ai-educational") rs.
Proof.
  split; [apply generateEducationalContent_index|].
  set (cat := edu_stage_category w).
  assert (Hcat : cat = nth (w_categoryIndex w) educationalCategories "dream-science") by reflexivity.
  change (generateEducationalContent w) with
    (try_catch
       (blogPost <- generateEducationalPost cat ;;
        ok <- insert (post_row blogPost cat "ai-educational") ;;
        if ok then emit (Ev_done EducationalKind true) else raise DbError)
       (fun _ => emit (Ev_done EducationalKind false)) (edu_stage_world w)).
  pose proof (pipeline_inserts_kept (generateEducationalPost cat) (edu_stage_world w)
                (preserves_generateEducationalPost pipeline_event eq_refl (fun _ => eq_refl) cat))
    as Hp.
  destruct (edu_stage_world_inserts w) as [_ H0].
  destruct (generateEducationalPost cat (edu_stage_world w)) as [[p|e] w1] eqn:Eg; cbn [snd] in Hp.
  - exists [post_row p cat "ai-educational"].
    split; [|split; [simpl; lia | repeat constructor; exact Hcat]].
    rewrite (try_catch_bind_ok _ _ _ _ _ _ Eg). rewrite insert_body_rows. congruence.
  - exists []. split; [|split; [simpl; lia | constructor]].
    unfold try_catch at 1. unfold bind at 1. rewrite Eg.
    destruct (emit_done_inserts EducationalKind false w1) as [_ H1]. rewrite H1, app_nil_r. congruence.
Qed.

Lemma keeps_generateDreamPost : keeps_index generateDreamPost.
Proof. unfold generateDreamPost. repeat keeps_step. Qed.

Lemma generateEveningPost_index w :
  w_categoryIndex (snd (generateEveningPost w)) =
    if w_eveningPostIsDream w then w_categoryIndex w else ((w_categoryIndex w + 1) mod 3)%nat.
Proof.
  unfold generateEveningPost, bind, get_eveningPostIsDream. cbv beta iota.
  destruct (w_eveningPostIsDream w) eqn:Ef.
  - pose proof (keeps_generateDreamPost w) as K.
    destruct (generateDreamPost_step w) as [Hok _].
    destruct (generateDreamPost w) as [r w1]. simpl in Hok, K. subst r. exact K.
  - pose proof (generateEducationalContent_index w) as K.
    destruct (generateEducationalContent_step w) as [Hok _].
    destruct (generateEducationalContent w) as [r w1]. simpl in Hok, K. subst r. exact K.
Qed.

(** Over [n] consecutive evening firings, [currentCategoryIndex] (kept in
    0..2) advances by one, modulo 3, for each educational firing, whatever
    the services and the storage do: the educational evenings cycle through
    [dream-science], [sleep-tips] and [symbolism]. *)
Theorem eveningFirings_index n w :
  (w_categoryIndex w < 3)%nat ->
  w_categoryIndex (snd (eveningFirings n w)) =
    ((w_categoryIndex w +
      length (filter (fun k => match k with EducationalKind => true | DreamKind => false end)
                     (alternating n (w_eveningPostIsDream w)))) mod 3)%nat.
Proof.
  revert w. induction n as [|n IH]; intros w Hi.
  - cbn [eveningFirings ret snd alternating filter length]. rewrite Nat.add_0_r. symmetry. now apply Nat.mod_small.
  - simpl eveningFirings. unfold bind at 1.
    pose proof (generateEveningPost_index w) as I.
    destruct (generateEveningPost_step w) as (Hok & F & _).
    destruct (generateEveningPost w) as [r w1]. cbn [fst snd] in Hok, F, I. subst r.
    assert (Hi1 : (w_categoryIndex w1 < 3)%nat)
      by (rewrite I; destruct (w_eveningPostIsDream w); [exact Hi | apply Nat.mod_upper_bound; lia]).
    rewrite (IH w1 Hi1), F, I. simpl alternating.
    destruct (w_eveningPostIsDream w); simpl negb; cbn [filter length].
    + reflexivity.
    + rewrite Nat.Div0.add_mod_idemp_l. f_equal. lia.
Qed.

(** Running [generateDreamPost] or [generateEducationalContent] directly
    (the morning job, or the exported manual triggers) never changes the
    evening alternation flag [eveningPostIsDream]; a dream firing also
    leaves [currentCategoryIndex] unchanged. *)
Theorem triggers_keep_alternation w :
  w_eveningPostIsDream (snd (generateDreamPost w)) = w_eveningPostIsDream w /\
  w_categoryIndex (snd (generateDreamPost w)) = w_categoryIndex w /\
  w_eveningPostIsDream (snd (generateEducationalContent w)) = w_eveningPostIsDream w.
Proof.
  destruct (generateDreamPost_step w) as [_ (F1 & _)].
  destruct (generateEducationalContent_step w) as [_ (F2 & _)].
  split; [exact F1|]. split; [apply keeps_generateDreamPost | exact F2].
Qed.


Lemma map_set_In jobs name x : In x jobs \/ x = name -> In x (map_set jobs name).
Proof.
  unfold map_set. intros H. destruct (existsb (String.eqb name) jobs) eqn:E.
  - destruct H as [H|<-]; [exact H|].
    apply existsb_exists in E as (y & Hy & Ey). apply String.eqb_eq in Ey. now subst y.
  - apply in_or_app. destruct H as [H|<-]; [now left | right; now left].
Qed.

Lemma existsb_eqb_In x l : In x l -> existsb (String.eqb x) l = true.
Proof. intros H. apply existsb_exists. exists x. split; [exact H | apply String.eqb_refl]. Qed.

(** Right after [startBlogScheduler], [getSchedulerStatus] reports the
    scheduler running with the morning and the evening job, in that order,
    whatever jobs were registered before; right after [stopBlogScheduler]
    it reports it stopped with no job. *)
Theorem status_after_start_and_stop w :
  fst ((_ <- startBlogScheduler ;; getSchedulerStatus) w) =
    Ok (mkSchedulerStatus true
          [mkJobInfo "Morning Dream Post" "9:00 AM Eastern / 2:00 PM UTC daily";
           mkJobInfo "Evening Post (alternating)" "6:00 PM Eastern / 11:00 PM UTC daily"]) /\
  fst ((_ <- stopBlogScheduler ;; getSchedulerStatus) w) = Ok (mkSchedulerStatus false []).
Proof.
  split; [|reflexivity].
  cbv [startBlogScheduler getSchedulerStatus bind get_jobs set_jobs ret]. cbn [w_jobs fst].
  set (js := map_set (map_set (w_jobs w) "morningDream") "eveningPost").
  assert (Hm : In "morningDream" js) by (apply map_set_In; left; apply map_set_In; now right).
  assert (He : In "eveningPost" js) by (apply map_set_In; now right).
  rewrite (existsb_eqb_In _ _ Hm), (existsb_eqb_In _ _ He).
  destruct js as [|j js']; [destruct Hm | reflexivity].
Qed.

Lemma eveningFirings_index_witness :
  (w_categoryIndex SchedulerClaims.fresh_world < 3)%nat /\
  w_categoryIndex (snd (eveningFirings 5 SchedulerClaims.fresh_world)) =
    ((w_categoryIndex SchedulerClaims.fresh_world +
      length (filter (fun k => match k with EducationalKind => true | DreamKind => false end)
                     (alternating 5 (w_eveningPostIsDream SchedulerClaims.fresh_world)))) mod 3)%nat.
Proof.
  assert (H : (w_categoryIndex SchedulerClaims.fresh_world < 3)%nat) by (simpl; lia).
  split; [exact H | apply (eveningFirings_index 5 _ H)].
Defined.

End SchedulerExtras.

Module RowsExtras.
Import Json Rows Invariants.

Lemma lower_char_idem c : Str.lower_char (Str.lower_char c) = Str.lower_char c.
Proof. destruct c as [[] [] [] [] [] [] [] []]; vm_compute; reflexivity. Qed.

Lemma lower_idem s : Fresh.lower (Fresh.lower s) = Fresh.lower s.
Proof.
  unfold Fresh.lower, Str.toLowerCase. rewrite list_ascii_of_string_of_list_ascii, map_map.
  f_equal. apply map_ext. apply lower_char_idem.
Qed.

Lemma set_values_aux_In seen xs x :
  In x (set_values_aux seen xs) <-> In x xs /\ ~ In x seen.
Proof.
  revert seen. induction xs as [|y xs IH]; intros seen; simpl; [tauto|].
  destruct (existsb (String.eqb y) seen) eqn:E.
  - rewrite IH. apply existsb_exists in E as (z & Hz & Ez). apply String.eqb_eq in Ez. subst z.
    split; [tauto|]. intros [[<-|H] Hn]; [contradiction | tauto].
  - simpl. rewrite IH. simpl.
    assert (Hy : ~ In y seen).
    { intros Hy. assert (existsb (String.eqb y) seen = true) by
        (apply existsb_exists; exists y; split; [exact Hy | apply String.eqb_refl]). congruence. }
    split.
    + intros [<-|[H1 H2]]; [tauto | split; [now right | tauto]].
    + intros [[<-|H1] H2]; [now left|].
      destruct (String.eqb_spec y x) as [<-|Hne]; [now left | right; split; [exact H1|]].
      intros [H|H]; [congruence | contradiction].
Qed.

Lemma set_values_aux_NoDup seen xs : NoDup (set_values_aux seen xs).
Proof.
  revert seen. induction xs as [|y xs IH]; intros seen; simpl; [constructor|].
  destruct (existsb (String.eqb y) seen); [apply IH|].
  constructor; [|apply IH]. rewrite set_values_aux_In. intros [_ H]. apply H. now left.
Qed.

Lemma set_values_In xs x : In x (set_values xs) <-> In x xs.
Proof. unfold set_values. rewrite set_values_aux_In. simpl. tauto. Qed.

Lemma set_values_ok xs :
  Forall is_lower xs -> NoDup (set_values xs) /\ Forall is_lower (set_values xs).
Proof.
  intros H. split; [apply set_values_aux_NoDup|].
  apply Forall_forall. intros x Hx. apply (proj1 (set_values_In xs x)) in Hx.
  exact (proj1 (Forall_forall _ _) H x Hx).
Qed.

Lemma map_opt_Forall_out {A B} (f : A -> option B) (Q : B -> Prop) l ys :
  Analysis.map_opt f l = Some ys -> (forall x y, f x = Some y -> Q y) -> Forall Q ys.
Proof.
  revert ys. induction l as [|x l IH]; intros ys E H; simpl in E.
  - injection E as <-. constructor.
  - destruct (f x) as [y|] eqn:Ef; [|discriminate].
    destruct (Analysis.map_opt f l) as [ys'|]; [|discriminate]. injection E as <-.
    constructor; [exact (H x y Ef) | now apply IH].
Qed.

Lemma map_opt_In_fwd {A B} (f : A -> option B) l ys x :
  Analysis.map_opt f l = Some ys -> In x l -> exists y, f x = Some y /\ In y ys.
Proof.
  revert ys. induction l as [|z l IH]; intros ys E Hx; simpl in E; [destruct Hx|].
  destruct (f z) as [y|] eqn:Ef; [|discriminate].
  destruct (Analysis.map_opt f l) as [ys'|] eqn:E'; [|discriminate]. injection E as <-.
  destruct Hx as [<-|Hx].
  - exists y. split; [exact Ef | now left].
  - destruct (IH ys' eq_refl Hx) as (y' & H1 & H2). exists y'. split; [exact H1 | now right].
Qed.

Lemma map_opt_None {A B} (f : A -> option B) l x :
  In x l -> f x = None -> Analysis.map_opt f l = None.
Proof.
  induction l as [|z l IH]; intros Hx Hf; [destruct Hx|]. simpl.
  destruct Hx as [<-|Hx]; [now rewrite Hf|].
  destruct (f z); [|reflexivity]. now rewrite IH.
Qed.

Lemma Forall_concat_map {A} (P : string -> Prop) (g : A -> list string) ys :
  Forall (fun y => Forall P (g y)) ys -> Forall P (concat (map g ys)).
Proof. induction 1; simpl; [constructor | now apply Forall_app]. Qed.

Lemma js_toLowerCase_lower v s : js_toLowerCase v = Some s -> is_lower s.
Proof. destruct v as [[]|]; simpl; intros E; try discriminate. injection E as <-. apply lower_idem. Qed.

Lemma lower_item_lower j s : lower_item j = Some s -> is_lower s.
Proof. apply js_toLowerCase_lower. Qed.

Lemma lower_name_lower j s : lower_name j = Some s -> is_lower s.
Proof. unfold lower_name. destruct (get j "name"); [apply js_toLowerCase_lower | discriminate]. Qed.

Lemma push_lower_if_lower v l : push_lower_if v = Some l -> Forall is_lower l.
Proof.
  unfold push_lower_if. destruct v as [x|]; [|discriminate].
  destruct (truthy x); intros E; [|injection E as <-; constructor].
  destruct (js_toLowerCase x) as [s|] eqn:Es; simpl in E; [|discriminate].
  injection E as <-. constructor; [exact (js_toLowerCase_lower _ _ Es) | constructor].
Qed.

Lemma push_map_if_lower f v l :
  (forall j s, f j = Some s -> is_lower s) -> push_map_if f v = Some l -> Forall is_lower l.
Proof.
  intros Hf. unfold push_map_if. destruct v as [x|]; [|discriminate].
  destruct (truthy x); intros E; [|injection E as <-; constructor].
  destruct x as [[| | | | l0 |]|]; try discriminate.
  exact (map_opt_Forall_out _ _ _ _ E Hf).
Qed.

Lemma analysis_terms_lower da sy th :
  analysis_terms da = Some (sy, th) -> Forall is_lower sy /\ Forall is_lower th.
Proof.
  unfold analysis_terms. destruct (truthy da); intros E; [|injection E as <- <-; split; constructor].
  destruct da as [a|]; [|discriminate].
  destruct (push_map_if lower_name (get a "symbols")) as [sy'|] eqn:E1; [|discriminate].
  destruct (push_map_if lower_item (get a "themes")) as [th'|] eqn:E2; [|discriminate].
  injection E as <- <-. split.
  - exact (push_map_if_lower _ _ _ lower_name_lower E1).
  - exact (push_map_if_lower _ _ _ lower_item_lower E2).
Qed.

Lemma used_topics_of_post_lower p l : used_topics_of_post p = Some l -> Forall is_lower l.
Proof.
  unfold used_topics_of_post. destruct (get p "title") as [t|]; [|discriminate].
  destruct (js_toLowerCase t) as [s|] eqn:E1; [|discriminate].
  destruct (push_map_if lower_item (get p "tags")) as [tg|] eqn:E2; [|discriminate].
  intros E. injection E as <-. constructor; [exact (js_toLowerCase_lower _ _ E1)|].
  exact (push_map_if_lower _ _ _ lower_item_lower E2).
Qed.

Lemma dream_elements_of_post_lower p st th sy :
  dream_elements_of_post p = Some (st, th, sy) ->
  Forall is_lower st /\ Forall is_lower th /\ Forall is_lower sy.
Proof.
  unfold dream_elements_of_post.
  destruct (get p "generated_dream") as [gd|]; [|discriminate].
  destruct (get p "dream_analysis") as [da|]; [|discriminate].
  destruct (get p "tags") as [tags|]; [|discriminate].
  destruct (if truthy gd then _ else _) as [[st' tone]|] eqn:E1; [|discriminate].
  destruct (analysis_terms da) as [[sy' th']|] eqn:E2; [|discriminate].
  destruct (push_map_if lower_item (Some tags)) as [tg|] eqn:E3; [|discriminate].
  intros E. injection E as <- <- <-.
  assert (Hd : Forall is_lower st' /\ Forall is_lower tone).
  { destruct (truthy gd); [|injection E1 as <- <-; split; constructor].
    destruct gd as [d|]; [|discriminate].
    destruct (push_lower_if (get d "setting")) as [a|] eqn:F1; [|discriminate].
    destruct (push_lower_if (get d "emotionalTone")) as [b|] eqn:F2; [|discriminate].
    injection E1 as <- <-. split; eapply push_lower_if_lower; eassumption. }
  destruct Hd as [Hs Ht]. destruct (analysis_terms_lower _ _ _ E2) as [Hy Hh].
  pose proof (push_map_if_lower _ _ _ lower_item_lower E3) as Hg.
  split; [exact Hs|]. split; [|exact Hy].
  apply Forall_app; split; [exact Ht | apply Forall_app; split; [exact Hh | exact Hg]].
Qed.

Lemma existing_of_post_lower p t tp sy th :
  existing_of_post p = Some (t, tp, sy, th) ->
  is_lower t /\ Forall is_lower tp /\ Forall is_lower sy /\ Forall is_lower th.
Proof.
  unfold existing_of_post.
  destruct (get p "title") as [title|]; [|discriminate].
  destruct (get p "dream_analysis") as [da|]; [|discriminate].
  destruct (js_toLowerCase title) as [t'|] eqn:E1; [|discriminate].
  destruct (array_tags (get p "tags")) as [tp'|] eqn:E2; [|discriminate].
  destruct (analysis_terms da) as [[sy' th']|] eqn:E3; [|discriminate].
  intros E. injection E as <- <- <- <-.
  split; [exact (js_toLowerCase_lower _ _ E1)|].
  split; [|exact (analysis_terms_lower _ _ _ E3)].
  unfold array_tags in E2. destruct (get p "tags") as [[[| | | | l |]|]|]; try discriminate;
    try (injection E2 as <-; constructor).
  exact (map_opt_Forall_out _ _ _ _ E2 lower_item_lower).
Qed.

Lemma ok_nil : ok_list [].
Proof. split; constructor. Qed.

Lemma getUsedTopics_ok data : ok_list (getUsedTopics data).
Proof.
  destruct data as [posts|]; [|exact ok_nil]. simpl.
  destruct (Analysis.map_opt used_topics_of_post posts) as [ls|] eqn:E; [|exact ok_nil].
  apply set_values_ok. rewrite <- (map_id ls). apply Forall_concat_map.
  exact (map_opt_Forall_out _ _ _ _ E used_topics_of_post_lower).
Qed.

Lemma getRecentlyUsedDreamElements_ok data :
  ok_list (de_settings (getRecentlyUsedDreamElements data)) /\
  ok_list (de_themes (getRecentlyUsedDreamElements data)) /\
  ok_list (de_symbols (getRecentlyUsedDreamElements data)).
Proof.
  destruct data as [posts|]; [|repeat split; constructor]. simpl.
  destruct (Analysis.map_opt dream_elements_of_post posts) as [ls|] eqn:E;
    [|repeat split; constructor].
  pose proof (map_opt_Forall_out _
                (fun tr => Forall is_lower (fst (fst tr)) /\ Forall is_lower (snd (fst tr)) /\
                           Forall is_lower (snd tr)) _ _ E) as H.
  assert (Hl : Forall (fun tr => Forall is_lower (fst (fst tr)) /\ Forall is_lower (snd (fst tr)) /\
                                 Forall is_lower (snd tr)) ls).
  { apply H. intros p [[st th] sy] Ep. exact (dream_elements_of_post_lower _ _ _ _ Ep). }
  cbn [de_settings de_themes de_symbols].
  split; [|split]; apply set_values_ok, Forall_concat_map; (eapply Forall_impl; [|exact Hl]);
    simpl; tauto.
Qed.

Lemma getExistingContentByCategory_ok data :
  ok_list (ec_titles (getExistingContentByCategory data)) /\
  ok_list (ec_topics (getExistingContentByCategory data)) /\
  ok_list (ec_symbols (getExistingContentByCategory data)) /\
  ok_list (ec_themes (getExistingContentByCategory data)).
Proof.
  destruct data as [posts|]; [|repeat split; constructor]. simpl.
  destruct (Analysis.map_opt existing_of_post posts) as [ls|] eqn:E;
    [|repeat split; constructor].
  assert (Hl : Forall (fun q => is_lower (fst (fst (fst q))) /\ Forall is_lower (snd (fst (fst q))) /\
                                Forall is_lower (snd (fst q)) /\ Forall is_lower (snd q)) ls).
  { apply (map_opt_Forall_out _ _ _ _ E). intros p [[[t tp] sy] th] Ep.
    exact (existing_of_post_lower _ _ _ _ _ Ep). }
  cbn [ec_titles ec_topics ec_symbols ec_themes].
  split; [|split; [|split]]; apply set_values_ok;
    [| apply Forall_concat_map .. ].
  - apply Forall_map. eapply Forall_impl; [|exact Hl]. simpl. tauto.
  - eapply Forall_impl; [|exact Hl]. simpl. tauto.
  - eapply Forall_impl; [|exact Hl]. simpl. tauto.
  - eapply Forall_impl; [|exact Hl]. simpl. tauto.
Qed.

(** The lists read from the stored posts to steer generation
    ([getUsedTopics], the settings, themes and symbols of
    [getRecentlyUsedDreamElements], the titles, topics, symbols and themes of
    [getExistingContentByCategory]) never contain a duplicate and hold only
    lowercase strings, whatever the rows are and whether the query fails. *)
Theorem recent_terms_distinct_lowercase (data : option (list json)) :
  Forall (fun xs => NoDup xs /\ Forall (fun x => Fresh.lower x = x) xs)
    [getUsedTopics data;
     de_settings (getRecentlyUsedDreamElements data);
     de_themes (getRecentlyUsedDreamElements data);
     de_symbols (getRecentlyUsedDreamElements data);
     ec_titles (getExistingContentByCategory data);
     ec_topics (getExistingContentByCategory data);
     ec_symbols (getExistingContentByCategory data);
     ec_themes (getExistingContentByCategory data)].
Proof.
  destruct (getRecentlyUsedDreamElements_ok data) as (D1 & D2 & D3).
  destruct (getExistingContentByCategory_ok data) as (X1 & X2 & X3 & X4).
  repeat apply Forall_cons; [exact (getUsedTopics_ok data) | exact D1 | exact D2 | exact D3
    | exact X1 | exact X2 | exact X3 | exact X4 | apply Forall_nil].
Qed.

Lemma js_toLowerCase_str_only v s' : js_toLowerCase v = Some s' -> exists s, v = Some (JStr s) /\ s' = Fresh.lower s.
Proof. destruct v as [[]|]; simpl; intros E; try discriminate. injection E as <-. eauto. Qed.

(** One fetched row whose title is not a string, or whose tags are truthy
    but not an array, makes [getUsedTopics] return no topic at all: the
    [TypeError] is caught and the whole list is dropped. *)
Theorem getUsedTopics_bad_row (posts : list json) (p : json) :
  In p posts ->
  (forall s, get p "title" <> Some (Some (JStr s))) \/
  (exists v, get p "tags" = Some (Some v) /\ truthy (Some v) = true /\ forall l, v <> JArr l) ->
  getUsedTopics (Some posts) = [].
Proof.
  intros Hp Hbad. unfold getUsedTopics.
  rewrite (map_opt_None _ _ p Hp); [reflexivity|].
  unfold used_topics_of_post.
  destruct (get p "title") as [t|] eqn:Et; [|reflexivity].
  destruct Hbad as [Ht | (v & Hv & Htr & Hna)].
  - destruct (js_toLowerCase t) as [s'|] eqn:E; [|reflexivity].
    destruct (js_toLowerCase_str_only _ _ E) as (s & -> & _). exfalso. apply (Ht s); first [exact Et | reflexivity].
  - rewrite Hv. unfold push_map_if. rewrite Htr.
    destruct v; try (destruct (js_toLowerCase t); reflexivity).
    exfalso. eapply Hna. reflexivity.
Qed.

Lemma in_set_values_concat x y ls : In y ls -> In x y -> In x (set_values (concat ls)).
Proof. intros Hy Hx. apply set_values_In, in_concat. eauto. Qed.

(** When [getUsedTopics] returns topics, they include the lowercased title
    of every fetched row and the lowercased entries of each array of tags. *)
Theorem getUsedTopics_covers (posts : list json) (p : json) (s : string) :
  getUsedTopics (Some posts) <> [] -> In p posts -> get p "title" = Some (Some (JStr s)) ->
  In (Fresh.lower s) (getUsedTopics (Some posts)) /\
  (forall ts t, get p "tags" = Some (Some (JArr ts)) -> In (JStr t) ts ->
     In (Fresh.lower t) (getUsedTopics (Some posts))).
Proof.
  intros Hne Hp Ht. unfold getUsedTopics in *.
  destruct (Analysis.map_opt used_topics_of_post posts) as [ls|] eqn:E; [|contradiction].
  destruct (map_opt_In_fwd _ _ _ _ E Hp) as (y & Ey & Hy).
  unfold used_topics_of_post in Ey. rewrite Ht in Ey. simpl js_toLowerCase in Ey.
  destruct (push_map_if lower_item (get p "tags")) as [tg|] eqn:Etg; [|discriminate].
  injection Ey as <-. split.
  - apply (in_set_values_concat _ _ _ Hy). now left.
  - intros ts t Hts Ht'. rewrite Hts in Etg. simpl in Etg.
    destruct (map_opt_In_fwd _ _ _ _ Etg Ht') as (z & Ez & Hz).
    simpl in Ez. injection Ez as <-.
    apply (in_set_values_concat _ _ _ Hy). now right.
Qed.

(** One fetched row whose title is not a string makes
    [getExistingContentByCategory] return empty titles, topics, symbols and
    themes. *)
Theorem getExistingContentByCategory_bad_title (posts : list json) (p : json) :
  In p posts -> (forall s, get p "title" <> Some (Some (JStr s))) ->
  getExistingContentByCategory (Some posts) = no_existing_content.
Proof.
  intros Hp Ht. unfold getExistingContentByCategory.
  rewrite (map_opt_None _ _ p Hp); [reflexivity|].
  unfold existing_of_post.
  destruct (get p "title") as [t|] eqn:Et; [|reflexivity].
  destruct (get p "dream_analysis"); [|reflexivity].
  destruct (js_toLowerCase t) as [s'|] eqn:E; [|reflexivity].
  destruct (js_toLowerCase_str_only _ _ E) as (s & -> & _). exfalso. apply (Ht s); first [exact Et | reflexivity].
Qed.

(** When [getExistingContentByCategory] returns titles, they include the
    lowercased title of every fetched row, and its topics include the
    lowercased entries of each array of tags. *)
Theorem getExistingContentByCategory_covers (posts : list json) (p : json) (s : string) :
  ec_titles (getExistingContentByCategory (Some posts)) <> [] -> In p posts ->
  get p "title" = Some (Some (JStr s)) ->
  In (Fresh.lower s) (ec_titles (getExistingContentByCategory (Some posts))) /\
  (forall ts t, get p "tags" = Some (Some (JArr ts)) -> In (JStr t) ts ->
     In (Fresh.lower t) (ec_topics (getExistingContentByCategory (Some posts)))).
Proof.
  intros Hne Hp Ht. unfold getExistingContentByCategory in *.
  destruct (Analysis.map_opt existing_of_post posts) as [ls|] eqn:E; [|contradiction].
  cbn [ec_titles ec_topics].
  destruct (map_opt_In_fwd _ _ _ _ E Hp) as (y & Ey & Hy).
  unfold existing_of_post in Ey. rewrite Ht in Ey.
  destruct (get p "dream_analysis"); [|discriminate]. simpl js_toLowerCase in Ey.
  destruct (array_tags (get p "tags")) as [tp|] eqn:Etp; [|discriminate].
  destruct (analysis_terms o) as [[sy th]|]; [|discriminate].
  injection Ey as <-. split.
  - apply set_values_In, in_map_iff. exists (Fresh.lower s, tp, sy, th). split; [reflexivity | exact Hy].
  - intros ts t Hts Ht'. rewrite Hts in Etp. simpl in Etp.
    destruct (map_opt_In_fwd _ _ _ _ Etp Ht') as (z & Ez & Hz).
    simpl in Ez. injection Ez as <-.
    apply set_values_In, in_concat. exists tp. split; [|exact Hz].
    apply in_map_iff. exists (Fresh.lower s, tp, sy, th). split; [reflexivity | exact Hy].
Qed.

(** One fetched row whose tags are truthy but not an array (for instance a
    non-empty string) makes [getRecentlyUsedDreamElements] return empty
    settings, themes and symbols. *)
Theorem getRecentlyUsedDreamElements_bad_tags (posts : list json) (p : json) (v : json) :
  In p posts -> get p "tags" = Some (Some v) -> truthy (Some v) = true -> (forall l, v <> JArr l) ->
  getRecentlyUsedDreamElements (Some posts) = no_dream_elements.
Proof.
  intros Hp Hv Htr Hna. unfold getRecentlyUsedDreamElements.
  rewrite (map_opt_None _ _ p Hp); [reflexivity|].
  unfold dream_elements_of_post.
  destruct (get p "generated_dream"); [|reflexivity].
  destruct (get p "dream_analysis"); [|reflexivity].
  rewrite Hv. unfold push_map_if. rewrite Htr.
  destruct v; try (destruct (if truthy o then _ else _) as [[]|]; [destruct (analysis_terms o0) as [[]|]|]; reflexivity).
  exfalso. eapply Hna. reflexivity.
Qed.

Definition good_post : json :=
  JObj [("title", JStr "Lucid Dreams"); ("tags", JArr [JStr "REM"; JStr "Sleep"])].

Definition null_title_post : json := JObj [("title", JNull); ("tags", JArr [])].

Definition string_tags_post : json := JObj [("title", JStr "Night Terrors"); ("tags", JStr "lucid")].

Lemma getUsedTopics_bad_row_witness :
  In null_title_post [good_post; null_title_post] /\
  getUsedTopics (Some [good_post; null_title_post]) = [].
Proof.
  assert (Hp : In null_title_post [good_post; null_title_post]) by (right; left; reflexivity).
  split; [exact Hp|].
  apply (getUsedTopics_bad_row _ _ Hp). left. intros s. vm_compute. discriminate.
Defined.

Lemma getUsedTopics_covers_witness :
  getUsedTopics (Some [good_post]) <> [] /\
  In (Fresh.lower "Lucid Dreams") (getUsedTopics (Some [good_post])).
Proof.
  assert (Hne : getUsedTopics (Some [good_post]) <> []) by (vm_compute; discriminate).
  split; [exact Hne|].
  apply (getUsedTopics_covers [good_post] good_post "Lucid Dreams" Hne); [left; reflexivity | reflexivity].
Defined.

Lemma getExistingContentByCategory_bad_title_witness :
  In null_title_post [good_post; null_title_post] /\
  getExistingContentByCategory (Some [good_post; null_title_post]) = no_existing_content.
Proof.
  assert (Hp : In null_title_post [good_post; null_title_post]) by (right; left; reflexivity).
  split; [exact Hp|].
  apply (getExistingContentByCategory_bad_title _ _ Hp). intros s. vm_compute. discriminate.
Defined.

Lemma getExistingContentByCategory_covers_witness :
  ec_titles (getExistingContentByCategory (Some [good_post])) <> [] /\
  In (Fresh.lower "REM") (ec_topics (getExistingContentByCategory (Some [good_post]))).
Proof.
  assert (Hne : ec_titles (getExistingContentByCategory (Some [good_post])) <> [])
    by (vm_compute; discriminate).
  split; [exact Hne|].
  apply (proj2 (getExistingContentByCategory_covers [good_post] good_post "Lucid Dreams" Hne
                  (or_introl eq_refl) eq_refl) [JStr "REM"; JStr "Sleep"] "REM");
    [reflexivity | left; reflexivity].
Defined.

Lemma getRecentlyUsedDreamElements_bad_tags_witness :
  In string_tags_post [good_post; string_tags_post] /\
  getRecentlyUsedDreamElements (Some [good_post; string_tags_post]) = no_dream_elements.
Proof.
  assert (Hp : In string_tags_post [good_post; string_tags_post]) by (right; left; reflexivity).
  split; [exact Hp|].
  apply (getRecentlyUsedDreamElements_bad_tags _ _ (JStr "lucid") Hp);
    [reflexivity | reflexivity | intros l; discriminate].
Defined.

End RowsExtras.
